(** * Cuckoo Android analyzer and VirusTotal variant normalisation

    A shallow embedding of [analyzer/android/analyzer.py] (the in-guest
    orchestrator: option parsing, package selection, auxiliary modules, the
    bounded polling loop, shutdown and the completion call of [__main__])
    and of [VirusTotalAPI.normalize] from [lib/cuckoo/common/virustotal.py].

    Python byte strings are [string]; the option dictionary is a
    [gmap string string]; plugin code (packages, auxiliary modules, the
    agent RPC, [time.sleep]) is described by records of outcomes, and the
    orchestrator is written in a small trace-and-exception monad.  The
    report functions of [VirusTotalAPI] work on what [r.json()] returns,
    where every string is a [unicode] object: a list of code units, with
    the methods of [unicode]. *)

From Stdlib Require Import ZArith List String Ascii Bool Lia.
From stdpp Require Import gmap strings.
Import ListNotations.
Open Scope string_scope.
Open Scope list_scope.
Open Scope Z_scope.

#[local] Arguments String.append !_ _ / : simpl nomatch.

(** ** Python [str] operations used by the two files *)

Module PyStr.

(** The double quote and the line feed, written by code point. *)
Definition dq : string := String "034"%char "".
Definition nl : ascii := "010"%char.

(** [c.isspace()] for an 8-bit [str]: space, and the controls 9..13. *)
Definition isspace (c : ascii) : bool :=
  let n := nat_of_ascii c in
  ((n =? 32) || ((9 <=? n) && (n <=? 13)))%nat.

Fixpoint lstrip (s : string) : string :=
  match s with
  | EmptyString => EmptyString
  | String c s' => if isspace c then lstrip s' else s
  end.

Fixpoint rstrip (s : string) : string :=
  match s with
  | EmptyString => EmptyString
  | String c s' =>
      match rstrip s' with
      | EmptyString => if isspace c then EmptyString else String c EmptyString
      | r => String c r
      end
  end.

(** [s.strip()] *)
Definition strip (s : string) : string := rstrip (lstrip s).

(** Splitting at every character satisfying [sep]; [split_on] never
    returns the empty list ([''.split(',') == ['']]). *)
Fixpoint split_on (sep : ascii -> bool) (s : string) : list string :=
  match s with
  | EmptyString => [EmptyString]
  | String c s' =>
      if sep c then EmptyString :: split_on sep s'
      else match split_on sep s' with
           | w :: ws => String c w :: ws
           | [] => [String c EmptyString]
           end
  end.

(** [s.split(c)] for a one-character separator. *)
Definition split (c : ascii) (s : string) : list string :=
  split_on (Ascii.eqb c) s.

(** Number of occurrences of a character. *)
Fixpoint count (c : ascii) (s : string) : nat :=
  match s with
  | EmptyString => O
  | String d s' => ((if Ascii.eqb c d then 1 else 0) + count c s')%nat
  end.

Definition lower_char (c : ascii) : ascii :=
  let n := nat_of_ascii c in
  if ((65 <=? n) && (n <=? 90))%nat then ascii_of_nat (n + 32) else c.

(** [s.lower()] in the C locale. *)
Fixpoint lower (s : string) : string :=
  match s with
  | EmptyString => EmptyString
  | String c s' => String (lower_char c) (lower s')
  end.

(** [needle in s] *)
Fixpoint contains (needle s : string) : bool :=
  String.prefix needle s ||
  match s with
  | EmptyString => false
  | String _ s' => contains needle s'
  end.

(** [s.endswith(c)] *)
Fixpoint endswith (c : ascii) (s : string) : bool :=
  match s with
  | EmptyString => false
  | String d EmptyString => Ascii.eqb c d
  | String _ s' => endswith c s'
  end.

(** [os.path.join(a, b)] on POSIX, for two components. *)
Definition path_join (a b : string) : string :=
  match b with
  | String "/"%char _ => b
  | _ =>
      match a with
      | EmptyString => b
      | _ => if endswith "/"%char a then a +:+ b else a +:+ "/" +:+ b
      end
  end.

End PyStr.

(** ** [VirusTotalAPI.normalize] *)

Module VirusTotal.
Import PyStr.

Definition VARIANT_BLACKLIST : list string :=
  [ "generic"; "malware"; "trojan"; "agent"; "win32"; "multi"; "w32";
    "trojanclicker"; "trojware"; "win"; "a variant of win32"; "trj";
    "susp"; "dangerousobject" ].

(** The character class of the [re.split] pattern: [. - ( ) [ ] / ! :]. *)
Definition is_separator (c : ascii) : bool :=
  existsb (Ascii.eqb c)
    [ "."%char; "-"%char; "("%char; ")"%char; "["%char; "]"%char;
      "/"%char; "!"%char; ":"%char ].

(** The character class [a-fA-F0-9]. *)
Definition is_hex (c : ascii) : bool :=
  let n := nat_of_ascii c in
  (((48 <=? n) && (n <=? 57)) || ((65 <=? n) && (n <=? 70))
   || ((97 <=? n) && (n <=? 102)))%nat.

(** [re.match("[a-fA-F0-9]+$", word)]: one or more hexadecimal digits up
    to the end of the string, or up to a final line feed, which [$] also
    accepts.  [seen] records that at least one digit was consumed. *)
Fixpoint hex_match_from (seen : bool) (word : string) : bool :=
  match word with
  | EmptyString => seen
  | String c rest =>
      if is_hex c then hex_match_from true rest
      else seen && Ascii.eqb c nl && String.eqb rest EmptyString
  end.

Definition re_match_hex (word : string) : bool := hex_match_from false word.

(** [word.lower() in self.VARIANT_BLACKLIST] *)
Definition blacklisted (word : string) : bool :=
  existsb (String.eqb (lower word)) VARIANT_BLACKLIST.

(** The body of the [for] loop, one [continue] per test. *)
Fixpoint normalize_words (words : list string) : list string :=
  match words with
  | [] => []
  | word :: rest =>
      let word := strip word in
      if (String.length word <? 4)%nat then normalize_words rest
      else if blacklisted word then normalize_words rest
      else if re_match_hex word then normalize_words rest
      else word :: normalize_words rest
  end.

(** [variant] is [None] for Python's [None]. *)
Definition normalize (variant : option string) : list string :=
  match variant with
  | None => []
  | Some EmptyString => []
  | Some v => normalize_words (split_on is_separator v)
  end.

(** A word made of hexadecimal digits only (and at least one). *)
Definition all_hex (word : string) : bool :=
  negb (String.eqb word EmptyString)
  && forallb is_hex (list_ascii_of_string word).

End VirusTotal.


(** ** The analyzer: exceptions, events and the monad of effects *)

Module Analyzer.
Import PyStr.

(** Exception classes, as far as the [except] clauses of analyzer.py
    tell them apart.  [KeyboardInterrupt] and [SystemExit] derive from
    [BaseException] only; every other class derives from [Exception]. *)
Inductive exn_class : Type :=
| KeyboardInterrupt | SystemExit
| NotImplementedError | AttributeError | ImportError | IndexError
| ValueError | UnboundLocalError
| CuckooError | CuckooPackageError
| OtherException.

(** An exception instance; [exn_msg] is [str(e)]. *)
Record exn : Type := Exn { exn_class_of : exn_class; exn_msg : string }.

(** [isinstance(e, Exception)] *)
Definition is_Exception (e : exn) : bool :=
  match exn_class_of e with
  | KeyboardInterrupt | SystemExit => false
  | _ => true
  end.

(** [isinstance(e, (NotImplementedError, AttributeError))] *)
Definition is_not_implemented (e : exn) : bool :=
  match exn_class_of e with
  | NotImplementedError | AttributeError => true
  | _ => false
  end.

Inductive level : Type := Info | Warning | Critical.

(** What a run does to the outside: log records, imports, calls into
    plugin code, the pause, and the call to the agent. *)
Inductive event : Type :=
| EvLog (lvl : level) (msg : string)
| EvStderr (msg : string)
| EvImport (name : string)
| EvPackageInit (options : gmap string string)
| EvPackageStart (target : string)
| EvPackageCheck (time_counter : Z)
| EvPackageFinish
| EvAuxInit (name : string)
| EvAuxStart (name : string)
| EvAuxStop (name : string)
| EvSleep (seconds : Z)
| EvComplete (success : bool) (error : string) (root : string).

Inductive outcome (A : Type) : Type :=
| Returned (a : A)
| Raised (e : exn).
Arguments Returned {A} a.
Arguments Raised {A} e.

(** A computation emits a trace and returns or raises; [None] is a
    computation that does not come back (the loop out of fuel). *)
Definition M (A : Type) : Type := option (list event * outcome A).

Definition ret {A} (a : A) : M A := Some ([], Returned a).
Definition raise {A} (e : exn) : M A := Some ([], Raised e).
Definition emit (ev : event) : M unit := Some ([ev], Returned tt).

Definition bind {A B} (m : M A) (k : A -> M B) : M B :=
  match m with
  | None => None
  | Some (t, Raised e) => Some (t, Raised e)
  | Some (t, Returned a) =>
      match k a with
      | None => None
      | Some (t', o) => Some (t ++ t', o)
      end
  end.

Notation "x <- m ;; k" := (bind m (fun x => k))
  (at level 100, m at next level, right associativity).
Notation "m ;; k" := (bind m (fun _ => k))
  (at level 100, right associativity).

(** [try: m except ...: h]; [h e = None] when no clause matches [e]. *)
Definition try_except {A} (m : M A) (h : exn -> option (M A)) : M A :=
  match m with
  | Some (t, Raised e) =>
      match h e with
      | Some k => _ <- Some (t, Returned tt) ;; k
      | None => m
      end
  | _ => m
  end.

(** [try: m finally: f].  The [finally] block always runs; when it
    raises, its exception replaces whatever [m] did. *)
Definition try_finally {A B} (m : M A) (f : M B) : M (A * B) :=
  match m with
  | None => None
  | Some (t, o) =>
      match f with
      | None => None
      | Some (t', Raised e') => Some (t ++ t', Raised e')
      | Some (t', Returned b) =>
          Some (t ++ t',
                match o with
                | Returned a => Returned (a, b)
                | Raised e => Raised e
                end)
      end
  end.

Definition log (lvl : level) (msg : string) : M unit := emit (EvLog lvl msg).

(** A call into plugin code whose result is ignored. *)
Definition call (ev : event) (fault : option exn) : M unit :=
  emit ev ;;
  match fault with
  | Some e => raise e
  | None => ret tt
  end.

(** ** Data: configuration, plugins, environment *)

(** [self.config]; [package] and [options] are [None] when absent. *)
Record Config : Type := {
  category : string;
  target : string;
  file_name : string;
  file_type : string;
  package : option string;
  options : option string;
  timeout : Z
}.

(** An analysis package instance: what [start(target)] does, what the
    call of [check()] made at a given value of [time_counter] does (its
    result read as a truth value), and what [finish()] does. *)
Record Package : Type := {
  package_start : string -> option exn;
  package_check : Z -> outcome bool;
  package_finish : option exn
}.

(** A subclass of [Auxiliary]: its class name and what its constructor,
    [start()] and [stop()] do. *)
Record Auxiliary : Type := {
  aux_name : string;
  aux_init : option exn;
  aux_start : option exn;
  aux_stop : option exn
}.

(** Everything around the analyzer. *)
Record Env : Type := {
  cwd : string;
  root : string;
  prepare_fault : option exn;
  config : Config;
  choose_package : string -> string -> option string;
  import_module : string -> option exn;
  package_subclasses : list (gmap string string -> outcome Package);
  auxiliary_modules : list (string * bool);
  auxiliary_subclasses : list Auxiliary;
  sleep_fault : Z -> option exn;
  log_handlers : bool;
  complete_fault : option exn
}.

(** ** [Analyzer.get_options] *)

(** [key, value = parts]: the unpacking of a list into two names. *)
Definition unpack_pair (parts : list string) : outcome (string * string) :=
  match parts with
  | [key; value] => Returned (key, value)
  | [] => Raised (Exn ValueError "need more than 0 values to unpack")
  | [_] => Raised (Exn ValueError "need more than 1 value to unpack")
  | _ => Raised (Exn ValueError "too many values to unpack")
  end.

(** The loop over [fields], updating the dictionary [opts]. *)
Fixpoint parse_fields (fields : list string) (opts : gmap string string)
  : M (gmap string string) :=
  match fields with
  | [] => ret opts
  | field :: rest =>
      match unpack_pair (split "="%char (strip field)) with
      | Raised e =>
          log Warning
            ("Failed parsing option (" +:+ field +:+ "): " +:+ exn_msg e) ;;
          parse_fields rest opts
      | Returned (key, value) =>
          parse_fields rest (<[strip key := strip value]> opts)
      end
  end.

(** [raw] is [self.config.options]; [str.strip] and [str.split] raise
    nothing, so the outer [except ValueError] clause is never taken. *)
Definition get_options (raw : option string) : M (gmap string string) :=
  match raw with
  | None => ret ∅
  | Some EmptyString => ret ∅
  | Some s => parse_fields (split ","%char (strip s)) ∅
  end.

(** ** [Analyzer.prepare] and [Analyzer.run] *)

(** [prepare] leaves the target in [self.target]; a fault of
    [init_logging], [Config] or [shutil.copyfile] is [prepare_fault]. *)
Definition prepare (w : Env) : M string :=
  match prepare_fault w with
  | Some e => raise e
  | None =>
      ret (if String.eqb (category (config w)) "file"
           then path_join "/data/local/tmp" (file_name (config w))
           else target (config w))
  end.

(** Lines 88-109: the package named at submission, or one chosen from
    the file type.  [None] and the empty string are both false. *)
Definition select_package (w : Env) : M string :=
  match package (config w) with
  | Some (String c p) => ret (String c p)
  | _ =>
      log Info
        "No analysis package specified, trying to detect it automagically" ;;
      let chosen :=
        if String.eqb (category (config w)) "file"
        then choose_package w (file_type (config w)) (file_name (config w))
        else Some "default_browser" in
      match chosen with
      | Some (String c p) =>
          log Info ("Automatically selected analysis package "
                    +:+ dq +:+ String c p +:+ dq) ;;
          ret (String c p)
      | _ =>
          raise (Exn CuckooError
                   ("No valid package available for file type: "
                    +:+ file_type (config w)))
      end
  end.

(** [__import__(name, globals(), locals(), ["dummy"], -1)] *)
Definition import (w : Env) (name : string) : M unit :=
  call (EvImport name) (import_module w name).

(** The message of the [CuckooError] of line 119. *)
Definition unable_to_import (package_name : string) : string :=
  "Unable to import package " +:+ dq +:+ package_name +:+ dq
  +:+ ", does not exist.".

(** Lines 114-119. *)
Definition import_package (w : Env) (package_name : string) : M unit :=
  try_except (import w package_name)
    (fun e =>
       match exn_class_of e with
       | ImportError =>
           Some (raise (Exn CuckooError (unable_to_import package_name)))
       | _ => None
       end).

(** Lines 124-128: [Package.__subclasses__()[0]]. *)
Definition select_package_class (w : Env) (package_name : string)
  : M (gmap string string -> outcome Package) :=
  match package_subclasses w with
  | package_class :: _ => ret package_class
  | [] =>
      raise (Exn CuckooError
               ("Unable to select package class (package=" +:+ package_name
                +:+ "): list index out of range"))
  end.

(** Line 131: [package_class(self.get_options())]. *)
Definition new_package (w : Env)
    (package_class : gmap string string -> outcome Package) : M Package :=
  opts <- get_options (options (config w)) ;;
  emit (EvPackageInit opts) ;;
  match package_class opts with
  | Returned pack => ret pack
  | Raised e => raise e
  end.

(** Lines 136-145: import every module of the auxiliary namespace. *)
Fixpoint import_auxiliaries (w : Env) (modules : list (string * bool))
  : M unit :=
  match modules with
  | [] => ret tt
  | (name, ispkg) :: rest =>
      (if ispkg then ret tt
       else
         try_except (import w name)
           (fun e =>
              match exn_class_of e with
              | ImportError =>
                  Some (log Warning
                          ("Unable to import the auxiliary module " +:+ dq
                           +:+ name +:+ dq +:+ ": " +:+ exn_msg e))
              | _ => None
              end)) ;;
      import_auxiliaries w rest
  end.

(** Reading the local [aux], which is unbound until a constructor has
    returned. *)
Definition read_aux (aux : option Auxiliary) : M Auxiliary :=
  match aux with
  | Some a => ret a
  | None =>
      raise (Exn UnboundLocalError
               "local variable 'aux' referenced before assignment")
  end.

(** Lines 151-165, one turn of the loop.  The state is the local [aux]
    (kept from the previous turn when the constructor raises) and the
    list [aux_enabled]; the [finally] block logs and appends whatever
    [aux] is bound to, whether or not [start()] raised. *)
Definition start_auxiliary (module : Auxiliary)
    (st : option Auxiliary * list Auxiliary)
  : M (option Auxiliary * list Auxiliary) :=
  let '(aux0, aux_enabled) := st in
  let aux := match aux_init module with
             | None => Some module
             | Some _ => aux0
             end in
  r <- try_finally
         (try_except
            (call (EvAuxInit (aux_name module)) (aux_init module) ;;
             call (EvAuxStart (aux_name module)) (aux_start module))
            (fun e =>
               if is_not_implemented e then
                 Some (a <- read_aux aux ;;
                       log Warning ("Auxiliary module " +:+ aux_name a
                                    +:+ " was not implemented"))
               else if is_Exception e then
                 Some (a <- read_aux aux ;;
                       log Warning ("Cannot execute auxiliary module "
                                    +:+ aux_name a +:+ ": " +:+ exn_msg e))
               else None))
         (a <- read_aux aux ;;
          log Info ("Started auxiliary module " +:+ aux_name a) ;;
          ret (aux_enabled ++ [a])) ;;
  ret (aux, snd r).

(** Lines 148-165: the loop over [Auxiliary.__subclasses__()]. *)
Fixpoint start_auxiliaries (modules : list Auxiliary)
    (st : option Auxiliary * list Auxiliary) : M (list Auxiliary) :=
  match modules with
  | [] => ret (snd st)
  | module :: rest =>
      st' <- start_auxiliary module st ;;
      start_auxiliaries rest st'
  end.

(** The messages of the three [CuckooError]s of lines 171-180. *)
Definition no_run_function (package_name : string) : string :=
  "The package " +:+ dq +:+ package_name +:+ dq
  +:+ " doesn't contain a run function.".

Definition start_raised_error (package_name : string) (e : exn) : string :=
  "The package " +:+ dq +:+ package_name +:+ dq
  +:+ " start function raised an error: " +:+ exn_msg e.

Definition start_unhandled (package_name : string) (e : exn) : string :=
  "The package " +:+ dq +:+ package_name +:+ dq
  +:+ " start function encountered an unhandled exception: " +:+ exn_msg e.

(** The message with which a fault [e] of [start], an [Exception],
    aborts the run. *)
Definition start_error (package_name : string) (e : exn) : string :=
  match exn_class_of e with
  | NotImplementedError => no_run_function package_name
  | CuckooPackageError => start_raised_error package_name e
  | _ => start_unhandled package_name e
  end.

(** What the handler of [__main__] writes for an [Exception]. *)
Definition critical (w : Env) (error : string) : event :=
  if log_handlers w then EvLog Critical error
  else EvStderr (error +:+ String nl "").

(** Lines 169-180: the three ways [pack.start] aborts the run. *)
Definition start_package (pack : Package) (package_name tgt : string)
  : M unit :=
  try_except (call (EvPackageStart tgt) (package_start pack tgt))
    (fun e =>
       match exn_class_of e with
       | NotImplementedError =>
           Some (raise (Exn CuckooError (no_run_function package_name)))
       | CuckooPackageError =>
           Some (raise (Exn CuckooError
                          (start_raised_error package_name e)))
       | _ =>
           if is_Exception e then
             Some (raise (Exn CuckooError (start_unhandled package_name e)))
           else None
       end).

(** Lines 82-165 of [run]: everything up to the start of the package.
    It yields the package instance, the list [aux_enabled], the package
    path and the target. *)
Definition setup (w : Env) : M (Package * list Auxiliary * string * string) :=
  tgt <- prepare w ;;
  log Info ("Starting analyzer from: " +:+ cwd w) ;;
  log Info ("Storing results at: " +:+ root w) ;;
  log Info ("Target is: " +:+ tgt) ;;
  pkg <- select_package w ;;
  let package_name := "modules.packages." +:+ pkg in
  import_package w package_name ;;
  package_class <- select_package_class w package_name ;;
  pack <- new_package w package_class ;;
  import_auxiliaries w (auxiliary_modules w) ;;
  aux_enabled <- start_auxiliaries (auxiliary_subclasses w) (None, []) ;;
  ret (pack, aux_enabled, package_name, tgt).

(** [time.sleep(1)] in the turn where [time_counter] has the given value. *)
Definition sleep (w : Env) (time_counter : Z) : M unit :=
  call (EvSleep 1) (sleep_fault w time_counter).

(** [pack.check()] *)
Definition check (pack : Package) (time_counter : Z) : M bool :=
  emit (EvPackageCheck time_counter) ;;
  match package_check pack time_counter with
  | Returned alive => ret alive
  | Raised e => raise e
  end.

Inductive signal : Type := Break | Next.

(** The warning of lines 203-204. *)
Definition check_raised (package_name : string) (e : exn) : string :=
  "The package " +:+ dq +:+ package_name +:+ dq
  +:+ " check function raised an exception: " +:+ exn_msg e.

(** Lines 189-207: the [try]/[except]/[finally] of one turn. *)
Definition poll (w : Env) (pack : Package) (package_name : string)
    (time_counter : Z) : M signal :=
  r <- try_finally
         (try_except
            (alive <- check pack time_counter ;;
             if negb alive then
               log Info ("The analysis package requested the "
                         +:+ "termination of the analysis...") ;;
               ret Break
             else ret Next)
            (fun e =>
               if is_Exception e then
                 Some (log Warning (check_raised package_name e) ;;
                       ret Next)
               else None))
         (sleep w time_counter) ;;
  ret (fst r).

(** Lines 182-207.  [time_counter] is the value before the turn; the
    loop returns the value at which it was left. *)
Fixpoint polling (fuel : nat) (w : Env) (pack : Package)
    (package_name : string) (time_counter : Z) : M Z :=
  match fuel with
  | O => None
  | S fuel' =>
      let time_counter := time_counter + 1 in
      if time_counter =? timeout (config w) then
        log Info "Analysis timeout hit, terminating analysis" ;;
        ret time_counter
      else
        s <- poll w pack package_name time_counter ;;
        match s with
        | Break => ret time_counter
        | Next => polling fuel' w pack package_name time_counter
        end
  end.

(** The warning of lines 214-215. *)
Definition finish_raised (package_name : string) (e : exn) : string :=
  "The package " +:+ dq +:+ package_name +:+ dq
  +:+ " finish function raised an exception: " +:+ exn_msg e.

(** Lines 209-215. *)
Definition finish_package (pack : Package) (package_name : string)
  : M unit :=
  try_except (call EvPackageFinish (package_finish pack))
    (fun e =>
       if is_Exception e then
         Some (log Warning (finish_raised package_name e))
       else None).

(** Lines 218-225. *)
Fixpoint stop_auxiliaries (aux_enabled : list Auxiliary) : M unit :=
  match aux_enabled with
  | [] => ret tt
  | aux :: rest =>
      try_except (call (EvAuxStop (aux_name aux)) (aux_stop aux))
        (fun e =>
           if is_not_implemented e then Some (ret tt)
           else if is_Exception e then
             Some (log Warning ("Cannot terminate auxiliary module "
                                +:+ aux_name aux +:+ ": " +:+ exn_msg e))
           else None) ;;
      stop_auxiliaries rest
  end.

(** [Analyzer.complete] *)
Definition complete : M unit := log Info "Analysis completed".

(** Lines 209-229: what follows the loop. *)
Definition shutdown (pack : Package) (aux_enabled : list Auxiliary)
    (package_name : string) : M bool :=
  finish_package pack package_name ;;
  stop_auxiliaries aux_enabled ;;
  complete ;;
  ret true.

Definition run (fuel : nat) (w : Env) : M bool :=
  r <- setup w ;;
  let '(pack, aux_enabled, package_name, tgt) := r in
  start_package pack package_name tgt ;;
  polling fuel w pack package_name 0 ;;
  shutdown pack aux_enabled package_name.

(** ** The main program *)

(** The [try] statement of [__main__] up to its [finally]: the values
    of [success] and [error] it leaves, and the exception still pending
    when no clause caught it. *)
Definition report (w : Env) (o : outcome bool)
  : list event * bool * string * option exn :=
  match o with
  | Returned success => ([], success, "", None)
  | Raised e =>
      match exn_class_of e with
      | KeyboardInterrupt => ([], false, "Keyboard Interrupt", None)
      | _ =>
          if is_Exception e then
            ([critical w (exn_msg e)], false, exn_msg e, None)
          else ([], false, "", Some e)
      end
  end.

(** [__main__]: the trace of the process and the exception it dies
    with, if any.  The [finally] block makes the call to the agent. *)
Definition main (fuel : nat) (w : Env) : option (list event * option exn) :=
  match run fuel w with
  | None => None
  | Some (t, o) =>
      let '(t', success, error, pending) := report w o in
      Some (t ++ t' ++ [EvComplete success error (root w)],
            match complete_fault w with
            | Some e => Some e
            | None => pending
            end)
  end.

(** ** Observations on traces and variations of the environment *)

Definition is_complete (ev : event) : bool :=
  match ev with EvComplete _ _ _ => true | _ => false end.
Definition is_finish (ev : event) : bool :=
  match ev with EvPackageFinish => true | _ => false end.
Definition is_check (ev : event) : bool :=
  match ev with EvPackageCheck _ => true | _ => false end.
Definition is_aux_init (ev : event) : bool :=
  match ev with EvAuxInit _ => true | _ => false end.
Definition is_aux_start (ev : event) : bool :=
  match ev with EvAuxStart _ => true | _ => false end.
Definition is_aux_stop (ev : event) : bool :=
  match ev with EvAuxStop _ => true | _ => false end.
Definition is_warning (ev : event) : bool :=
  match ev with EvLog Warning _ => true | _ => false end.

(** How many events of a trace satisfy [p]. *)
Definition count_events (p : event -> bool) (t : list event) : nat :=
  length (List.filter p t).

(** The trace without the events satisfying [p]. *)
Definition without (p : event -> bool) (t : list event) : list event :=
  List.filter (fun ev => negb (p ev)) t.

(** Keys and values that carry no white space at either end. *)
Definition trimmed (key value : string) : Prop :=
  strip key = key /\ strip value = value.

(** The class names on which [stop()] was invoked, in order. *)
Fixpoint stopped (t : list event) : list string :=
  match t with
  | [] => []
  | EvAuxStop name :: t' => name :: stopped t'
  | _ :: t' => stopped t'
  end.

(** The trace of [n] turns of the loop after [time_counter], in each of
    which [check()] returns true and nothing else happens. *)
Fixpoint quiet_turns (time_counter : Z) (n : nat) : list event :=
  match n with
  | O => []
  | S n' =>
      EvPackageCheck (time_counter + 1) :: EvSleep 1
      :: quiet_turns (time_counter + 1) n'
  end.

(** What the turn [time_counter] logs about [check()]: one warning
    when it raises, nothing when it returns. *)
Definition check_log (pack : Package) (package_name : string)
    (time_counter : Z) : list event :=
  match package_check pack time_counter with
  | Raised e => [EvLog Warning (check_raised package_name e)]
  | Returned _ => []
  end.

(** The trace of [n] turns of the loop after [time_counter] in each of
    which [check()] is called, its fault if any is logged, and the
    pause follows. *)
Fixpoint contained_turns (pack : Package) (package_name : string)
    (time_counter : Z) (n : nat) : list event :=
  match n with
  | O => []
  | S n' =>
      EvPackageCheck (time_counter + 1)
      :: check_log pack package_name (time_counter + 1)
      ++ EvSleep 1
      :: contained_turns pack package_name (time_counter + 1) n'
  end.

(** The package [pack] whose [check()] does [o] in turn [k]. *)
Definition with_check (pack : Package) (k : Z) (o : outcome bool)
  : Package :=
  {| package_start := package_start pack;
     package_check := fun i => if i =? k then o else package_check pack i;
     package_finish := package_finish pack |}.

(** All events of [m] satisfy [p]. *)
Definition emits_only {A} (p : event -> bool) (m : M A) : Prop :=
  forall t o, m = Some (t, o) -> forallb p t = true.

(** [m] comes back, by returning or by raising. *)
Definition comes_back {A} (m : M A) : Prop := m <> None.

(** Two computations that differ at most in the warnings they log. *)
Definition same_but_warnings {A} (m m' : M A) : Prop :=
  match m, m' with
  | None, None => True
  | Some (t, o), Some (t', o') =>
      o = o' /\ without is_warning t = without is_warning t'
  | _, _ => False
  end.

(** What is logged about [finish()]: nothing when it returns. *)
Definition finish_log (pack : Package) (package_name : string)
  : list event :=
  match package_finish pack with
  | Some e => [EvLog Warning (finish_raised package_name e)]
  | None => []
  end.

(** A plugin callback that returns or raises an [Exception]. *)
Definition contained (fault : option exn) : bool :=
  match fault with
  | Some e => is_Exception e
  | None => true
  end.

End Analyzer.

(** ** Sample environments, used to run the model *)

Module Samples.
Import Analyzer.

(** A configuration naming the package and the timeout. *)
Definition config_of (pkg : option string) (seconds : Z) : Config :=
  {| category := "file"; target := "sample.apk"; file_name := "sample.apk";
     file_type := "Zip archive data"; package := pkg;
     options := Some "a=1, b = 2 ,bad"; timeout := seconds |}.

(** A package given by what [start] raises and what [check] does. *)
Definition package_of (start_fault : option exn)
    (checks : Z -> outcome bool) : Package :=
  {| package_start := fun _ => start_fault;
     package_check := checks;
     package_finish := None |}.

Definition always_alive : Z -> outcome bool := fun _ => Returned true.

(** [check()] returns false in turn [k] and true in the others. *)
Definition done_at (k : Z) : Z -> outcome bool :=
  fun i => Returned (negb (i =? k)).

(** [check()] raises [e] in turn [k] and returns true in the others. *)
Definition raising_at (k : Z) (e : exn) : Z -> outcome bool :=
  fun i => if i =? k then Raised e else Returned true.

Definition sniffer : Auxiliary :=
  {| aux_name := "Sniffer"; aux_init := None; aux_start := None;
     aux_stop := None |}.

(** An auxiliary module without [start] whose [stop] raises. *)
Definition broken : Auxiliary :=
  {| aux_name := "Broken"; aux_init := None;
     aux_start := Some (Exn NotImplementedError "");
     aux_stop := Some (Exn OtherException "not running") |}.

(** An environment where only the listed faults happen. *)
Definition env_of (cfg : Config) (imports : string -> option exn)
    (packages : list Package) (auxiliaries : list Auxiliary)
    (sleeps : Z -> option exn) : Env :=
  {| cwd := "/data/local/tmp/analyzer"; root := "/data/local/tmp";
     prepare_fault := None; config := cfg;
     choose_package := fun _ _ => Some "apk";
     import_module := imports;
     package_subclasses := map (fun pack _ => Returned pack) packages;
     auxiliary_modules := [("modules.auxiliary.sniffer", false)];
     auxiliary_subclasses := auxiliaries;
     sleep_fault := sleeps;
     log_handlers := true;
     complete_fault := None |}.

Definition no_fault {A} : A -> option exn := fun _ => None.

(** Imports fail for the module of that name only. *)
Definition missing (name : string) : string -> option exn :=
  fun n => if String.eqb n name
           then Some (Exn ImportError ("No module named " +:+ name))
           else None.

(** The pause of turn [k] raises [e]. *)
Definition fails_at (k : Z) (e : exn) : Z -> option exn :=
  fun i => if i =? k then Some e else None.

(** A [KeyboardInterrupt] arrives during the pause of turn [k]. *)
Definition interrupted_at (k : Z) : Z -> option exn :=
  fails_at k (Exn KeyboardInterrupt "").

(** Nothing goes wrong: the package [pack] is selected by name and the
    analysis may last three turns. *)
Definition quiet_env (pack : Package) : Env :=
  env_of (config_of (Some "apk") 3) no_fault [pack] [sniffer] no_fault.

(** The same with a timeout of four seconds. *)
Definition long_env (pack : Package) : Env :=
  env_of (config_of (Some "apk") 4) no_fault [pack] [sniffer] no_fault.

(** The same with a timeout of one second. *)
Definition brief_env : Env :=
  env_of (config_of (Some "apk") 1) no_fault
    [package_of None always_alive] [sniffer] no_fault.

(** The package named at submission is not there. *)
Definition unknown_package_env : Env :=
  env_of (config_of (Some "does_not_exist") 3)
    (missing "modules.packages.does_not_exist")
    [package_of None always_alive] [sniffer] no_fault.

(** The package checks fine, and the orchestrator is interrupted
    during its second pause. *)
Definition interrupted_env : Env :=
  env_of (config_of (Some "apk") 3) no_fault
    [package_of None always_alive] [sniffer] (interrupted_at 2).

(** No package is named at submission, and [choose_package] answers
    [choice]. *)
Definition env_of_choice (choice : option string) : Env :=
  {| cwd := "/data/local/tmp/analyzer"; root := "/data/local/tmp";
     prepare_fault := None; config := config_of None 3;
     choose_package := fun _ _ => choice;
     import_module := no_fault;
     package_subclasses := [fun _ => Returned (package_of None always_alive)];
     auxiliary_modules := [("modules.auxiliary.sniffer", false)];
     auxiliary_subclasses := [sniffer];
     sleep_fault := no_fault;
     log_handlers := true;
     complete_fault := None |}.

(** A configuration whose timeout is zero. *)
Definition zero_timeout_env : Env :=
  env_of (config_of (Some "apk") 0) no_fault
    [package_of None always_alive] [sniffer] no_fault.

(** An auxiliary module whose [stop()] leaves the interpreter. *)
Definition exiting : Auxiliary :=
  {| aux_name := "Exiting"; aux_init := None; aux_start := None;
     aux_stop := Some (Exn SystemExit "") |}.

(** An auxiliary module whose constructor raises. *)
Definition unbuilt : Auxiliary :=
  {| aux_name := "Unbuilt";
     aux_init := Some (Exn OtherException "no device");
     aux_start := None; aux_stop := None |}.

(** The module of the package imports, but defines no subclass of
    [Package]. *)
Definition no_subclass_env : Env :=
  env_of (config_of (Some "apk") 3) no_fault [] [sniffer] no_fault.

(** An analysis of a URL, with no package named at submission. *)
Definition url_env : Env :=
  env_of {| category := "url"; target := "http://example.org/";
            file_name := ""; file_type := ""; package := None;
            options := None; timeout := 3 |}
    no_fault [package_of None always_alive] [sniffer] no_fault.

(** The constructor of the package refuses the options. *)
Definition refusing_env : Env :=
  {| cwd := "/data/local/tmp/analyzer"; root := "/data/local/tmp";
     prepare_fault := None; config := config_of (Some "apk") 3;
     choose_package := fun _ _ => Some "apk";
     import_module := no_fault;
     package_subclasses :=
       [fun _ => Raised (Exn OtherException "unknown option")];
     auxiliary_modules := [("modules.auxiliary.sniffer", false)];
     auxiliary_subclasses := [sniffer];
     sleep_fault := no_fault;
     log_handlers := true;
     complete_fault := None |}.

End Samples.

(** ** Further observations, for the parts of [run] around the claims *)

Module Observe.
Import PyStr Analyzer.

Definition is_sleep (ev : event) : bool :=
  match ev with EvSleep _ => true | _ => false end.
Definition is_package_start (ev : event) : bool :=
  match ev with EvPackageStart _ => true | _ => false end.
Definition is_package_init (ev : event) : bool :=
  match ev with EvPackageInit _ => true | _ => false end.
Definition is_import (ev : event) : bool :=
  match ev with EvImport _ => true | _ => false end.

(** The names handed to [__import__], in order. *)
Fixpoint imported (t : list event) : list string :=
  match t with
  | [] => []
  | EvImport name :: t' => name :: imported t'
  | _ :: t' => imported t'
  end.

(** [not o] for a string that may be [None]. *)
Definition falsy (o : option string) : bool :=
  match o with
  | Some (String _ _) => false
  | _ => true
  end.

(** A field of the options string that the unpacking refuses. *)
Definition malformed (field : string) : bool :=
  negb (count "="%char field =? 1)%nat.

(** What the start loop leaves in [aux_enabled] for the subclasses
    [modules] when [aux] is bound to [aux0]: one entry per subclass,
    the new instance when the constructor returned, and otherwise the
    instance the local still holds. *)
Fixpoint recorded (aux0 : Auxiliary) (modules : list Auxiliary)
  : list Auxiliary :=
  match modules with
  | [] => []
  | module :: rest =>
      let aux := match aux_init module with
                 | None => module
                 | Some _ => aux0
                 end in
      aux :: recorded aux rest
  end.

(** The import of [name] raises. *)
Definition import_fails (w : Env) (name : string) : bool :=
  match import_module w name with
  | Some _ => true
  | None => false
  end.

(** The message of the [CuckooError] of line 128. *)
Definition unable_to_select (package_name : string) : string :=
  "Unable to select package class (package=" +:+ package_name
  +:+ "): list index out of range".

(** A key or a value free of the two separators of the options
    string. *)
Definition plain (s : string) : Prop :=
  count "="%char s = O /\ count ","%char s = O.

(** Every character of [s] satisfies [p]. *)
Fixpoint all_chars (p : ascii -> bool) (s : string) : bool :=
  match s with
  | EmptyString => true
  | String c s' => p c && all_chars p s'
  end.

(** The events of the set-up of a run (lines 111-165): imports and
    constructors, and the start of the auxiliary modules. *)
Definition is_setup_event (ev : event) : bool :=
  match ev with
  | EvImport _ | EvPackageInit _ | EvAuxInit _ | EvAuxStart _ => true
  | _ => false
  end.

(** The events of the analysis proper (lines 167-225): the calls into
    the package from [start] on, the pauses, and the stop of the
    auxiliary modules. *)
Definition is_analysis_event (ev : event) : bool :=
  match ev with
  | EvPackageStart _ | EvPackageCheck _ | EvPackageFinish
  | EvSleep _ | EvAuxStop _ => true
  | _ => false
  end.

(** The targets handed to [pack.start], in order. *)
Fixpoint started_on (t : list event) : list string :=
  match t with
  | [] => []
  | EvPackageStart tgt :: t' => tgt :: started_on t'
  | _ :: t' => started_on t'
  end.

(** The options handed to the constructor of the package, in order. *)
Fixpoint constructed_with (t : list event) : list (gmap string string) :=
  match t with
  | [] => []
  | EvPackageInit opts :: t' => opts :: constructed_with t'
  | _ :: t' => constructed_with t'
  end.

End Observe.

(** ** The same operations on [unicode] objects

    [r.json()] gives every string of the answer as a [unicode] object,
    so [normalize] and the second loop of [_get_report] run the methods
    of [unicode] there, not those of [str]: [strip] removes more
    characters, [len] counts code units, and [lower] follows the
    Unicode database. *)

Module Unicode.
Import PyStr VirusTotal.

(** A [unicode] object: the list of its code units ([Py_UNICODE]). *)
Definition text : Type := list N.

(** [unicode(s)] for an ASCII [str]; it is also what Python does with
    a [str] literal that meets a [unicode] object. *)
Definition unicode (s : string) : text :=
  map N_of_ascii (list_ascii_of_string s).
Coercion unicode : string >-> text.

(** [Py_UNICODE_ISSPACE] of CPython 2.7: the characters of
    bidirectional type WS, B or S, and those of category Zs. *)
Definition isspace (c : N) : bool :=
  (((0x09 <=? c) && (c <=? 0x0D)) || ((0x1C <=? c) && (c <=? 0x20))
   || (c =? 0x85) || (c =? 0xA0) || (c =? 0x1680) || (c =? 0x180E)
   || ((0x2000 <=? c) && (c <=? 0x200A))
   || (c =? 0x2028) || (c =? 0x2029) || (c =? 0x202F) || (c =? 0x205F)
   || (c =? 0x3000))%N.

Fixpoint lstrip (s : text) : text :=
  match s with
  | [] => []
  | c :: s' => if isspace c then lstrip s' else s
  end.

Fixpoint rstrip (s : text) : text :=
  match s with
  | [] => []
  | c :: s' =>
      match rstrip s' with
      | [] => if isspace c then [] else [c]
      | r => c :: r
      end
  end.

(** [s.strip()] *)
Definition strip (s : text) : text := rstrip (lstrip s).

(** Splitting at every code unit satisfying [sep]; never the empty
    list. *)
Fixpoint split_on (sep : N -> bool) (s : text) : list text :=
  match s with
  | [] => [[]]
  | c :: s' =>
      if sep c then [] :: split_on sep s'
      else match split_on sep s' with
           | w :: ws => (c :: w) :: ws
           | [] => [[c]]
           end
  end.

(** [Py_UNICODE_TOLOWER]: the letters A to Z in ASCII, and out of
    ASCII the simple lower-case mapping [tolower] of the Unicode
    database of the interpreter. *)
Definition lower_char (tolower : N -> N) (c : N) : N :=
  (if c <? 128 then if (65 <=? c) && (c <=? 90) then c + 32 else c
   else tolower c)%N.

(** [s.lower()] *)
Definition lower (tolower : N -> N) (s : text) : text :=
  map (lower_char tolower) s.

(** The character class of the [re.split] pattern. *)
Definition is_separator (c : N) : bool :=
  existsb (N.eqb c) (unicode ".-()[]/!:").

(** The character class [a-fA-F0-9]. *)
Definition is_hex (c : N) : bool :=
  (((48 <=? c) && (c <=? 57)) || ((65 <=? c) && (c <=? 70))
   || ((97 <=? c) && (c <=? 102)))%N.

(** [re.match("[a-fA-F0-9]+$", word)], as for a [str]. *)
Fixpoint hex_match_from (seen : bool) (word : text) : bool :=
  match word with
  | [] => seen
  | c :: rest =>
      if is_hex c then hex_match_from true rest
      else seen && (c =? 10)%N
           && match rest with [] => true | _ => false end
  end.

Definition re_match_hex (word : text) : bool := hex_match_from false word.

(** [word.lower() in self.VARIANT_BLACKLIST]: the entries of the list
    are [str] objects, equal to the [unicode] of the same characters. *)
Definition blacklisted (tolower : N -> N) (word : text) : bool :=
  existsb (fun entry : string =>
             bool_decide (lower tolower word = unicode entry))
    VARIANT_BLACKLIST.

(** The body of the [for] loop of [normalize]. *)
Fixpoint normalize_words (tolower : N -> N) (words : list text)
  : list text :=
  match words with
  | [] => []
  | word :: rest =>
      let word := strip word in
      if (length word <? 4)%nat then normalize_words tolower rest
      else if blacklisted tolower word then normalize_words tolower rest
      else if re_match_hex word then normalize_words tolower rest
      else word :: normalize_words tolower rest
  end.

(** [VirusTotalAPI.normalize] on a [unicode] variant, [None] for
    Python's [None]. *)
Definition normalize (tolower : N -> N) (variant : option text)
  : list text :=
  match variant with
  | None => []
  | Some [] => []
  | Some v => normalize_words tolower (split_on is_separator v)
  end.

(** A word made of hexadecimal digits only (and at least one). *)
Definition all_hex (word : text) : bool :=
  match word with
  | [] => false
  | _ => forallb is_hex word
  end.

(** The lower-case mapping of Latin-1, the part of the database that
    the examples use. *)
Definition latin1_tolower (c : N) : N :=
  (if (0xC0 <=? c) && (c <=? 0xDE) && negb (c =? 0xD7) then c + 32
   else c)%N.

End Unicode.

(** ** [VirusTotalAPI]: requests and reports *)

Module Report.
Import PyStr VirusTotal Unicode.

(** What [r.json()] returns.  Numbers are integers; a string is a
    [unicode] object, and a [str] literal of the code stands for the
    [unicode] of the same characters; a dictionary is a finite map, the
    order in which Python walks it being a parameter of the functions
    that walk one.  A key is kept as the byte string that encodes it
    (UTF-8, which leaves ASCII as it is): the code only compares keys,
    looks them up by ASCII literals and replaces one ASCII character by
    another in them, all of which is the same before and after the
    encoding. *)
#[local] Unset Elimination Schemes.
Inductive json : Type :=
| JNull
| JBool (b : bool)
| JNum (n : Z)
| JStr (s : text)
| JList (l : list json)
| JObj (m : gmap string json).
#[local] Set Elimination Schemes.

(** The exceptions that leave the functions of the class.  The first
    three are [CuckooOperationalError]s: the one of line 51, the one of
    line 59 with the message of the exception it wraps, and
    [VirusTotalResourceNotScanned]; [RequestFault] is an exception of
    [requests.post] that line 58 does not catch. *)
Inductive error : Type :=
| RequestsMissing
| FetchFailed (message : string)
| ResourceNotScanned
| AttributeError
| TypeError
| KeyError (key : string)
| RequestFault (name : string)
| IOError (message : string).

Inductive result (A : Type) : Type :=
| Ok (a : A)
| Fail (e : error).
Arguments Ok {A} a.
Arguments Fail {A} e.

Definition and_then {A B} (m : result A) (k : A -> result B) : result B :=
  match m with
  | Ok a => k a
  | Fail e => Fail e
  end.

Notation "x <-- m ;;; k" := (and_then m (fun x => k))
  (at level 100, m at next level, right associativity).

(** [isinstance(e, CuckooOperationalError)] *)
Definition is_operational (e : error) : bool :=
  match e with
  | RequestsMissing | FetchFailed _ | ResourceNotScanned => true
  | _ => false
  end.

(** The truth value of a JSON value. *)
Definition truthy (j : json) : bool :=
  match j with
  | JNull => false
  | JBool b => b
  | JNum n => negb (n =? 0)
  | JStr s => match s with [] => false | _ => true end
  | JList l => match l with [] => false | _ => true end
  | JObj m => negb (bool_decide (m = ∅))
  end.

(** [s.replace(a, b)] for one-character strings. *)
Fixpoint replace (a b : ascii) (s : string) : string :=
  match s with
  | EmptyString => EmptyString
  | String c s' => String (if Ascii.eqb c a then b else c) (replace a b s')
  end.

(** A value used as a dictionary: [r.get], [r.items] raise
    [AttributeError] on anything else that JSON can give. *)
Definition as_dict (j : json) : result (gmap string json) :=
  match j with
  | JObj m => Ok m
  | _ => Fail AttributeError
  end.

(** [d.get(key, default)] *)
Definition get (d : gmap string json) (key : string) (default : json)
  : json :=
  match d !! key with
  | Some v => v
  | None => default
  end.

(** What [requests.post] does: it raises, or it answers with a status
    code and a body, which [r.json()] parses or refuses with a
    [ValueError]. *)
Inductive post_fault : Type :=
| ConnectionError
| ValueError
| OtherFault (name : string).

Inductive body : Type :=
| Json (j : json)
| NotJson (message : string).

Inductive posted : Type :=
| PostRaised (fault : post_fault) (message : string)
| Response (status_code : Z) (content : body).

(** The arguments of [requests.post]. *)
Record request : Type := {
  req_url : string;
  req_timeout : Z;
  req_data : gmap string string;
  req_files : option string
}.

(** The world of the class: the import of [requests], the network, the
    order in which a dictionary is walked, the lower-case mapping of
    the interpreter's Unicode database out of ASCII, and the two file
    operations ([File(path).get_md5()], [open(path, "rb")]). *)
Record Net : Type := {
  HAVE_REQUESTS : bool;
  post : request -> posted;
  items : gmap string json -> list (string * json);
  tolower : N -> N;
  get_md5 : string -> result string;
  open_rb : string -> option error
}.

(** The object: [self.apikey], [self.timeout], and the truth value of
    [self.scan]. *)
Record VirusTotalAPI : Type := {
  apikey : string;
  timeout : Z;
  scan : bool
}.

Definition FILE_REPORT : string :=
  "https://www.virustotal.com/vtapi/v2/file/report".
Definition URL_REPORT : string :=
  "https://www.virustotal.com/vtapi/v2/url/report".
Definition FILE_SCAN : string :=
  "https://www.virustotal.com/vtapi/v2/file/scan".
Definition URL_SCAN : string :=
  "https://www.virustotal.com/vtapi/v2/url/scan".

(** [_request_json]; the body is parsed only for the status 200. *)
Definition _request_json (net : Net) (self : VirusTotalAPI)
    (url : string) (data : gmap string string) (files : option string)
  : result json :=
  if negb (HAVE_REQUESTS net) then Fail RequestsMissing
  else
    match post net {| req_url := url; req_timeout := timeout self;
                      req_data := data; req_files := files |} with
    | PostRaised ConnectionError message => Fail (FetchFailed message)
    | PostRaised ValueError message => Fail (FetchFailed message)
    | PostRaised (OtherFault name) _ => Fail (RequestFault name)
    | Response status_code content =>
        if status_code =? 200 then
          match content with
          | Json j => Ok j
          | NotJson message => Fail (FetchFailed message)
          end
        else Ok (JObj ∅)
    end.

(** [self.normalize(signature["result"])] on a JSON value: a false
    value gives the empty list, a string is normalised as the
    [unicode] object it is, and [re.split] refuses anything else. *)
Definition normalize_value (net : Net) (variant : json)
  : result (list text) :=
  if negb (truthy variant) then Ok []
  else match variant with
       | JStr s => Ok (Unicode.normalize (tolower net) (Some s))
       | _ => Fail TypeError
       end.

(** Lines 96-98: the loop over [r.get("scans", {}).items()], filling
    [results["scans"]]. *)
Fixpoint embed_scans (net : Net) (entries : list (string * json))
    (scans : gmap string json) : result (gmap string json) :=
  match entries with
  | [] => Ok scans
  | (engine, signature) :: rest =>
      match signature with
      | JObj fields =>
          match fields !! "result" with
          | None => Fail (KeyError "result")
          | Some variant =>
              words <-- normalize_value net variant ;;;
              embed_scans net rest
                (<[replace "."%char "_"%char engine :=
                     JObj (<["normalized" := JList (map JStr words)]> fields)]>
                   scans)
          end
      | _ => Fail TypeError
      end
  end.

(** The elements of a JSON list used as strings ([normalized.lower()]). *)
Fixpoint as_strings (l : list json) : result (list text) :=
  match l with
  | [] => Ok []
  | JStr s :: rest => rest' <-- as_strings rest ;;; Ok (s :: rest')
  | _ :: _ => Fail AttributeError
  end.

(** [signature["normalized"]], walked as a list of strings. *)
Definition read_normalized (signature : json) : result (list text) :=
  match signature with
  | JObj fields =>
      match fields !! "normalized" with
      | Some (JList l) => as_strings l
      | Some _ => Fail TypeError
      | None => Fail (KeyError "normalized")
      end
  | _ => Fail TypeError
  end.

(** Lines 104-107: the words of one signature, added when their
    lower-case form ([unicode.lower]) is new.  The state is
    [results["normalized"]] and [norm_lower]. *)
Fixpoint merge_words (net : Net) (words : list text)
    (st : list text * list text) : list text * list text :=
  match words with
  | [] => st
  | normalized :: rest =>
      let '(found, norm_lower) := st in
      if bool_decide (Unicode.lower (tolower net) normalized ∈ norm_lower)
      then merge_words net rest st
      else merge_words net rest
             (found ++ [normalized],
              norm_lower ++ [Unicode.lower (tolower net) normalized])
  end.

(** Lines 103-107: the loop over [results["scans"].values()]. *)
Fixpoint merge_signatures (net : Net) (signatures : list json)
    (st : list text * list text)
  : result (list text * list text) :=
  match signatures with
  | [] => Ok st
  | signature :: rest =>
      words <-- read_normalized signature ;;;
      merge_signatures net rest (merge_words net words st)
  end.

(** The message of line 76. *)
Definition not_scanned : gmap string json :=
  {[ "summary" :=
       JObj {[ "error" := JStr "resource has not been scanned yet" ]} ]}.

(** [_get_report] *)
Definition _get_report (net : Net) (self : VirusTotalAPI)
    (url resource : string) (summary : bool)
  : result (gmap string json) :=
  response <-- _request_json net self url
                 {[ "resource" := resource; "apikey" := apikey self ]}
                 None ;;;
  r <-- as_dict response ;;;
  if negb (truthy (get r "response_code" JNull)) then
    if scan self then Fail ResourceNotScanned else Ok not_scanned
  else
    let results : gmap string json :=
      r ∪ {[ "summary" :=
               JObj {[ "positives" := get r "positives" (JNum 0);
                       "permalink" := get r "permalink" JNull;
                       "scan_date" := get r "scan_date" JNull ]} ]} in
    if summary then Ok results
    else
      entries <-- as_dict (get r "scans" (JObj ∅)) ;;;
      scans <-- embed_scans net (items net entries) ∅ ;;;
      merged <-- merge_signatures net (map snd (items net scans)) ([], []) ;;;
      Ok (<["normalized" := JList (map JStr (fst merged))]>
            (<["scans" := JObj scans]> results)).

(** [url_report] *)
Definition url_report (net : Net) (self : VirusTotalAPI) (url : string)
    (summary : bool) : result (gmap string json) :=
  _get_report net self URL_REPORT url summary.

(** [file_report] *)
Definition file_report (net : Net) (self : VirusTotalAPI)
    (filepath : string) (summary : bool) : result (gmap string json) :=
  resource <-- get_md5 net filepath ;;;
  _get_report net self FILE_REPORT resource summary.

(** The dictionary returned by the two [scan] methods. *)
Definition permalink_summary (r : gmap string json) : gmap string json :=
  {[ "summary" := JObj {[ "permalink" := get r "permalink" JNull ]} ]}.

(** [url_scan] *)
Definition url_scan (net : Net) (self : VirusTotalAPI) (url : string)
  : result (gmap string json) :=
  response <-- _request_json net self URL_SCAN
                 {[ "apikey" := apikey self; "url" := url ]} None ;;;
  r <-- as_dict response ;;;
  Ok (permalink_summary r).

(** [file_scan]; the file is opened before the request is made. *)
Definition file_scan (net : Net) (self : VirusTotalAPI) (filepath : string)
  : result (gmap string json) :=
  match open_rb net filepath with
  | Some e => Fail e
  | None =>
      response <-- _request_json net self FILE_SCAN
                     {[ "apikey" := apikey self ]} (Some filepath) ;;;
      r <-- as_dict response ;;;
      Ok (permalink_summary r)
  end.

(** ** Observations on reports *)

(** Two words that [norm_lower] takes for the same. *)
Definition same_word (net : Net) (a b : text) : Prop :=
  Unicode.lower (tolower net) a = Unicode.lower (tolower net) b.

(** The words stored under ["normalized"] in the signatures of a
    [scans] dictionary. *)
Definition words_of_scans (scans : gmap string json) (word : text)
  : Prop :=
  exists engine signature words,
    scans !! engine = Some signature /\
    read_normalized signature = Ok words /\
    In word words.

(** The entry that the first loop stores for an engine of [entries]:
    under the engine name with its dots replaced, the signature with
    the normalised words of its ["result"] added. *)
Definition embedded (net : Net) (entries : list (string * json))
    (key : string) (signature : json) : Prop :=
  exists engine fields variant words,
    In (engine, JObj fields) entries /\
    key = replace "."%char "_"%char engine /\
    fields !! "result" = Some variant /\
    normalize_value net variant = Ok words /\
    signature = JObj (<["normalized" := JList (map JStr words)]> fields) /\
    read_normalized signature = Ok words.

(** A word as [normalize] returns them: stripped of the white space
    of [unicode.strip], free of the separators, and passing the three
    tests. *)
Definition informative (net : Net) (word : text) : Prop :=
  Unicode.strip word = word /\
  forallb (fun c => negb (Unicode.is_separator c)) word = true /\
  (4 <= length word)%nat /\
  Forall (fun entry : string =>
            Unicode.lower (tolower net) word <> unicode entry)
    VARIANT_BLACKLIST /\
  Unicode.all_hex word = false.

(** The request that [_get_report] sends. *)
Definition report_request (self : VirusTotalAPI) (url resource : string)
  : request :=
  {| req_url := url; req_timeout := timeout self;
     req_data := {[ "resource" := resource; "apikey" := apikey self ]};
     req_files := None |}.

(** The summary computed at lines 80-86. *)
Definition summary_of (r : gmap string json) : json :=
  JObj {[ "positives" := get r "positives" (JNum 0);
          "permalink" := get r "permalink" JNull;
          "scan_date" := get r "scan_date" JNull ]}.

(** The request that [url_scan] sends. *)
Definition url_scan_request (self : VirusTotalAPI) (url : string) : request :=
  {| req_url := URL_SCAN; req_timeout := timeout self;
     req_data := {[ "apikey" := apikey self; "url" := url ]};
     req_files := None |}.

(** The request that [file_scan] sends. *)
Definition file_scan_request (self : VirusTotalAPI) (filepath : string)
  : request :=
  {| req_url := FILE_SCAN; req_timeout := timeout self;
     req_data := {[ "apikey" := apikey self ]};
     req_files := Some filepath |}.

(** A sample answer of the service and a network that gives it. *)
Definition sample_fields : gmap string json :=
       {[ "response_code" := JNum 1; "positives" := JNum 2;
          "permalink" := JStr "https://www.virustotal.com/x";
          "scans" :=
            JObj {[ "McAfee.GW" :=
                      JObj {[ "detected" := JBool true;
                              "result" := JStr "Trojan.Zbot!gen" ]};
                    "Avast" :=
                      JObj {[ "detected" := JBool true;
                              "result" := JStr "Win32:ZBOT-abcd [Trj]" ]};
                    "ClamAV" :=
                      JObj {[ "detected" := JBool false;
                              "result" := JNull ]} ]} ]}.

Definition sample_answer : json := JObj sample_fields.

(** One engine of an answer, and what the first loop stores for it. *)
Definition sample_entries : list (string * json) :=
  [("McAfee.GW",
    JObj {[ "detected" := JBool true; "result" := JStr "Trojan.Zbot!gen" ]})].

Definition sample_signature : json :=
  JObj (<["normalized" := JList [JStr "Zbot"]]>
          {[ "detected" := JBool true;
             "result" := JStr "Trojan.Zbot!gen" ]}).

Definition sample_scans : gmap string json :=
  {[ "McAfee_GW" := sample_signature ]}.

(** A result with a control character that [unicode.strip] takes for
    white space, and what the first loop stores for it. *)
Definition spaced_result : text :=
  unicode "Zbot." ++ [0x1F%N] ++ unicode "abc".

Definition spaced_entries : list (string * json) :=
  [("McAfee.GW",
    JObj {[ "detected" := JBool true; "result" := JStr spaced_result ]})].

Definition spaced_signature : json :=
  JObj (<["normalized" := JList [JStr "Zbot"]]>
          {[ "detected" := JBool true; "result" := JStr spaced_result ]}).

Definition spaced_scans : gmap string json :=
  {[ "McAfee_GW" := spaced_signature ]}.

(** Two spellings of one word that differ in the case of a letter out
    of ASCII, and signatures that hold them. *)
Definition accented_lower : text := [0xE9%N] ++ unicode "motet".
Definition accented_upper : text := [0xC9%N] ++ unicode "motet".

Definition accented_signatures : list json :=
  [JObj {[ "normalized" := JList [JStr accented_lower; JStr "Kryptik"] ]};
   JObj {[ "normalized" := JList [JStr accented_upper] ]}].

Definition net_of (answer : posted) : Net :=
  {| HAVE_REQUESTS := true;
     post := fun _ => answer;
     items := map_to_list;
     tolower := latin1_tolower;
     get_md5 := fun _ => Ok "d41d8cd98f00b204e9800998ecf8427e";
     open_rb := fun _ => None |}.

(** The same network on a machine where the sample cannot be opened. *)
Definition net_without_file (answer : posted) : Net :=
  {| HAVE_REQUESTS := true;
     post := fun _ => answer;
     items := map_to_list;
     tolower := latin1_tolower;
     get_md5 := fun _ => Fail (IOError "No such file or directory");
     open_rb := fun _ => Some (IOError "No such file or directory") |}.

Definition reporter (scanning : bool) : VirusTotalAPI :=
  {| apikey := "key"; timeout := 60; scan := scanning |}.

End Report.

(** * Facts about the string operations *)

Section PyStrFacts.
Import PyStr.

Lemma append_nil_r (s : string) : s +:+ "" = s.
Proof. induction s as [|c s IH]; simpl; [reflexivity | now rewrite IH]. Qed.

Lemma append_assoc (a b c : string) : (a +:+ b) +:+ c = a +:+ (b +:+ c).
Proof. induction a as [|x a IH]; simpl; [reflexivity | now rewrite IH]. Qed.

Lemma append_inv_head (p a b : string) : p +:+ a = p +:+ b -> a = b.
Proof.
  induction p as [|c p IH]; simpl; intros H; [exact H|].
  injection H as H. now apply IH.
Qed.

Lemma prefix_append (p s : string) : String.prefix p (p +:+ s) = true.
Proof.
  induction p as [|c p IH]; simpl.
  - now destruct s.
  - destruct (ascii_dec c c) as [_|H]; [exact IH | now elim H].
Qed.

Lemma contains_prefix (needle s : string) :
  String.prefix needle s = true -> contains needle s = true.
Proof. intros H. destruct s; cbn [contains]; now rewrite H. Qed.

Lemma contains_append (needle a b : string) :
  contains needle (a +:+ needle +:+ b) = true.
Proof.
  induction a as [|c a IH].
  - simpl. apply contains_prefix, prefix_append.
  - simpl. rewrite IH. apply orb_true_r.
Qed.

(** [rstrip] one character at a time. *)
Lemma rstrip_cons (c : ascii) (s : string) :
  rstrip (String c s) =
  if isspace c && String.eqb (rstrip s) "" then "" else String c (rstrip s).
Proof.
  simpl. destruct (rstrip s) as [|d r]; simpl.
  - destruct (isspace c); reflexivity.
  - now rewrite andb_false_r.
Qed.

Lemma lstrip_idem (s : string) : lstrip (lstrip s) = lstrip s.
Proof.
  induction s as [|c s IH]; simpl; [reflexivity|].
  destruct (isspace c) eqn:E; [exact IH|]. simpl. now rewrite E.
Qed.

Lemma rstrip_idem (s : string) : rstrip (rstrip s) = rstrip s.
Proof.
  induction s as [|c s IH]; [reflexivity|].
  rewrite rstrip_cons.
  destruct (isspace c && String.eqb (rstrip s) "") eqn:E; [reflexivity|].
  rewrite rstrip_cons, IH, E. reflexivity.
Qed.

Lemma lstrip_rstrip (s : string) : lstrip (rstrip s) = rstrip (lstrip s).
Proof.
  induction s as [|c s IH]; [reflexivity|].
  rewrite rstrip_cons. cbn [lstrip].
  destruct (isspace c) eqn:E; simpl andb.
  - destruct (String.eqb (rstrip s) "") eqn:R.
    + apply String.eqb_eq in R. rewrite <- IH, R. reflexivity.
    + cbn [lstrip]. rewrite E. exact IH.
  - cbn [lstrip]. rewrite E. rewrite rstrip_cons, E. reflexivity.
Qed.

Lemma strip_idem (s : string) : strip (strip s) = strip s.
Proof.
  unfold strip. rewrite lstrip_rstrip, rstrip_idem, lstrip_idem. reflexivity.
Qed.

Lemma strip_lstrip (s : string) : strip (lstrip s) = strip s.
Proof. unfold strip. now rewrite lstrip_idem. Qed.

Lemma strip_rstrip (s : string) : strip (rstrip s) = strip s.
Proof. unfold strip. now rewrite lstrip_rstrip, rstrip_idem. Qed.

(** Stripping stops at a character that is not white space. *)
Lemma lstrip_append (a : string) (c : ascii) (b : string) :
  isspace c = false ->
  lstrip (a +:+ String c b) = lstrip a +:+ String c b.
Proof.
  intros Hc. induction a as [|d a IH]; simpl.
  - now rewrite Hc.
  - destruct (isspace d); [exact IH | reflexivity].
Qed.

Lemma rstrip_append (a : string) (c : ascii) (b : string) :
  isspace c = false ->
  rstrip (a +:+ String c b) = a +:+ String c (rstrip b).
Proof.
  intros Hc. induction a as [|d a IH].
  - simpl append. rewrite rstrip_cons, Hc. reflexivity.
  - change (String d a +:+ String c b) with (String d (a +:+ String c b)).
    rewrite rstrip_cons, IH.
    destruct a; simpl; now rewrite andb_false_r.
Qed.

Lemma count_lstrip (c : ascii) (s : string) :
  isspace c = false -> count c (lstrip s) = count c s.
Proof.
  intros Hc. induction s as [|d s IH]; simpl; [reflexivity|].
  destruct (isspace d) eqn:E; [|reflexivity].
  rewrite IH. destruct (Ascii.eqb_spec c d) as [->|_]; [congruence | reflexivity].
Qed.

Lemma count_rstrip (c : ascii) (s : string) :
  isspace c = false -> count c (rstrip s) = count c s.
Proof.
  intros Hc. induction s as [|d s IH]; [reflexivity|].
  rewrite rstrip_cons.
  destruct (isspace d && String.eqb (rstrip s) "") eqn:E.
  - apply andb_true_iff in E as [E1 E2]. apply String.eqb_eq in E2.
    rewrite E2 in IH. simpl in *. rewrite <- IH.
    destruct (Ascii.eqb_spec c d) as [->|_]; [congruence | reflexivity].
  - simpl. now rewrite IH.
Qed.

Lemma count_strip (c : ascii) (s : string) :
  isspace c = false -> count c (strip s) = count c s.
Proof.
  intros Hc. unfold strip. now rewrite count_rstrip, count_lstrip.
Qed.

Lemma split_on_cons (sep : ascii -> bool) (s : string) :
  exists w ws, split_on sep s = w :: ws.
Proof.
  destruct s as [|c s]; simpl; [now eauto|].
  destruct (sep c); [now eauto|].
  destruct (split_on sep s); now eauto.
Qed.

(** A split has one piece more than there are separators. *)
Lemma split_length (c : ascii) (s : string) :
  length (split c s) = S (count c s).
Proof.
  unfold split. induction s as [|d s IH]; simpl; [reflexivity|].
  destruct (Ascii.eqb c d); simpl; [now rewrite IH|].
  destruct (split_on_cons (Ascii.eqb c) s) as (w & ws & E).
  rewrite E in *. simpl in *. exact IH.
Qed.

Lemma split_no_separator (c : ascii) (s : string) :
  count c s = O -> split c s = [s].
Proof.
  unfold split. induction s as [|d s IH]; simpl; [reflexivity|].
  destruct (Ascii.eqb c d); simpl; [discriminate|].
  intros H. now rewrite IH.
Qed.

Lemma split_pair (c : ascii) (a b : string) :
  count c a = O -> count c b = O ->
  split c (a +:+ String c b) = [a; b].
Proof.
  intros Ha Hb. induction a as [|d a IH].
  - unfold split. simpl. rewrite Ascii.eqb_refl.
    fold (split c b). now rewrite split_no_separator.
  - simpl in Ha. unfold split in *. simpl.
    destruct (Ascii.eqb c d); [discriminate|].
    simpl in Ha. now rewrite IH.
Qed.

End PyStrFacts.

(** * [VirusTotalAPI.normalize] keeps only informative words *)

Section VirusTotalFacts.
Import PyStr VirusTotal.

Lemma blacklist_lowercase :
  Forall (fun b => lower b = b) VARIANT_BLACKLIST.
Proof. repeat constructor. Qed.

Lemma not_blacklisted (word : string) :
  blacklisted word = false ->
  Forall (fun b => lower word <> lower b) VARIANT_BLACKLIST.
Proof.
  unfold blacklisted. pose proof blacklist_lowercase as L. revert L.
  generalize VARIANT_BLACKLIST as l.
  induction l as [|b l IH]; intros L H; constructor;
    inversion L as [|? ? Hb Hl]; subst;
    simpl in H; apply orb_false_iff in H as [H1 H2].
  - rewrite Hb. now apply String.eqb_neq.
  - now apply IH.
Qed.

Lemma hex_match_all (word : string) :
  forallb is_hex (list_ascii_of_string word) = true ->
  hex_match_from true word = true.
Proof.
  induction word as [|c word IH]; simpl; [reflexivity|].
  intros H. apply andb_true_iff in H as [Hc Hw].
  rewrite Hc. now apply IH.
Qed.

Lemma not_hex_match (word : string) :
  re_match_hex word = false -> all_hex word = false.
Proof.
  intros H. destruct (all_hex word) eqn:E; [|reflexivity].
  unfold all_hex in E. apply andb_true_iff in E as [E1 E2].
  destruct word as [|c word]; [discriminate|].
  simpl in E2. apply andb_true_iff in E2 as [Hc Hw].
  unfold re_match_hex in H. simpl in H. rewrite Hc in H.
  now rewrite hex_match_all in H.
Qed.

Lemma normalize_words_kept (words : list string) :
  Forall (fun word =>
            (4 <= String.length word)%nat /\
            Forall (fun b => lower word <> lower b) VARIANT_BLACKLIST /\
            all_hex word = false)
         (normalize_words words).
Proof.
  induction words as [|w words IH]; simpl; [constructor|].
  destruct (String.length (strip w) <? 4)%nat eqn:Hlen; [exact IH|].
  destruct (blacklisted (strip w)) eqn:Hbl; [exact IH|].
  destruct (re_match_hex (strip w)) eqn:Hhex; [exact IH|].
  constructor; [|exact IH].
  apply Nat.ltb_ge in Hlen.
  auto using not_blacklisted, not_hex_match.
Qed.

(** C10: every element of the list returned by [normalize] has at
    least four characters, differs when lower-cased from every word of
    [VARIANT_BLACKLIST] (lower-cased), and is not a run of hexadecimal
    digits; for [None] and for the empty string the list is empty. *)
Theorem normalize_keeps_informative_words :
  (forall variant : option string,
      Forall (fun word =>
                (4 <= String.length word)%nat /\
                Forall (fun b => lower word <> lower b) VARIANT_BLACKLIST /\
                all_hex word = false)
             (normalize variant)) /\
  normalize None = [] /\
  normalize (Some "") = [].
Proof.
  split; [|split; reflexivity].
  intros [[|c v]|]; simpl normalize; try constructor.
  apply normalize_words_kept.
Qed.

Example normalize_kryptik :
  normalize (Some "a variant of Win32/Kryptik.ABCD!0f3a (Generic)")
  = ["Kryptik"].
Proof. reflexivity. Qed.

End VirusTotalFacts.

(** * The option parser *)

Section OptionParser.
Import PyStr Analyzer.

Lemma unpack_pair_malformed (field : string) :
  count "="%char field <> 1%nat ->
  exists e, unpack_pair (split "="%char (strip field)) = Raised e.
Proof.
  intros H.
  pose proof (split_length "="%char (strip field)) as L.
  rewrite count_strip in L by reflexivity.
  destruct (split "="%char (strip field)) as [|a [|b [|c l]]];
    simpl in *; eauto.
  congruence.
Qed.

Lemma unpack_pair_well_formed (key value : string) :
  count "="%char key = O -> count "="%char value = O ->
  unpack_pair (split "="%char (strip (key +:+ "=" +:+ value)))
  = Returned (lstrip key, rstrip value).
Proof.
  intros Hk Hv. unfold strip. simpl append.
  rewrite lstrip_append, rstrip_append by reflexivity.
  rewrite split_pair; [reflexivity| |].
  - now rewrite count_lstrip.
  - now rewrite count_rstrip.
Qed.

Lemma parse_fields_total (fields : list string) :
  forall opts : gmap string string,
    map_Forall trimmed opts ->
    exists t opts',
      parse_fields fields opts = Some (t, Returned opts') /\
      forallb is_warning t = true /\
      map_Forall trimmed opts'.
Proof.
  induction fields as [|field rest IH]; intros opts Hopts; simpl.
  - exists [], opts. auto.
  - destruct (unpack_pair (split "="%char (strip field)))
      as [[key value]|e].
    + apply IH. apply map_Forall_insert_2; [|exact Hopts].
      split; apply strip_idem.
    + destruct (IH opts Hopts) as (t & opts' & E & Ht & Ho).
      rewrite E. simpl. eauto.
Qed.

(** C7: the string [a=1, b = 2 ,bad] parses to the dictionary with
    [a] at ["1"] and [b] at ["2"], with one warning for [bad]; for
    every input the parser returns a dictionary and logs nothing but
    warnings, every key and value in it is trimmed; a token whose
    number of [=] is not one is skipped with a warning, a token
    [key=value] stores the trimmed key and value; an absent or empty
    string gives the empty dictionary. *)
Theorem get_options_parses :
  get_options (Some "a=1, b = 2 ,bad")
  = Some ([EvLog Warning
             "Failed parsing option (bad): need more than 1 value to unpack"],
          Returned {[ "a" := "1"; "b" := "2" ]}) /\
  (forall raw : option string,
      exists t opts,
        get_options raw = Some (t, Returned opts) /\
        forallb is_warning t = true /\
        map_Forall trimmed opts) /\
  (forall (field : string) (rest : list string) (opts : gmap string string),
      count "="%char field <> 1%nat ->
      exists msg,
        parse_fields (field :: rest) opts
        = (log Warning msg ;; parse_fields rest opts)) /\
  (forall (key value : string) (rest : list string)
          (opts : gmap string string),
      count "="%char key = O -> count "="%char value = O ->
      parse_fields ((key +:+ "=" +:+ value) :: rest) opts
      = parse_fields rest (<[strip key := strip value]> opts)) /\
  get_options None = ret ∅ /\
  get_options (Some "") = ret ∅.
Proof.
  split; [vm_compute; reflexivity|].
  split; [|split; [|split; [|split; reflexivity]]].
  - pose proof (map_Forall_empty trimmed (M := gmap string)) as Hempty.
    intros [[|c s]|]; simpl get_options;
      try (exists [], ∅; split; [reflexivity|]; split;
           [reflexivity | exact Hempty]).
    apply parse_fields_total, Hempty.
  - intros field rest opts H.
    destruct (unpack_pair_malformed field H) as [e E].
    simpl. rewrite E. eauto.
  - intros key value rest opts Hk Hv.
    cbn [parse_fields].
    rewrite (unpack_pair_well_formed key value Hk Hv).
    now rewrite strip_lstrip, strip_rstrip.
Qed.

Lemma get_options_parses_witness :
  (exists msg,
      parse_fields ["a==1"; "b=2"] ∅
      = (log Warning msg ;; parse_fields ["b=2"] ∅)) /\
  parse_fields [" k" +:+ "=" +:+ "v "] ∅
  = parse_fields [] (<[strip " k" := strip "v "]> ∅).
Proof.
  split.
  - apply (proj1 (proj2 (proj2 get_options_parses)) "a==1" ["b=2"] ∅).
    vm_compute. discriminate.
  - apply (proj1 (proj2 (proj2 (proj2 get_options_parses))) " k" "v " [] ∅);
      reflexivity.
Defined.

End OptionParser.

(** * The monad: equations, alphabets, termination *)

Section MonadFacts.
Import Analyzer.
Context {A B : Type}.

Lemma bind_returned (m : M A) (k : A -> M B) t a :
  m = Some (t, Returned a) ->
  bind m k = match k a with
             | None => None
             | Some (t', o) => Some (t ++ t', o)
             end.
Proof. now intros ->. Qed.

Lemma bind_raised (m : M A) (k : A -> M B) t e :
  m = Some (t, Raised e) -> bind m k = Some (t, Raised e).
Proof. now intros ->. Qed.

Lemma bind_inv (m : M A) (k : A -> M B) t o :
  bind m k = Some (t, o) ->
  (exists e, m = Some (t, Raised e) /\ o = Raised e) \/
  (exists t1 a t2,
      m = Some (t1, Returned a) /\ k a = Some (t2, o) /\ t = t1 ++ t2).
Proof.
  destruct m as [[t1 [a|e]]|]; simpl; [|intros [= <- <-]; eauto|discriminate].
  destruct (k a) as [[t2 o2]|] eqn:E; [|discriminate].
  intros [= <- <-]. right. eauto 6.
Qed.

Lemma emits_only_ret p (a : A) : emits_only p (ret a).
Proof. now intros t o [= <- <-]. Qed.

Lemma emits_only_raise p e : emits_only p (raise e : M A).
Proof. now intros t o [= <- <-]. Qed.

Lemma emits_only_bind p (m : M A) (k : A -> M B) :
  emits_only p m -> (forall a, emits_only p (k a)) -> emits_only p (bind m k).
Proof.
  intros Hm Hk t o H. apply bind_inv in H as [(e & H & _)|(t1 & a & t2 & H1 & H2 & ->)].
  - eapply Hm, H.
  - rewrite forallb_app. apply andb_true_iff. split; [eapply Hm, H1 | eapply Hk, H2].
Qed.

Lemma emits_only_try_except p (m : M A) (h : exn -> option (M A)) :
  emits_only p m ->
  (forall e, match h e with Some k => emits_only p k | None => True end) ->
  emits_only p (try_except m h).
Proof.
  intros Hm Hh t o. unfold try_except.
  destruct m as [[t1 [a|e]]|] eqn:E; try (now apply Hm).
  specialize (Hh e). destruct (h e) as [k|]; [|now apply Hm].
  simpl. destruct k as [[t2 o2]|] eqn:E2; [|discriminate].
  intros [= <- <-]. rewrite forallb_app. apply andb_true_iff. split.
  - eapply Hm. reflexivity.
  - eapply Hh. reflexivity.
Qed.

Lemma emits_only_try_finally p (m : M A) (f : M B) :
  emits_only p m -> emits_only p f -> emits_only p (try_finally m f).
Proof.
  intros Hm Hf t o. unfold try_finally.
  destruct m as [[t1 o1]|]; [|discriminate].
  destruct f as [[t2 [b|e]]|]; [| |discriminate];
    intros [= <- <-]; rewrite forallb_app; apply andb_true_iff;
    (split; [eapply Hm | eapply Hf]; reflexivity).
Qed.

Lemma comes_back_bind (m : M A) (k : A -> M B) :
  comes_back m -> (forall a, comes_back (k a)) -> comes_back (bind m k).
Proof.
  unfold comes_back. intros Hm Hk.
  destruct m as [[t [a|e]]|]; simpl; [|discriminate|congruence].
  specialize (Hk a). destruct (k a) as [[t' o]|]; [discriminate|congruence].
Qed.

Lemma comes_back_try_except (m : M A) (h : exn -> option (M A)) :
  comes_back m ->
  (forall e, match h e with Some k => comes_back k | None => True end) ->
  comes_back (try_except m h).
Proof.
  unfold comes_back, try_except. intros Hm Hh.
  destruct m as [[t [a|e]]|]; try discriminate; [|congruence].
  specialize (Hh e). destruct (h e) as [k|]; [|discriminate].
  simpl. destruct k as [[t' o]|]; [discriminate|congruence].
Qed.

Lemma comes_back_try_finally (m : M A) (f : M B) :
  comes_back m -> comes_back f -> comes_back (try_finally m f).
Proof.
  unfold comes_back, try_finally. intros Hm Hf.
  destruct m as [[t o]|]; [|congruence].
  destruct f as [[t' [b|e]]|]; [discriminate|discriminate|congruence].
Qed.

Lemma same_but_warnings_refl (m : M A) : same_but_warnings m m.
Proof. destruct m as [[t o]|]; simpl; auto. Qed.

Lemma same_but_warnings_bind (m m' : M A) (k k' : A -> M B) :
  same_but_warnings m m' ->
  (forall a, same_but_warnings (k a) (k' a)) ->
  same_but_warnings (bind m k) (bind m' k').
Proof.
  unfold same_but_warnings at 1.
  destruct m as [[t o]|], m' as [[t' o']|]; try tauto.
  intros [<- Ht] Hk. destruct o as [a|e]; simpl; [|auto].
  specialize (Hk a).
  destruct (k a) as [[t1 o1]|], (k' a) as [[t1' o1']|]; simpl in *; try tauto.
  destruct Hk as [<- Ht1]. split; [reflexivity|].
  unfold without in *. now rewrite !List.filter_app, Ht, Ht1.
Qed.

End MonadFacts.

(** * Which events each part of [run] can emit, and that it comes back *)

Section Alphabet.
Import PyStr Analyzer.
Variable p : event -> bool.
Create HintDb alphabet.
Hypothesis p_log : forall lvl msg, p (EvLog lvl msg) = true.

Lemma emits_only_emit ev : p ev = true -> emits_only p (emit ev).
Proof. intros H t o [= <- <-]. simpl. now rewrite H. Qed.

Lemma emits_only_log lvl msg : emits_only p (log lvl msg).
Proof. apply emits_only_emit, p_log. Qed.

Lemma emits_only_call ev fault : p ev = true -> emits_only p (call ev fault).
Proof.
  intros H. apply emits_only_bind; [now apply emits_only_emit|].
  intros _. destruct fault; [apply emits_only_raise | apply emits_only_ret].
Qed.

Local Hint Resolve emits_only_ret emits_only_raise emits_only_log
  emits_only_emit emits_only_call : alphabet.

Ltac alphabet :=
  repeat first
    [ solve [eauto with alphabet]
    | apply emits_only_bind; [|intros ?]
    | apply emits_only_try_finally ].

Lemma emits_only_parse_fields fields :
  forall opts, emits_only p (parse_fields fields opts).
Proof.
  induction fields as [|field rest IH]; intros opts; cbn [parse_fields].
  - alphabet.
  - destruct (unpack_pair _) as [[key value]|e]; [apply IH|].
    alphabet.
Qed.

Lemma emits_only_get_options raw : emits_only p (get_options raw).
Proof.
  destruct raw as [[|c s]|]; cbn [get_options]; alphabet.
  apply emits_only_parse_fields.
Qed.

Lemma emits_only_prepare w : emits_only p (prepare w).
Proof. unfold prepare. destruct (prepare_fault w); alphabet. Qed.

Lemma emits_only_select_package w : emits_only p (select_package w).
Proof.
  unfold select_package.
  destruct (package (config w)) as [[|c s]|]; alphabet;
    destruct (if String.eqb _ _ then _ else _) as [[|c' s']|]; alphabet.
Qed.

Lemma emits_only_read_aux aux : emits_only p (read_aux aux).
Proof. destruct aux; cbn [read_aux]; alphabet. Qed.

Lemma emits_only_finish_package pack package_name :
  p EvPackageFinish = true -> emits_only p (finish_package pack package_name).
Proof.
  intros H. apply emits_only_try_except; [alphabet|].
  intros e. destruct (is_Exception e); [alphabet | exact I].
Qed.

Lemma emits_only_stop_auxiliaries aux_enabled :
  (forall name, p (EvAuxStop name) = true) ->
  emits_only p (stop_auxiliaries aux_enabled).
Proof.
  intros H. induction aux_enabled as [|aux rest IH]; cbn [stop_auxiliaries];
    [alphabet|].
  apply emits_only_bind; [|intros _; exact IH].
  apply emits_only_try_except; [alphabet|].
  intros e. destruct (is_not_implemented e); [alphabet|].
  destruct (is_Exception e); [alphabet | exact I].
Qed.

Lemma emits_only_shutdown pack aux_enabled package_name :
  p EvPackageFinish = true ->
  (forall name, p (EvAuxStop name) = true) ->
  emits_only p (shutdown pack aux_enabled package_name).
Proof.
  intros H1 H2. unfold shutdown, complete.
  apply emits_only_bind; [now apply emits_only_finish_package|intros _].
  apply emits_only_bind; [now apply emits_only_stop_auxiliaries|intros _].
  alphabet.
Qed.

Section Polling.
Hypothesis p_check : forall i, p (EvPackageCheck i) = true.
Hypothesis p_sleep : forall n, p (EvSleep n) = true.

Lemma emits_only_poll w pack package_name i :
  emits_only p (poll w pack package_name i).
Proof.
  unfold poll, sleep, check. alphabet.
  apply emits_only_try_except.
  - alphabet; [destruct (package_check pack i); alphabet|].
    destruct (negb _); alphabet.
  - intros e. destruct (is_Exception e); [alphabet | exact I].
Qed.

Lemma emits_only_polling fuel w pack package_name :
  forall i, emits_only p (polling fuel w pack package_name i).
Proof.
  induction fuel as [|fuel IH]; intros i; cbn [polling]; [discriminate|].
  destruct (i + 1 =? timeout (config w)); [alphabet|].
  apply emits_only_bind; [apply emits_only_poll|].
  intros []; [alphabet | apply IH].
Qed.

End Polling.

Section Setup.
Hypothesis p_import : forall name, p (EvImport name) = true.
Hypothesis p_package_init : forall opts, p (EvPackageInit opts) = true.
Hypothesis p_aux_init : forall name, p (EvAuxInit name) = true.
Hypothesis p_aux_start : forall name, p (EvAuxStart name) = true.

Lemma emits_only_import_package w package_name :
  emits_only p (import_package w package_name).
Proof.
  apply emits_only_try_except; [unfold import; alphabet|].
  intros e. destruct (exn_class_of e); try exact I. alphabet.
Qed.

Lemma emits_only_import_auxiliaries w modules :
  emits_only p (import_auxiliaries w modules).
Proof.
  induction modules as [|[name ispkg] rest IH]; cbn [import_auxiliaries];
    [alphabet|].
  apply emits_only_bind; [|intros _; exact IH].
  destruct ispkg; [alphabet|].
  apply emits_only_try_except; [unfold import; alphabet|].
  intros e. destruct (exn_class_of e); try exact I. alphabet.
Qed.

Lemma emits_only_start_auxiliary module st :
  emits_only p (start_auxiliary module st).
Proof.
  destruct st as [aux0 aux_enabled]. unfold start_auxiliary.
  alphabet; [|apply emits_only_read_aux].
  apply emits_only_try_except; [alphabet|].
  intros e. destruct (is_not_implemented e).
  - alphabet. apply emits_only_read_aux.
  - destruct (is_Exception e); [|exact I].
    alphabet. apply emits_only_read_aux.
Qed.

Lemma emits_only_start_auxiliaries modules :
  forall st, emits_only p (start_auxiliaries modules st).
Proof.
  induction modules as [|module rest IH]; intros st;
    cbn [start_auxiliaries]; [alphabet|].
  apply emits_only_bind; [apply emits_only_start_auxiliary | intros st'; apply IH].
Qed.

Lemma emits_only_new_package w package_class :
  emits_only p (new_package w package_class).
Proof.
  unfold new_package. alphabet; [apply emits_only_get_options|].
  destruct (package_class a); alphabet.
Qed.

Lemma emits_only_setup w : emits_only p (setup w).
Proof.
  unfold setup.
  apply emits_only_bind; [apply emits_only_prepare|intros tgt].
  do 3 (apply emits_only_bind; [apply emits_only_log|intros _]).
  apply emits_only_bind; [apply emits_only_select_package|intros pkg].
  apply emits_only_bind; [apply emits_only_import_package|intros _].
  apply emits_only_bind.
  { unfold select_package_class. destruct (package_subclasses w); alphabet. }
  intros package_class.
  apply emits_only_bind; [apply emits_only_new_package|intros pack].
  apply emits_only_bind; [apply emits_only_import_auxiliaries|intros _].
  apply emits_only_bind; [apply emits_only_start_auxiliaries|intros auxs].
  alphabet.
Qed.

End Setup.

Lemma emits_only_start_package pack package_name tgt :
  p (EvPackageStart tgt) = true ->
  emits_only p (start_package pack package_name tgt).
Proof.
  intros H. apply emits_only_try_except; [alphabet|].
  intros e. unfold is_Exception.
  destruct (exn_class_of e); try exact I; alphabet.
Qed.

End Alphabet.

Section Termination.
Import PyStr Analyzer.

Lemma comes_back_ret {A} (a : A) : comes_back (ret a).
Proof. discriminate. Qed.

Lemma comes_back_raise {A} e : comes_back (raise e : M A).
Proof. discriminate. Qed.

Lemma comes_back_emit ev : comes_back (emit ev).
Proof. discriminate. Qed.

Lemma comes_back_log lvl msg : comes_back (log lvl msg).
Proof. discriminate. Qed.

Lemma comes_back_call ev fault : comes_back (call ev fault).
Proof. destruct fault; discriminate. Qed.

Create HintDb returns.
Local Hint Resolve comes_back_ret comes_back_raise comes_back_emit
  comes_back_log comes_back_call : returns.

Ltac returns :=
  repeat first
    [ solve [eauto with returns]
    | apply comes_back_bind; [|intros ?]
    | apply comes_back_try_finally ].

Lemma comes_back_parse_fields fields :
  forall opts, comes_back (parse_fields fields opts).
Proof.
  induction fields as [|field rest IH]; intros opts; cbn [parse_fields].
  - returns.
  - destruct (unpack_pair _) as [[key value]|e]; [apply IH|]. returns.
Qed.

Lemma comes_back_get_options raw : comes_back (get_options raw).
Proof.
  destruct raw as [[|c s]|]; cbn [get_options]; returns.
  apply comes_back_parse_fields.
Qed.

Lemma comes_back_select_package w : comes_back (select_package w).
Proof.
  unfold select_package.
  destruct (package (config w)) as [[|c s]|]; returns;
    destruct (if String.eqb _ _ then _ else _) as [[|c' s']|]; returns.
Qed.

Lemma comes_back_import_package w package_name :
  comes_back (import_package w package_name).
Proof.
  apply comes_back_try_except; [unfold import; returns|].
  intros e. destruct (exn_class_of e); try exact I. returns.
Qed.

Lemma comes_back_import_auxiliaries w modules :
  comes_back (import_auxiliaries w modules).
Proof.
  induction modules as [|[name ispkg] rest IH]; cbn [import_auxiliaries];
    [returns|].
  apply comes_back_bind; [|intros _; exact IH].
  destruct ispkg; [returns|].
  apply comes_back_try_except; [unfold import; returns|].
  intros e. destruct (exn_class_of e); try exact I. returns.
Qed.

Lemma comes_back_read_aux aux : comes_back (read_aux aux).
Proof. destruct aux; discriminate. Qed.

Lemma comes_back_start_auxiliary module st :
  comes_back (start_auxiliary module st).
Proof.
  destruct st as [aux0 aux_enabled]. unfold start_auxiliary.
  returns; [|apply comes_back_read_aux].
  apply comes_back_try_except; [returns|].
  intros e. destruct (is_not_implemented e).
  - returns. apply comes_back_read_aux.
  - destruct (is_Exception e); [|exact I].
    returns. apply comes_back_read_aux.
Qed.

Lemma comes_back_start_auxiliaries modules :
  forall st, comes_back (start_auxiliaries modules st).
Proof.
  induction modules as [|module rest IH]; intros st;
    cbn [start_auxiliaries]; [returns|].
  apply comes_back_bind; [apply comes_back_start_auxiliary | intros st'; apply IH].
Qed.

Lemma comes_back_setup w : comes_back (setup w).
Proof.
  unfold setup.
  apply comes_back_bind.
  { unfold prepare. destruct (prepare_fault w); returns. }
  intros tgt.
  do 3 (apply comes_back_bind; [apply comes_back_log|intros _]).
  apply comes_back_bind; [apply comes_back_select_package|intros pkg].
  apply comes_back_bind; [apply comes_back_import_package|intros _].
  apply comes_back_bind.
  { unfold select_package_class. destruct (package_subclasses w); returns. }
  intros package_class.
  apply comes_back_bind.
  { unfold new_package.
    apply comes_back_bind; [apply comes_back_get_options|intros opts].
    returns. destruct (package_class opts); returns. }
  intros pack.
  apply comes_back_bind; [apply comes_back_import_auxiliaries|intros _].
  apply comes_back_bind; [apply comes_back_start_auxiliaries|intros auxs].
  returns.
Qed.

Lemma comes_back_start_package pack package_name tgt :
  comes_back (start_package pack package_name tgt).
Proof.
  apply comes_back_try_except; [returns|].
  intros e. unfold is_Exception.
  destruct (exn_class_of e); try exact I; returns.
Qed.

Lemma comes_back_poll w pack package_name i :
  comes_back (poll w pack package_name i).
Proof.
  unfold poll, sleep. returns.
  apply comes_back_try_except.
  - apply comes_back_bind.
    + unfold check. returns. destruct (package_check pack i); returns.
    + intros alive. destruct (negb alive); returns.
  - intros e. destruct (is_Exception e); [returns | exact I].
Qed.

(** The loop comes back as soon as the fuel covers the turns left
    before the timeout. *)
Lemma comes_back_polling fuel w pack package_name :
  forall i,
    i < timeout (config w) ->
    timeout (config w) - i <= Z.of_nat fuel ->
    comes_back (polling fuel w pack package_name i).
Proof.
  induction fuel as [|fuel IH]; intros i Hlt Hfuel; [lia|].
  cbn [polling].
  destruct (Z.eqb_spec (i + 1) (timeout (config w))) as [E|E]; [returns|].
  apply comes_back_bind; [apply comes_back_poll|].
  intros []; [returns|]. apply IH; lia.
Qed.

Lemma comes_back_stop_auxiliaries aux_enabled :
  comes_back (stop_auxiliaries aux_enabled).
Proof.
  induction aux_enabled as [|aux rest IH]; cbn [stop_auxiliaries]; [returns|].
  apply comes_back_bind; [|intros _; exact IH].
  apply comes_back_try_except; [returns|].
  intros e. destruct (is_not_implemented e); [returns|].
  destruct (is_Exception e); [returns | exact I].
Qed.

Lemma comes_back_shutdown pack aux_enabled package_name :
  comes_back (shutdown pack aux_enabled package_name).
Proof.
  unfold shutdown, complete.
  apply comes_back_bind.
  { apply comes_back_try_except; [returns|].
    intros e. destruct (is_Exception e); [returns | exact I]. }
  intros _.
  apply comes_back_bind; [apply comes_back_stop_auxiliaries|intros _].
  returns.
Qed.

Lemma comes_back_run fuel w :
  1 <= timeout (config w) ->
  timeout (config w) <= Z.of_nat fuel ->
  comes_back (run fuel w).
Proof.
  intros H1 H2. unfold run.
  apply comes_back_bind; [apply comes_back_setup|].
  intros [[[pack auxs] package_name] tgt].
  apply comes_back_bind; [apply comes_back_start_package|intros _].
  apply comes_back_bind; [apply comes_back_polling; lia|intros _].
  apply comes_back_shutdown.
Qed.

End Termination.

(** * The completion call of [__main__] *)

Section CompletionReporter.
Import PyStr Analyzer Samples.

Lemma count_events_app p t1 t2 :
  count_events p (t1 ++ t2) = (count_events p t1 + count_events p t2)%nat.
Proof. unfold count_events. now rewrite List.filter_app, length_app. Qed.

Lemma count_events_none p t :
  forallb (fun ev => negb (p ev)) t = true -> count_events p t = 0%nat.
Proof.
  unfold count_events. induction t as [|ev t IH]; [reflexivity|].
  cbn [forallb]. intros H. apply andb_true_iff in H as [H1 H2].
  apply negb_true_iff in H1.
  cbn [List.filter]. rewrite H1. now apply IH.
Qed.

(** Nothing in [run] emits some kind of event when no part of it does:
    [p] holds of every event that the parts of [run] emit. *)
Lemma emits_only_run p fuel w :
  (forall ev, is_complete ev = false -> p ev = true) ->
  emits_only p (run fuel w).
Proof.
  intros Hp. unfold run.
  apply emits_only_bind; [apply emits_only_setup; intros; now apply Hp|].
  intros [[[pack auxs] package_name] tgt].
  apply emits_only_bind; [apply emits_only_start_package; intros; now apply Hp|].
  intros _.
  apply emits_only_bind; [apply emits_only_polling; intros; now apply Hp|].
  intros _. apply emits_only_shutdown; intros; now apply Hp.
Qed.

(** C1: whenever the main program ends, its trace holds exactly one call
    of [server.complete], made last, whatever [run] did: returned,
    raised a [CuckooError] or another [Exception], was interrupted from
    the keyboard or died of another [BaseException]; and with a timeout
    of at least 1 and enough fuel for that many turns it does end. *)
Theorem complete_called_exactly_once :
  forall (fuel : nat) (w : Env),
    (forall t pending,
        main fuel w = Some (t, pending) ->
        count_events is_complete t = 1%nat /\
        exists t' success error,
          t = t' ++ [EvComplete success error (root w)]) /\
    (1 <= timeout (config w) <= Z.of_nat fuel -> main fuel w <> None).
Proof.
  intros fuel w. split.
  - intros t pending. unfold main.
    destruct (run fuel w) as [[t0 o]|] eqn:R; [|discriminate].
    destruct (report w o) as [[[t1 success] error] pend] eqn:E.
    intros [= <- _].
    assert (count_events is_complete t0 = 0%nat) as H0.
    { apply count_events_none.
      apply (emits_only_run (fun ev => negb (is_complete ev)) fuel w)
        with (o := o); [|exact R].
      now intros ev ->. }
    assert (count_events is_complete t1 = 0%nat) as H1.
    { unfold report, critical in E. destruct o as [b|e]; [now inversion E|].
      destruct (exn_class_of e), (is_Exception e), (log_handlers w);
        now inversion E. }
    split.
    + rewrite !count_events_app, H0, H1. reflexivity.
    + exists (t0 ++ t1), success, error. now rewrite app_assoc.
  - intros [H1 H2]. unfold main.
    pose proof (comes_back_run fuel w H1 H2) as R.
    destruct (run fuel w) as [[t0 o]|]; [|now elim R].
    destruct (report w o) as [[[t1 success] error] pend]. discriminate.
Qed.

Lemma complete_called_exactly_once_witness :
  (exists t pending,
      main 3 interrupted_env = Some (t, pending) /\
      count_events is_complete t = 1%nat) /\
  main 3 interrupted_env <> None.
Proof.
  split.
  - eexists _, _. split; [vm_compute; reflexivity|].
    refine (proj1 (proj1 (complete_called_exactly_once 3 interrupted_env)
                     _ _ _)).
    vm_compute. reflexivity.
  - apply (proj2 (complete_called_exactly_once 3 interrupted_env)).
    simpl. lia.
Defined.

(** The exit paths of one run each: the timeout, the package ending the
    analysis, an unknown package, a package without [start], a fault of
    the pause that nothing catches, and an interruption from the
    keyboard. *)
Example exit_paths :
  let last_event fuel w :=
    match main fuel w with
    | Some (t, _) => List.last t (EvSleep 0)
    | None => EvSleep 0
    end in
  last_event 3%nat (env_of (config_of (Some "apk") 3) no_fault
                      [package_of None always_alive] [sniffer] no_fault)
  = EvComplete true "" "/data/local/tmp" /\
  last_event 3%nat (env_of (config_of (Some "apk") 3) no_fault
                      [package_of None (done_at 1)] [sniffer] no_fault)
  = EvComplete true "" "/data/local/tmp" /\
  last_event 3%nat (env_of (config_of (Some "does_not_exist") 3)
                      (missing "modules.packages.does_not_exist")
                      [package_of None always_alive] [sniffer] no_fault)
  = EvComplete false
      ("Unable to import package " +:+ dq
       +:+ "modules.packages.does_not_exist" +:+ dq +:+ ", does not exist.")
      "/data/local/tmp" /\
  last_event 3%nat (env_of (config_of (Some "apk") 3) no_fault
                      [package_of (Some (Exn NotImplementedError ""))
                         always_alive] [sniffer] no_fault)
  = EvComplete false
      ("The package " +:+ dq +:+ "modules.packages.apk" +:+ dq
       +:+ " doesn't contain a run function.")
      "/data/local/tmp" /\
  last_event 3%nat (env_of (config_of (Some "apk") 3) no_fault
                      [package_of None always_alive] [sniffer]
                      (fails_at 1 (Exn OtherException
                                     "Interrupted system call")))
  = EvComplete false "Interrupted system call" "/data/local/tmp" /\
  last_event 3%nat interrupted_env
  = EvComplete false "Keyboard Interrupt" "/data/local/tmp".
Proof. vm_compute. repeat split. Qed.

End CompletionReporter.

(** * The polling loop *)

Section PollingLoop.
Import PyStr Analyzer Samples.
Variables (w : Env) (pack : Package) (package_name : string).

(** One turn in which [check()] returns true and the pause is quiet. *)
Lemma poll_alive i :
  package_check pack i = Returned true ->
  sleep_fault w i = None ->
  poll w pack package_name i
  = Some ([EvPackageCheck i; EvSleep 1], Returned Next).
Proof.
  intros Hc Hs. unfold poll, check, sleep, call. now rewrite Hc, Hs.
Qed.

(** One turn in which [check()] returns false. *)
Lemma poll_done i :
  package_check pack i = Returned false ->
  sleep_fault w i = None ->
  poll w pack package_name i
  = Some ([EvPackageCheck i;
           EvLog Info
             "The analysis package requested the termination of the analysis...";
           EvSleep 1], Returned Break).
Proof.
  intros Hc Hs. unfold poll, check, sleep, call. now rewrite Hc, Hs.
Qed.

Lemma count_check_quiet_turns n :
  forall i, count_events is_check (quiet_turns i n) = n.
Proof.
  induction n as [|n IH]; intros i; [reflexivity|].
  unfold count_events in *. cbn. now rewrite IH.
Qed.

(** [n] quiet turns, then whatever the loop does from there. *)
Lemma polling_quiet_turns n :
  forall i fuel t o,
    (forall j, i < j <= i + Z.of_nat n ->
               j <> timeout (config w) /\
               package_check pack j = Returned true /\
               sleep_fault w j = None) ->
    polling fuel w pack package_name (i + Z.of_nat n) = Some (t, o) ->
    polling (n + fuel) w pack package_name i
    = Some (quiet_turns i n ++ t, o).
Proof.
  induction n as [|n IH]; intros i fuel t o H E.
  - rewrite Z.add_0_r in E. exact E.
  - cbn [Nat.add polling quiet_turns].
    destruct (H (i + 1)) as (Ht & Hc & Hs); [lia|].
    apply Z.eqb_neq in Ht. rewrite Ht.
    rewrite (bind_returned _ _ _ _ (poll_alive (i + 1) Hc Hs)).
    rewrite (IH (i + 1) fuel t o); [reflexivity| |].
    + intros j Hj. apply H. lia.
    + rewrite <- E. f_equal. lia.
Qed.

(** C2, as the loop is written: with a timeout [N >= 1], quiet pauses
    and a [check()] that always returns true, the loop is left by the
    timeout in its turn [N], where the counter meets the timeout before
    [check()] is called: it returns the counter [N] after [N - 1] turns
    with a call of [check()]; and when [check()] returns false in turn
    [k < N], having returned true before, the loop is left in turn [k],
    after [k] calls. *)
Theorem polling_turns :
  forall (fuel : nat) (N : Z),
    timeout (config w) = N ->
    1 <= N ->
    (forall i, sleep_fault w i = None) ->
    ((forall i, package_check pack i = Returned true) ->
     (Z.to_nat N <= fuel)%nat ->
     polling fuel w pack package_name 0
     = Some (quiet_turns 0 (Z.to_nat (N - 1))
             ++ [EvLog Info "Analysis timeout hit, terminating analysis"],
             Returned N) /\
     count_events is_check
       (quiet_turns 0 (Z.to_nat (N - 1))
        ++ [EvLog Info "Analysis timeout hit, terminating analysis"])
     = Z.to_nat (N - 1)) /\
    (forall k : Z,
        1 <= k < N ->
        package_check pack k = Returned false ->
        (forall i, 1 <= i < k -> package_check pack i = Returned true) ->
        (Z.to_nat k <= fuel)%nat ->
        polling fuel w pack package_name 0
        = Some (quiet_turns 0 (Z.to_nat (k - 1))
                ++ [EvPackageCheck k;
                    EvLog Info
                      "The analysis package requested the termination of the analysis...";
                    EvSleep 1],
                Returned k)).
Proof.
  intros fuel N HN H1 Hs. split.
  - intros Hc Hfuel. split.
    + replace fuel with (Z.to_nat (N - 1) + S (fuel - Z.to_nat N))%nat by lia.
      apply polling_quiet_turns.
      * intros j Hj. repeat split; auto. lia.
      * cbn [polling]. rewrite Z2Nat.id by lia.
        replace (0 + (N - 1) + 1) with N by lia.
        rewrite HN, Z.eqb_refl. reflexivity.
    + rewrite count_events_app, count_check_quiet_turns. cbn. lia.
  - intros k Hk Hfalse Htrue Hfuel.
    replace fuel with (Z.to_nat (k - 1) + S (fuel - Z.to_nat k))%nat by lia.
    apply polling_quiet_turns.
    + intros j Hj. repeat split; auto; [lia|]. apply Htrue. lia.
    + cbn [polling]. rewrite Z2Nat.id by lia.
      replace (0 + (k - 1) + 1) with k by lia.
      destruct (Z.eqb_spec k (timeout (config w))) as [E|_]; [lia|].
      rewrite (bind_returned _ _ _ _ (poll_done k Hfalse (Hs k))).
      reflexivity.
Qed.

End PollingLoop.

(** C2, as stated, fails for the timeout 1: the first turn meets the
    timeout at once, and the loop is left without any turn that calls
    [check()], where the claim has exactly one. *)
Lemma timeout_one_polls_nothing :
  Analyzer.polling 1 Samples.brief_env
    (Samples.package_of None Samples.always_alive) "modules.packages.apk" 0
  = Some ([Analyzer.EvLog Analyzer.Info
             "Analysis timeout hit, terminating analysis"],
          Analyzer.Returned 1) /\
  ~ (exists fuel t o,
        Analyzer.polling fuel Samples.brief_env
          (Samples.package_of None Samples.always_alive)
          "modules.packages.apk" 0
        = Some (t, o) /\
        Analyzer.count_events Analyzer.is_check t = Z.to_nat 1).
Proof.
  split; [reflexivity|].
  intros (fuel & t & o & H & C).
  destruct fuel as [|fuel]; [discriminate|].
  cbn in H. injection H as <- <-. discriminate.
Qed.

(** * Faults of [check()] *)

Section CheckFaults.
Import PyStr Analyzer Samples.
Variables (w : Env) (pack : Package) (package_name : string).

Lemma poll_raised k e :
  package_check pack k = Raised e ->
  is_Exception e = true ->
  poll w pack package_name k
  = (emit (EvPackageCheck k) ;;
     log Warning (check_raised package_name e) ;;
     sleep w k ;;
     ret Next).
Proof.
  intros Hc He. unfold poll, check, sleep, call, try_except.
  rewrite Hc. cbn. rewrite He. now destruct (sleep_fault w k).
Qed.

Lemma poll_with_check_true k :
  poll w (with_check pack k (Returned true)) package_name k
  = (emit (EvPackageCheck k) ;; sleep w k ;; ret Next).
Proof.
  unfold poll, check, sleep, call, with_check. cbn.
  rewrite Z.eqb_refl. now destruct (sleep_fault w k).
Qed.

Lemma poll_with_check_other k o i :
  i <> k ->
  poll w (with_check pack k o) package_name i = poll w pack package_name i.
Proof.
  intros H. apply Z.eqb_neq in H.
  unfold poll, check, with_check. cbn. now rewrite H.
Qed.

(** One turn in which [check()] returns true or raises an [Exception],
    and the pause is quiet. *)
Lemma poll_contained i :
  match package_check pack i with
  | Returned alive => alive = true
  | Raised e => is_Exception e = true
  end ->
  sleep_fault w i = None ->
  poll w pack package_name i
  = Some (EvPackageCheck i :: check_log pack package_name i ++ [EvSleep 1],
          Returned Next).
Proof.
  intros Hc Hs. unfold poll, check, sleep, call, try_except, check_log.
  destruct (package_check pack i) as [alive|e].
  - subst alive. cbn. now rewrite Hs.
  - cbn. rewrite Hc. cbn. now rewrite Hs.
Qed.

(** [n] such turns, then whatever the loop does from there. *)
Lemma polling_contained_turns n :
  forall i fuel t o,
    (forall j, i < j <= i + Z.of_nat n ->
               j <> timeout (config w) /\
               match package_check pack j with
               | Returned alive => alive = true
               | Raised e => is_Exception e = true
               end /\
               sleep_fault w j = None) ->
    polling fuel w pack package_name (i + Z.of_nat n) = Some (t, o) ->
    polling (n + fuel) w pack package_name i
    = Some (contained_turns pack package_name i n ++ t, o).
Proof.
  induction n as [|n IH]; intros i fuel t o H E.
  - rewrite Z.add_0_r in E. exact E.
  - cbn [Nat.add polling contained_turns].
    destruct (H (i + 1)) as (Ht & Hc & Hs); [lia|].
    apply Z.eqb_neq in Ht. rewrite Ht.
    rewrite (bind_returned _ _ _ _ (poll_contained (i + 1) Hc Hs)).
    rewrite (IH (i + 1) fuel t o).
    + cbn [app]. now rewrite <- !app_assoc.
    + intros j Hj. apply H. lia.
    + rewrite <- E. f_equal. lia.
Qed.

Lemma contained_turns_checks n :
  forall i, count_events is_check (contained_turns pack package_name i n) = n.
Proof.
  induction n as [|n IH]; intros i; [reflexivity|].
  cbn [contained_turns].
  change (EvPackageCheck (i + 1)
          :: check_log pack package_name (i + 1)
          ++ EvSleep 1 :: contained_turns pack package_name (i + 1) n)
    with ([EvPackageCheck (i + 1)]
          ++ check_log pack package_name (i + 1)
          ++ [EvSleep 1] ++ contained_turns pack package_name (i + 1) n).
  rewrite !count_events_app, IH. unfold check_log.
  destruct (package_check pack (i + 1)); reflexivity.
Qed.

Lemma contained_turns_quiet n :
  forall i,
    without is_warning (contained_turns pack package_name i n)
    = quiet_turns i n.
Proof.
  induction n as [|n IH]; intros i; [reflexivity|].
  cbn [contained_turns quiet_turns]. unfold without in *.
  cbn [List.filter is_warning negb]. rewrite List.filter_app.
  cbn [List.filter is_warning negb]. rewrite IH. unfold check_log.
  destruct (package_check pack (i + 1)); reflexivity.
Qed.

Lemma contained_turns_warning n :
  forall i k e,
    i < k <= i + Z.of_nat n ->
    package_check pack k = Raised e ->
    In (EvLog Warning (check_raised package_name e))
       (contained_turns pack package_name i n).
Proof.
  induction n as [|n IH]; intros i k e Hk Hc; [lia|].
  cbn [contained_turns]. right. apply in_or_app.
  destruct (Z.eq_dec k (i + 1)) as [->|Hne].
  - left. unfold check_log. rewrite Hc. now left.
  - right. right. apply (IH (i + 1) k e); [lia | exact Hc].
Qed.

(** C6: when [check()] raises an [Exception] in turn [k], that turn is
    the call, one warning, the pause, and the signal to go on, as in
    the turn where [check()] returns true; the loop that reaches turn
    [k] then goes on with the turn after it; the whole loop, from any
    counter and with any fuel, ends the same way and with the same
    events, warnings apart, as the loop of the package whose [check()]
    returns true in turn [k]; and when every [check()] before the
    timeout [N] returns true or raises an [Exception], the loop is left
    by the timeout only, after [N - 1] turns with a call of [check()]
    each, the warning of turn [k] among its events. *)
Theorem check_fault_is_contained :
  forall (k : Z) (e : exn),
    package_check pack k = Raised e ->
    is_Exception e = true ->
    poll w pack package_name k
    = (emit (EvPackageCheck k) ;;
       log Warning (check_raised package_name e) ;;
       sleep w k ;;
       ret Next) /\
    poll w (with_check pack k (Returned true)) package_name k
    = (emit (EvPackageCheck k) ;; sleep w k ;; ret Next) /\
    (forall fuel : nat,
        k <> timeout (config w) ->
        polling (S fuel) w pack package_name (k - 1)
        = (emit (EvPackageCheck k) ;;
           log Warning (check_raised package_name e) ;;
           sleep w k ;;
           polling fuel w pack package_name k)) /\
    (forall (fuel : nat) (i : Z),
        same_but_warnings
          (polling fuel w pack package_name i)
          (polling fuel w (with_check pack k (Returned true))
             package_name i)) /\
    (forall (fuel : nat) (N : Z),
        timeout (config w) = N ->
        1 <= k < N ->
        (forall i, sleep_fault w i = None) ->
        (forall i, 1 <= i < N ->
                   match package_check pack i with
                   | Returned alive => alive = true
                   | Raised e' => is_Exception e' = true
                   end) ->
        (Z.to_nat N <= fuel)%nat ->
        polling fuel w pack package_name 0
        = Some (contained_turns pack package_name 0 (Z.to_nat (N - 1))
                ++ [EvLog Info "Analysis timeout hit, terminating analysis"],
                Returned N) /\
        count_events is_check
          (contained_turns pack package_name 0 (Z.to_nat (N - 1)))
        = Z.to_nat (N - 1) /\
        without is_warning
          (contained_turns pack package_name 0 (Z.to_nat (N - 1)))
        = quiet_turns 0 (Z.to_nat (N - 1)) /\
        In (EvLog Warning (check_raised package_name e))
           (contained_turns pack package_name 0 (Z.to_nat (N - 1)))).
Proof.
  intros k e Hc He.
  split; [now apply poll_raised|]. split; [apply poll_with_check_true|].
  split; [|split].
  - intros fuel Hk. cbn [polling].
    replace (k - 1 + 1) with k by lia.
    apply Z.eqb_neq in Hk. rewrite Hk.
    rewrite (poll_raised k e Hc He).
    unfold sleep, call. cbn [bind emit log ret app].
    destruct (sleep_fault w k); cbn [bind emit log ret raise app];
      [reflexivity|].
    now destruct (polling fuel w pack package_name k) as [[t o]|].
  - induction fuel as [|fuel IH]; intros i; cbn [polling]; [exact I|].
    destruct (i + 1 =? timeout (config w)); [apply same_but_warnings_refl|].
    apply same_but_warnings_bind.
    + destruct (Z.eq_dec (i + 1) k) as [->|Hne].
      * rewrite (poll_raised k e Hc He),
          poll_with_check_true.
        unfold sleep, call. now destruct (sleep_fault w k).
      * rewrite poll_with_check_other by exact Hne.
        apply same_but_warnings_refl.
    + intros []; [apply same_but_warnings_refl | apply IH].
  - intros fuel N HN Hk Hs Hall Hfuel. repeat split.
    + replace fuel with (Z.to_nat (N - 1) + S (fuel - Z.to_nat N))%nat by lia.
      apply polling_contained_turns.
      * intros j Hj. repeat split; [lia | apply Hall; lia | apply Hs].
      * cbn [polling]. rewrite Z2Nat.id by lia.
        replace (0 + (N - 1) + 1) with N by lia.
        rewrite HN, Z.eqb_refl. reflexivity.
    + apply contained_turns_checks.
    + apply contained_turns_quiet.
    + apply (contained_turns_warning _ 0 k e); [lia | exact Hc].
Qed.

End CheckFaults.

(** * Auxiliary modules: start and stop *)

Section AuxiliaryModules.
Import PyStr Analyzer Samples.

Lemma stopped_app t1 t2 : stopped (t1 ++ t2) = stopped t1 ++ stopped t2.
Proof.
  induction t1 as [|ev t1 IH]; [reflexivity|].
  destruct ev; cbn [app stopped]; rewrite IH; reflexivity.
Qed.

(** One [stop()] whose fault, if any, is an [Exception]. *)
Lemma stop_contained aux :
  contained (aux_stop aux) = true ->
  exists t,
    try_except (call (EvAuxStop (aux_name aux)) (aux_stop aux))
      (fun e =>
         if is_not_implemented e then Some (ret tt)
         else if is_Exception e then
           Some (log Warning ("Cannot terminate auxiliary module "
                              +:+ aux_name aux +:+ ": " +:+ exn_msg e))
         else None)
    = Some (EvAuxStop (aux_name aux) :: t, Returned tt) /\
    stopped t = [].
Proof.
  unfold contained, call. destruct (aux_stop aux) as [e|]; cbn.
  - intros He. rewrite He. destruct (is_not_implemented e); cbn; eauto.
  - eauto.
Qed.

Lemma stop_auxiliaries_contained aux_enabled :
  Forall (fun aux => contained (aux_stop aux) = true) aux_enabled ->
  exists t,
    stop_auxiliaries aux_enabled = Some (t, Returned tt) /\
    stopped t = map aux_name aux_enabled.
Proof.
  intros H.
  induction H as [|aux rest Haux Hrest IH]; cbn [stop_auxiliaries map].
  - exists []. split; reflexivity.
  - destruct (stop_contained aux Haux) as (t1 & E1 & S1).
    destruct IH as (t2 & E2 & S2).
    rewrite E1. cbn [bind]. rewrite E2.
    eexists. split; [reflexivity|].
    cbn [app stopped]. now rewrite stopped_app, S1, S2.
Qed.

Lemma shutdown_contained pack aux_enabled package_name :
  contained (package_finish pack) = true ->
  Forall (fun aux => contained (aux_stop aux) = true) aux_enabled ->
  exists t_stop,
    stopped t_stop = map aux_name aux_enabled /\
    shutdown pack aux_enabled package_name
    = Some (EvPackageFinish
            :: finish_log pack package_name ++ t_stop
               ++ [EvLog Info "Analysis completed"],
            Returned true).
Proof.
  intros Hfinish H.
  destruct (stop_auxiliaries_contained aux_enabled H) as (t & E & S).
  exists t. split; [exact S|].
  unfold shutdown, finish_package, finish_log, complete, call, contained in *.
  destruct (package_finish pack) as [e|]; cbn.
  - rewrite Hfinish. cbn. rewrite E. reflexivity.
  - rewrite E. reflexivity.
Qed.

(** C9: when every fault of a [stop()] is an [Exception], the shutdown
    loop returns, and [stop()] has been invoked on each element of
    [aux_enabled], once and in order, whichever of them raised; the
    same holds of the whole shutdown when the fault of [finish()], if
    any, is an [Exception]. *)
Theorem stop_reaches_every_auxiliary :
  forall aux_enabled : list Auxiliary,
    Forall (fun aux => contained (aux_stop aux) = true) aux_enabled ->
    (exists t,
        stop_auxiliaries aux_enabled = Some (t, Returned tt) /\
        stopped t = map aux_name aux_enabled) /\
    (forall pack package_name,
        contained (package_finish pack) = true ->
        exists t,
          shutdown pack aux_enabled package_name = Some (t, Returned true) /\
          stopped t = map aux_name aux_enabled).
Proof.
  intros aux_enabled H. split.
  - now apply stop_auxiliaries_contained.
  - intros pack package_name Hfinish.
    destruct (shutdown_contained pack aux_enabled package_name Hfinish H)
      as (t & S & E).
    eexists. split; [exact E|].
    cbn [stopped]. rewrite !stopped_app, S.
    unfold finish_log. destruct (package_finish pack); cbn; apply app_nil_r.
Qed.

Lemma stop_reaches_every_auxiliary_witness :
  exists t,
    stop_auxiliaries [broken; sniffer] = Some (t, Returned tt) /\
    stopped t = map aux_name [broken; sniffer].
Proof.
  apply (proj1 (stop_reaches_every_auxiliary [broken; sniffer]
                  ltac:(repeat constructor))).
Defined.

(** One turn of the start loop for a module whose constructor returns
    and whose [start()] returns or raises an [Exception]: the module is
    appended to [aux_enabled] in both cases. *)
Lemma start_auxiliary_recorded module aux0 aux_enabled :
  aux_init module = None ->
  contained (aux_start module) = true ->
  exists t,
    start_auxiliary module (aux0, aux_enabled)
    = Some (t, Returned (Some module, aux_enabled ++ [module])).
Proof.
  intros Hinit Hstart. unfold start_auxiliary, call, contained in *.
  rewrite Hinit. destruct (aux_start module) as [e|]; cbn.
  - rewrite Hstart. destruct (is_not_implemented e); cbn; eauto.
  - eauto.
Qed.

(** The start loop returns whatever the [start()] calls do, as long as
    the constructors return and the faults are [Exception]s, and it
    records every module, started or not. *)
Lemma start_auxiliaries_records_all modules :
  forall aux0 aux_enabled,
    Forall (fun m => aux_init m = None /\ contained (aux_start m) = true)
           modules ->
    exists t,
      start_auxiliaries modules (aux0, aux_enabled)
      = Some (t, Returned (aux_enabled ++ modules)).
Proof.
  induction modules as [|module rest IH]; intros aux0 aux_enabled H;
    cbn [start_auxiliaries].
  - exists []. now rewrite app_nil_r.
  - inversion H as [|? ? [Hinit Hstart] Hrest]; subst.
    destruct (start_auxiliary_recorded module aux0 aux_enabled Hinit Hstart)
      as (t1 & E1).
    destruct (IH (Some module) (aux_enabled ++ [module]) Hrest) as (t2 & E2).
    rewrite E1. cbn [bind]. rewrite E2, <- app_assoc. eauto.
Qed.

(** C3, on the module [broken] whose [start()] raises
    [NotImplementedError]: the fault is logged and the loop returns,
    but the module is logged as started and recorded in [aux_enabled],
    and a run with it invokes its [stop()] at shutdown. *)
Theorem failed_start_is_recorded :
  start_auxiliaries [broken] (None, [])
  = Some ([EvAuxInit "Broken"; EvAuxStart "Broken";
           EvLog Warning "Auxiliary module Broken was not implemented";
           EvLog Info "Started auxiliary module Broken"],
          Returned [broken]) /\
  aux_start broken = Some (Exn NotImplementedError "") /\
  match main 3 (env_of (config_of (Some "apk") 3) no_fault
                  [package_of None always_alive] [sniffer; broken] no_fault)
  with
  | Some (t, _) => stopped t = ["Sniffer"; "Broken"]
  | None => False
  end.
Proof. vm_compute. repeat split. Qed.

End AuxiliaryModules.

(** * How a run ends *)

Section RunOutcomes.
Import PyStr Analyzer Samples.

Lemma start_package_returns pack package_name tgt :
  package_start pack tgt = None ->
  start_package pack package_name tgt
  = Some ([EvPackageStart tgt], Returned tt).
Proof. intros H. unfold start_package, call. now rewrite H. Qed.

Lemma start_package_raises pack package_name tgt e :
  package_start pack tgt = Some e ->
  exists e',
    start_package pack package_name tgt
    = Some ([EvPackageStart tgt], Raised e') /\
    (is_Exception e = true ->
     e' = Exn CuckooError (start_error package_name e)).
Proof.
  intros H. unfold start_package, call, try_except.
  rewrite H. cbn [emit bind raise app].
  unfold is_Exception, start_error.
  destruct (exn_class_of e); cbn [bind raise app];
    eexists; (split; [reflexivity|]); first [discriminate | reflexivity].
Qed.

(** A run that cannot start its package stops there. *)
Lemma run_start_raises fuel w t0 pack auxs package_name tgt e :
  setup w = Some (t0, Returned (pack, auxs, package_name, tgt)) ->
  package_start pack tgt = Some e ->
  exists e',
    run fuel w = Some (t0 ++ [EvPackageStart tgt], Raised e') /\
    (is_Exception e = true ->
     e' = Exn CuckooError (start_error package_name e)).
Proof.
  intros Hsetup Hstart.
  destruct (start_package_raises pack package_name tgt e Hstart)
    as (e' & E & He').
  exists e'. split; [|exact He'].
  unfold run. rewrite Hsetup. cbn [bind]. now rewrite E.
Qed.

(** What [__main__] does with a [CuckooError]. *)
Lemma main_cuckoo_error fuel w t msg :
  run fuel w = Some (t, Raised (Exn CuckooError msg)) ->
  main fuel w
  = Some ((t ++ [critical w msg]) ++ [EvComplete false msg (root w)],
          complete_fault w).
Proof.
  intros H. unfold main. rewrite H. cbn.
  rewrite <- app_assoc. now destruct (complete_fault w).
Qed.

(** The three messages differ whatever the package path and the texts
    of the exceptions. *)
Lemma start_messages_distinct package_name e1 e2 :
  no_run_function package_name <> start_raised_error package_name e1 /\
  no_run_function package_name <> start_unhandled package_name e2 /\
  start_raised_error package_name e1 <> start_unhandled package_name e2.
Proof.
  unfold no_run_function, start_raised_error, start_unhandled.
  repeat split; intros H; do 4 apply append_inv_head in H;
    cbn in H; discriminate.
Qed.

(** C5: when the run has reached the start of the package and
    [start] raises an [Exception], the run raises a [CuckooError] right
    after that call, and the main program reports failure with its
    message: one text for [NotImplementedError], one for
    [CuckooPackageError], one for any other class; the three texts
    are pairwise different. *)
Theorem package_start_failures :
  forall (fuel : nat) (w : Env) t0 pack auxs package_name tgt (e : exn),
    setup w = Some (t0, Returned (pack, auxs, package_name, tgt)) ->
    package_start pack tgt = Some e ->
    is_Exception e = true ->
    run fuel w
    = Some (t0 ++ [EvPackageStart tgt],
            Raised (Exn CuckooError (start_error package_name e))) /\
    main fuel w
    = Some (((t0 ++ [EvPackageStart tgt])
             ++ [critical w (start_error package_name e)])
            ++ [EvComplete false (start_error package_name e) (root w)],
            complete_fault w) /\
    start_error package_name e
    = match exn_class_of e with
      | NotImplementedError => no_run_function package_name
      | CuckooPackageError => start_raised_error package_name e
      | _ => start_unhandled package_name e
      end /\
    forall e1 e2 : exn,
      no_run_function package_name <> start_raised_error package_name e1 /\
      no_run_function package_name <> start_unhandled package_name e2 /\
      start_raised_error package_name e1 <> start_unhandled package_name e2.
Proof.
  intros fuel w t0 pack auxs package_name tgt e Hsetup Hstart He.
  destruct (run_start_raises fuel w t0 pack auxs package_name tgt e
              Hsetup Hstart) as (e' & R & He').
  rewrite (He' He) in R.
  split; [exact R|]. split; [now apply main_cuckoo_error|].
  split; [reflexivity|]. intros e1 e2. apply start_messages_distinct.
Qed.

Lemma setup_import_fails w t_sel name e :
  prepare_fault w = None ->
  select_package w = Some (t_sel, Returned name) ->
  import_module w ("modules.packages." +:+ name) = Some e ->
  exn_class_of e = ImportError ->
  exists t_log,
    setup w
    = Some (t_log ++ t_sel ++ [EvImport ("modules.packages." +:+ name)],
            Raised (Exn CuckooError
                      (unable_to_import ("modules.packages." +:+ name)))) /\
    count_events is_aux_init t_log = 0%nat /\
    count_events is_aux_start t_log = 0%nat.
Proof.
  intros Hprep Hsel Himp Hcls.
  unfold setup, prepare. rewrite Hprep.
  cbn [bind ret log emit app]. rewrite Hsel.
  cbn [bind ret log emit app].
  unfold import_package, import, call, try_except. rewrite Himp.
  cbn [bind ret log emit app raise]. rewrite Hcls.
  cbn [bind ret log emit app raise].
  eexists [_; _; _]. repeat split.
Qed.

Lemma contains_package_name name :
  contains name (unable_to_import ("modules.packages." +:+ name)) = true.
Proof.
  change (unable_to_import ("modules.packages." +:+ name))
    with (("Unable to import package " +:+ dq +:+ "modules.packages.")
          +:+ name +:+ (dq +:+ ", does not exist.")).
  apply contains_append.
Qed.

(** C4: when the package path built from the selected name cannot be
    imported, the main program ends with one call of [server.complete]
    whose flag is false and whose message contains the name, and the
    trace before it holds no construction and no [start()] of an
    auxiliary module. *)
Theorem unknown_package_aborts :
  forall (fuel : nat) (w : Env) (t_sel : list event) (name : string)
         (e : exn),
    prepare_fault w = None ->
    select_package w = Some (t_sel, Returned name) ->
    import_module w ("modules.packages." +:+ name) = Some e ->
    exn_class_of e = ImportError ->
    exists t msg,
      main fuel w
      = Some (t ++ [EvComplete false msg (root w)], complete_fault w) /\
      contains name msg = true /\
      count_events is_aux_init t = 0%nat /\
      count_events is_aux_start t = 0%nat.
Proof.
  intros fuel w t_sel name e Hprep Hsel Himp Hcls.
  destruct (setup_import_fails w t_sel name e Hprep Hsel Himp Hcls)
    as (t_log & Hsetup & Hinit & Hstart).
  eexists _, _. split; [|split; [apply contains_package_name|]].
  - apply main_cuckoo_error. unfold run.
    now rewrite (bind_raised _ _ _ _ Hsetup).
  - assert (forall p, (forall lvl msg, p (EvLog lvl msg) = false) ->
                      (forall n, p (EvImport n) = false) ->
                      (forall msg, p (EvStderr msg) = false) ->
                      count_events p t_log = 0%nat ->
                      count_events p
                        ((t_log ++ t_sel
                          ++ [EvImport ("modules.packages." +:+ name)])
                         ++ [critical w (unable_to_import
                                           ("modules.packages." +:+ name))])
                      = 0%nat) as Hcount.
    { intros p Hlog Himport Hstderr Hp.
      rewrite !count_events_app, Hp.
      rewrite (count_events_none p t_sel).
      - unfold count_events, critical. cbn [List.filter].
        rewrite Himport. destruct (log_handlers w);
          now rewrite ?Hlog, ?Hstderr.
      - apply (emits_only_select_package (fun ev => negb (p ev))) in Hsel;
          [exact Hsel|]. intros lvl msg. now rewrite Hlog. }
    split; apply Hcount; auto.
Qed.

(** The shutdown begins with the call of [finish()] and holds no other. *)
Lemma shutdown_shape pack aux_enabled package_name :
  exists t o,
    shutdown pack aux_enabled package_name = Some (EvPackageFinish :: t, o) /\
    count_events is_finish t = 0%nat.
Proof.
  unfold shutdown.
  set (rest := (stop_auxiliaries aux_enabled ;; complete ;; ret true)).
  assert (emits_only (fun ev => negb (is_finish ev)) rest) as Hrest.
  { apply emits_only_bind;
      [now apply emits_only_stop_auxiliaries|intros _].
    apply emits_only_bind; [now apply emits_only_log|intros _].
    apply emits_only_ret. }
  assert (comes_back rest) as Hback.
  { apply comes_back_bind; [apply comes_back_stop_auxiliaries|intros _].
    apply comes_back_bind; [apply comes_back_log|intros _].
    apply comes_back_ret. }
  destruct rest as [[t o]|]; [|now elim Hback].
  specialize (Hrest t o eq_refl). apply count_events_none in Hrest.
  unfold finish_package, call.
  destruct (package_finish pack) as [e|]; cbn; [|eauto].
  destruct (is_Exception e); cbn; eauto.
Qed.

(** X22: the loop returns its counter only by one of its two [break]s:
    the counter it returns is the timeout, the timeout being logged
    last, or it is the turn in which [check()] returned false. *)
Lemma polling_returned fuel w pack package_name :
  forall i t n,
    polling fuel w pack package_name i = Some (t, Returned n) ->
    (n = timeout (config w) /\
     exists t',
       t = t' ++ [EvLog Info "Analysis timeout hit, terminating analysis"]) \/
    package_check pack n = Returned false.
Proof.
  induction fuel as [|fuel IH]; intros i t n; cbn [polling]; [discriminate|].
  destruct (Z.eqb_spec (i + 1) (timeout (config w))) as [E|E].
  - intros [= <- <-]. left. split; [exact E|]. now exists [].
  - intros H. apply bind_inv in H as [(e & _ & [=])|(t1 & s & t2 & H1 & H2 & ->)].
    destruct s.
    + injection H2 as <- <-. right.
      unfold poll, check in H1.
      destruct (package_check pack (i + 1)) as [[|]|e]; [|reflexivity|].
      * cbn in H1. now destruct (sleep_fault w (i + 1)).
      * cbn in H1.
        destruct (is_Exception e); cbn in H1;
          now destruct (sleep_fault w (i + 1)).
    + destruct (IH _ _ _ H2) as [(-> & t' & ->)|Hc]; [left|now right].
      split; [reflexivity|]. exists (t1 ++ t'). now rewrite app_assoc.
Qed.

(** C8: in a run that has reached the start of the package, when
    [start] returns and the loop is left by one of its two [break]s,
    [finish()] is invoked once, after the loop and before any [stop()];
    when its fault is an [Exception] (and those of the [stop()] calls
    too) a warning is logged, the auxiliary modules are stopped and
    the run returns true; and when [start] raises, the run stops there
    and [finish()] is not invoked. *)
Theorem finish_once_before_auxiliary_shutdown :
  forall (fuel : nat) (w : Env) t0 pack auxs package_name tgt,
    setup w = Some (t0, Returned (pack, auxs, package_name, tgt)) ->
    (package_start pack tgt = None ->
     forall t1 n,
       polling fuel w pack package_name 0 = Some (t1, Returned n) ->
       exists t2 o,
         run fuel w
         = Some ((t0 ++ [EvPackageStart tgt] ++ t1) ++ EvPackageFinish :: t2,
                 o) /\
         count_events is_finish
           ((t0 ++ [EvPackageStart tgt] ++ t1) ++ EvPackageFinish :: t2)
         = 1%nat /\
         count_events is_aux_stop (t0 ++ [EvPackageStart tgt] ++ t1) = 0%nat /\
         (contained (package_finish pack) = true ->
          Forall (fun aux => contained (aux_stop aux) = true) auxs ->
          o = Returned true /\
          exists t_stop,
            t2 = finish_log pack package_name ++ t_stop
                 ++ [EvLog Info "Analysis completed"] /\
            stopped t_stop = map aux_name auxs)) /\
    (forall e,
        package_start pack tgt = Some e ->
        exists e',
          run fuel w = Some (t0 ++ [EvPackageStart tgt], Raised e') /\
          count_events is_finish (t0 ++ [EvPackageStart tgt]) = 0%nat).
Proof.
  intros fuel w t0 pack auxs package_name tgt Hsetup.
  assert (count_events is_finish t0 = 0%nat) as Hf0.
  { apply count_events_none.
    eapply (emits_only_setup (fun ev => negb (is_finish ev)));
      [intros; reflexivity .. | exact Hsetup]. }
  assert (count_events is_aux_stop t0 = 0%nat) as Hs0.
  { apply count_events_none.
    eapply (emits_only_setup (fun ev => negb (is_aux_stop ev)));
      [intros; reflexivity .. | exact Hsetup]. }
  split.
  - intros Hstart t1 n Hpoll.
    destruct (shutdown_shape pack auxs package_name) as (t2 & o & E2 & Hf2).
    assert (count_events is_finish t1 = 0%nat) as Hf1.
    { apply count_events_none.
      eapply (emits_only_polling (fun ev => negb (is_finish ev)));
        [intros; reflexivity .. | exact Hpoll]. }
    assert (count_events is_aux_stop t1 = 0%nat) as Hs1.
    { apply count_events_none.
      eapply (emits_only_polling (fun ev => negb (is_aux_stop ev)));
        [intros; reflexivity .. | exact Hpoll]. }
    exists t2, o. split; [|split; [|split]].
    + unfold run. rewrite Hsetup. cbn [bind].
      rewrite (start_package_returns _ _ _ Hstart). cbn [bind].
      rewrite Hpoll. cbn [bind]. rewrite E2.
      now rewrite <- !app_assoc.
    + change (EvPackageFinish :: t2) with ([EvPackageFinish] ++ t2).
      rewrite !count_events_app, Hf0, Hf1, Hf2. reflexivity.
    + rewrite !count_events_app, Hs0, Hs1. reflexivity.
    + intros Hfinish Hstops.
      destruct (shutdown_contained pack auxs package_name Hfinish Hstops)
        as (t_stop & S & E).
      rewrite E in E2. injection E2 as <- <-. eauto.
  - intros e Hstart.
    destruct (run_start_raises fuel w t0 pack auxs package_name tgt e
                Hsetup Hstart) as (e' & R & _).
    exists e'. split; [exact R|].
    now rewrite count_events_app, Hf0.
Qed.

(** X23: when the loop itself raises (an interruption during the
    pause, a [BaseException] out of [check()]), the run stops there
    with that exception: the shutdown is skipped, [finish()] included. *)
Lemma run_polling_raises fuel w t0 pack auxs package_name tgt t1 e :
  setup w = Some (t0, Returned (pack, auxs, package_name, tgt)) ->
  package_start pack tgt = None ->
  polling fuel w pack package_name 0 = Some (t1, Raised e) ->
  run fuel w = Some (t0 ++ [EvPackageStart tgt] ++ t1, Raised e) /\
  count_events is_finish (t0 ++ [EvPackageStart tgt] ++ t1) = 0%nat.
Proof.
  intros Hsetup Hstart Hpoll. split.
  - unfold run. rewrite Hsetup. cbn [bind].
    rewrite (start_package_returns _ _ _ Hstart). cbn [bind].
    now rewrite Hpoll.
  - rewrite !count_events_app.
    rewrite (count_events_none is_finish t0), (count_events_none is_finish t1);
      [reflexivity| |].
    + eapply (emits_only_polling (fun ev => negb (is_finish ev)));
        [intros; reflexivity .. | exact Hpoll].
    + eapply (emits_only_setup (fun ev => negb (is_finish ev)));
        [intros; reflexivity .. | exact Hsetup].
Qed.

End RunOutcomes.

(** * The theorems at work on the sample environments *)

Section Witnesses.
Import PyStr Analyzer Samples.

Lemma polling_turns_witness :
  polling 3 (quiet_env (package_of None always_alive))
    (package_of None always_alive) "modules.packages.apk" 0
  = Some (quiet_turns 0 (Z.to_nat (3 - 1))
          ++ [EvLog Info "Analysis timeout hit, terminating analysis"],
          Returned 3) /\
  polling 3 (quiet_env (package_of None (done_at 2)))
    (package_of None (done_at 2)) "modules.packages.apk" 0
  = Some (quiet_turns 0 (Z.to_nat (2 - 1))
          ++ [EvPackageCheck 2;
              EvLog Info
                "The analysis package requested the termination of the analysis...";
              EvSleep 1],
          Returned 2).
Proof.
  split.
  - apply (proj1 (polling_turns (quiet_env (package_of None always_alive))
                    (package_of None always_alive) "modules.packages.apk"
                    3 3 eq_refl ltac:(lia) (fun _ => eq_refl))
                  (fun _ => eq_refl) ltac:(simpl; lia)).
  - apply (proj2 (polling_turns (quiet_env (package_of None (done_at 2)))
                    (package_of None (done_at 2)) "modules.packages.apk"
                    3 3 eq_refl ltac:(lia) (fun _ => eq_refl)) 2).
    + lia.
    + reflexivity.
    + intros i Hi. assert (i = 1) as -> by lia. reflexivity.
    + simpl. lia.
Defined.

Lemma check_fault_is_contained_witness :
  polling 4
    (long_env (package_of None (raising_at 2 (Exn OtherException "boom"))))
    (package_of None (raising_at 2 (Exn OtherException "boom")))
    "modules.packages.apk" 0
  = Some ([EvPackageCheck 1; EvSleep 1;
           EvPackageCheck 2;
           EvLog Warning
             (check_raised "modules.packages.apk"
                (Exn OtherException "boom"));
           EvSleep 1;
           EvPackageCheck 3; EvSleep 1;
           EvLog Info "Analysis timeout hit, terminating analysis"],
          Returned 4).
Proof.
  refine (proj1 (proj2 (proj2 (proj2 (proj2
            (check_fault_is_contained
               (long_env (package_of None
                            (raising_at 2 (Exn OtherException "boom"))))
               (package_of None (raising_at 2 (Exn OtherException "boom")))
               "modules.packages.apk" 2 (Exn OtherException "boom")
               eq_refl eq_refl)))) 4%nat 4 eq_refl _ _ _ _)).
  - lia.
  - reflexivity.
  - intros i Hi. assert (i = 1 \/ i = 2 \/ i = 3) as [->|[->| ->]] by lia;
      reflexivity.
  - vm_compute. lia.
Defined.

Lemma unknown_package_aborts_witness :
  exists t msg,
    main 3 unknown_package_env
    = Some (t ++ [EvComplete false msg (root unknown_package_env)],
            complete_fault unknown_package_env) /\
    PyStr.contains "does_not_exist" msg = true /\
    count_events is_aux_init t = 0%nat /\
    count_events is_aux_start t = 0%nat.
Proof.
  apply (unknown_package_aborts 3 unknown_package_env []
           "does_not_exist"
           (Exn ImportError
              "No module named modules.packages.does_not_exist"));
    reflexivity.
Defined.

Lemma package_start_failures_witness :
  exists t0,
    setup (quiet_env (package_of (Some (Exn NotImplementedError ""))
                        always_alive))
    = Some (t0, Returned (package_of (Some (Exn NotImplementedError ""))
                            always_alive,
                          [sniffer], "modules.packages.apk",
                          "/data/local/tmp/sample.apk")) /\
    run 3 (quiet_env (package_of (Some (Exn NotImplementedError ""))
                        always_alive))
    = Some (t0 ++ [EvPackageStart "/data/local/tmp/sample.apk"],
            Raised (Exn CuckooError
                      (start_error "modules.packages.apk"
                         (Exn NotImplementedError "")))).
Proof.
  eexists. split; [vm_compute; reflexivity|].
  refine (proj1 (package_start_failures 3 _ _
                   (package_of (Some (Exn NotImplementedError ""))
                      always_alive)
                   [sniffer] "modules.packages.apk"
                   "/data/local/tmp/sample.apk"
                   (Exn NotImplementedError "") _ eq_refl eq_refl)).
  vm_compute. reflexivity.
Defined.

Lemma finish_once_before_auxiliary_shutdown_witness :
  (exists t0 t1 t2,
      run 3 (quiet_env (package_of None (done_at 2)))
      = Some ((t0 ++ [EvPackageStart "/data/local/tmp/sample.apk"] ++ t1)
              ++ EvPackageFinish :: t2, Returned true) /\
      stopped t2 = ["Sniffer"]) /\
  (exists t0 e',
      run 3 (quiet_env (package_of (Some (Exn NotImplementedError ""))
                          always_alive))
      = Some (t0 ++ [EvPackageStart "/data/local/tmp/sample.apk"],
              Raised e') /\
      count_events is_finish
        (t0 ++ [EvPackageStart "/data/local/tmp/sample.apk"]) = 0%nat).
Proof.
  split.
  - assert (exists t0,
               setup (quiet_env (package_of None (done_at 2)))
               = Some (t0, Returned (package_of None (done_at 2), [sniffer],
                                     "modules.packages.apk",
                                     "/data/local/tmp/sample.apk")))
      as [t0 Hsetup] by (eexists; vm_compute; reflexivity).
    assert (exists t1,
               polling 3 (quiet_env (package_of None (done_at 2)))
                 (package_of None (done_at 2)) "modules.packages.apk" 0
               = Some (t1, Returned 2))
      as [t1 Hpoll] by (eexists; vm_compute; reflexivity).
    destruct (proj1 (finish_once_before_auxiliary_shutdown 3 _ _ _ _ _ _
                       Hsetup) eq_refl t1 2 Hpoll)
      as (t2 & o & R & _ & _ & Hc).
    destruct (Hc eq_refl ltac:(repeat constructor))
      as (-> & t_stop & -> & S).
    exists t0, t1. eexists. split; [exact R|].
    rewrite !stopped_app, S. reflexivity.
  - assert (exists t0,
               setup (quiet_env (package_of (Some (Exn NotImplementedError ""))
                                   always_alive))
               = Some (t0, Returned (package_of
                                       (Some (Exn NotImplementedError ""))
                                       always_alive, [sniffer],
                                     "modules.packages.apk",
                                     "/data/local/tmp/sample.apk")))
      as [t0 Hsetup] by (eexists; vm_compute; reflexivity).
    destruct (proj2 (finish_once_before_auxiliary_shutdown 3 _ _ _ _ _ _
                       Hsetup) (Exn NotImplementedError "") eq_refl)
      as (e' & R & C).
    exists t0, e'. now split.
Defined.

End Witnesses.

(** * Selection of the package: the other ways it fails *)

Section Selection.
Import PyStr Analyzer Samples Observe.

(** X1: when no package is named at submission and [choose_package]
    finds none for the file, the main program logs the three lines of
    greeting and the search, reports the failure with the file type in
    the message, and does nothing else: no import, no plugin call. *)
Theorem no_package_available :
  forall (fuel : nat) (w : Env),
    prepare_fault w = None ->
    falsy (package (config w)) = true ->
    category (config w) = "file" ->
    falsy (choose_package w (file_type (config w)) (file_name (config w)))
    = true ->
    main fuel w
    = Some ([EvLog Info ("Starting analyzer from: " +:+ cwd w);
             EvLog Info ("Storing results at: " +:+ root w);
             EvLog Info ("Target is: "
                         +:+ path_join "/data/local/tmp"
                               (file_name (config w)));
             EvLog Info
               "No analysis package specified, trying to detect it automagically";
             critical w ("No valid package available for file type: "
                         +:+ file_type (config w));
             EvComplete false
               ("No valid package available for file type: "
                +:+ file_type (config w))
               (root w)],
            complete_fault w).
Proof.
  intros fuel w Hprep Hpkg Hcat Hchoose.
  assert (select_package w
          = Some ([EvLog Info
                     "No analysis package specified, trying to detect it automagically"],
                  Raised (Exn CuckooError
                            ("No valid package available for file type: "
                             +:+ file_type (config w))))) as Hsel.
  { unfold select_package. rewrite Hcat. cbn [String.eqb].
    change (("file" =? "file")%string) with true. cbv iota.
    destruct (package (config w)) as [[|c p]|]; try discriminate;
      destruct (choose_package w _ _) as [[|c' p']|]; try discriminate;
      reflexivity. }
  rewrite (main_cuckoo_error fuel w
             [EvLog Info ("Starting analyzer from: " +:+ cwd w);
              EvLog Info ("Storing results at: " +:+ root w);
              EvLog Info ("Target is: "
                          +:+ path_join "/data/local/tmp"
                                (file_name (config w)));
              EvLog Info
                "No analysis package specified, trying to detect it automagically"]
             ("No valid package available for file type: "
              +:+ file_type (config w))); [reflexivity|].
  unfold run, setup, prepare. rewrite Hprep, Hcat.
  change (("file" =? "file")%string) with true. cbv iota.
  cbn [bind ret log emit app]. rewrite Hsel. reflexivity.
Qed.

Lemma no_package_available_witness :
  main 3 (env_of_choice None)
  = Some ([EvLog Info "Starting analyzer from: /data/local/tmp/analyzer";
           EvLog Info "Storing results at: /data/local/tmp";
           EvLog Info "Target is: /data/local/tmp/sample.apk";
           EvLog Info
             "No analysis package specified, trying to detect it automagically";
           EvLog Critical
             "No valid package available for file type: Zip archive data";
           EvComplete false
             "No valid package available for file type: Zip archive data"
             "/data/local/tmp"],
          None).
Proof.
  apply (no_package_available 3 (env_of_choice None));
    reflexivity.
Defined.

Lemma setup_no_subclass w t_sel name :
  prepare_fault w = None ->
  select_package w = Some (t_sel, Returned name) ->
  import_module w ("modules.packages." +:+ name) = None ->
  package_subclasses w = [] ->
  exists t_log,
    setup w
    = Some (t_log ++ t_sel ++ [EvImport ("modules.packages." +:+ name)],
            Raised (Exn CuckooError
                      (unable_to_select ("modules.packages." +:+ name)))) /\
    forallb (fun ev => match ev with EvLog _ _ => true | _ => false end)
      t_log = true.
Proof.
  intros Hprep Hsel Himp Hsub.
  unfold setup, prepare. rewrite Hprep.
  cbn [bind ret log emit app]. rewrite Hsel.
  cbn [bind ret log emit app].
  unfold import_package, import, call, try_except. rewrite Himp.
  cbn [bind ret log emit app raise].
  unfold select_package_class. rewrite Hsub.
  cbn [bind ret log emit app raise].
  eexists [_; _; _]. split; reflexivity.
Qed.

(** X2: when the module of the package imports but leaves no subclass
    of [Package], the main program reports the failure with the name in
    the message; the options were not parsed for a constructor, and no
    auxiliary module was constructed or started: the trace before the
    call holds log records and that one import only. *)
Theorem no_package_class_aborts :
  forall (fuel : nat) (w : Env) (t_sel : list event) (name : string),
    prepare_fault w = None ->
    select_package w = Some (t_sel, Returned name) ->
    import_module w ("modules.packages." +:+ name) = None ->
    package_subclasses w = [] ->
    exists t,
      main fuel w
      = Some (t ++ [EvComplete false
                      (unable_to_select ("modules.packages." +:+ name))
                      (root w)],
              complete_fault w) /\
      PyStr.contains name (unable_to_select ("modules.packages." +:+ name))
      = true /\
      imported t = ["modules.packages." +:+ name] /\
      forallb (fun ev => match ev with
                         | EvLog _ _ | EvStderr _ | EvImport _ => true
                         | _ => false
                         end) t = true.
Proof.
  intros fuel w t_sel name Hprep Hsel Himp Hsub.
  destruct (setup_no_subclass w t_sel name Hprep Hsel Himp Hsub)
    as (t_log & Hsetup & Hlog).
  assert (forallb (fun ev => match ev with EvLog _ _ => true | _ => false end)
            t_sel = true) as Hsel_log.
  { eapply (emits_only_select_package
              (fun ev => match ev with EvLog _ _ => true | _ => false end));
      [reflexivity | exact Hsel]. }
  assert (forall t : list event,
             forallb (fun ev => match ev with EvLog _ _ => true | _ => false end)
               t = true ->
             imported t = [] /\
             forallb (fun ev => match ev with
                                | EvLog _ _ | EvStderr _ | EvImport _ => true
                                | _ => false
                                end) t = true) as Hlogs.
  { induction t as [|ev t IH]; [now split|].
    cbn [forallb]. intros H. apply andb_true_iff in H as [H1 H2].
    destruct ev; try discriminate. cbn. now apply IH. }
  assert (forall t1 t2 : list event,
             imported (t1 ++ t2) = imported t1 ++ imported t2) as Happ.
  { induction t1 as [|ev t1 IH]; intros t2; [reflexivity|].
    destruct ev; cbn [app imported]; now rewrite IH. }
  destruct (Hlogs _ Hlog) as [I1 F1]. destruct (Hlogs _ Hsel_log) as [I2 F2].
  eexists. split; [|split; [|split]].
  - apply main_cuckoo_error. unfold run.
    now rewrite (bind_raised _ _ _ _ Hsetup).
  - change (unable_to_select ("modules.packages." +:+ name))
      with (("Unable to select package class (package="
             +:+ "modules.packages.")
            +:+ name +:+ "): list index out of range").
    apply contains_append.
  - rewrite !Happ, I1, I2. cbn.
    unfold critical. now destruct (log_handlers w).
  - rewrite !forallb_app, F1, F2. cbn.
    unfold critical. now destruct (log_handlers w).
Qed.

Lemma no_package_class_aborts_witness :
  exists t,
    main 3 no_subclass_env
    = Some (t ++ [EvComplete false
                    (unable_to_select ("modules.packages." +:+ "apk"))
                    (root no_subclass_env)],
            complete_fault no_subclass_env) /\
    PyStr.contains "apk" (unable_to_select ("modules.packages." +:+ "apk"))
    = true /\
    imported t = ["modules.packages." +:+ "apk"] /\
    forallb (fun ev => match ev with
                       | EvLog _ _ | EvStderr _ | EvImport _ => true
                       | _ => false
                       end) t = true.
Proof.
  apply (no_package_class_aborts 3 no_subclass_env [] "apk"); reflexivity.
Defined.

End Selection.

(** * Auxiliary modules: imports and constructors *)

Section AuxiliaryEdges.
Import PyStr Analyzer Samples Observe.

Lemma imported_app t1 t2 : imported (t1 ++ t2) = imported t1 ++ imported t2.
Proof.
  induction t1 as [|ev t1 IH]; [reflexivity|].
  destruct ev; cbn [app imported]; now rewrite IH.
Qed.

(** One import of the auxiliary namespace whose fault, if any, is an
    [ImportError]. *)
Lemma import_auxiliary_contained w name :
  (forall e, import_module w name = Some e -> exn_class_of e = ImportError) ->
  exists t,
    try_except (import w name)
      (fun e =>
         match exn_class_of e with
         | ImportError =>
             Some (log Warning
                     ("Unable to import the auxiliary module " +:+ dq
                      +:+ name +:+ dq +:+ ": " +:+ exn_msg e))
         | _ => None
         end)
    = Some (EvImport name :: t, Returned tt) /\
    imported t = [] /\
    count_events is_warning t
    = (if import_fails w name then 1 else 0)%nat.
Proof.
  intros H. unfold import, call, try_except, import_fails.
  destruct (import_module w name) as [e|]; cbn [emit bind raise ret app].
  - rewrite (H e eq_refl). cbn. eauto.
  - eauto.
Qed.

(** X3: when the only faults of the imports are [ImportError]s, the
    import loop over the auxiliary namespace returns; it has imported
    every entry that is not a package, once and in order, skipped the
    packages, and logged one warning per module that failed to import. *)
Theorem import_auxiliaries_best_effort :
  forall (w : Env) (modules : list (string * bool)),
    (forall name e,
        import_module w name = Some e -> exn_class_of e = ImportError) ->
    exists t,
      import_auxiliaries w modules = Some (t, Returned tt) /\
      imported t = map fst (List.filter (fun m => negb (snd m)) modules) /\
      count_events is_warning t
      = length (List.filter
                  (fun m => negb (snd m) && import_fails w (fst m))
                  modules).
Proof.
  intros w modules H.
  induction modules as [|[name ispkg] rest IH]; cbn [import_auxiliaries].
  - exists []. repeat split.
  - destruct IH as (t2 & E2 & I2 & W2).
    destruct ispkg; cbn [List.filter snd fst negb andb map].
    + cbn [bind ret]. rewrite E2. exists t2. repeat split; assumption.
    + destruct (import_auxiliary_contained w name (H name))
        as (t1 & E1 & I1 & W1).
      rewrite E1. cbn [bind]. rewrite E2.
      eexists. split; [reflexivity|]. split.
      * cbn [app imported map]. now rewrite imported_app, I1, I2.
      * change (EvImport name :: t1) with ([EvImport name] ++ t1).
        rewrite !count_events_app, W1, W2.
        destruct (import_fails w name); reflexivity.
Qed.

Lemma import_auxiliaries_best_effort_witness :
  exists t,
    import_auxiliaries
      (env_of (config_of (Some "apk") 3)
         (missing "modules.auxiliary.tracer") [] [] no_fault)
      [("modules.auxiliary.sniffer", false); ("modules.auxiliary.lib", true);
       ("modules.auxiliary.tracer", false)]
    = Some (t, Returned tt) /\
    imported t
    = map fst (List.filter (fun m => negb (snd m))
                 [("modules.auxiliary.sniffer", false);
                  ("modules.auxiliary.lib", true);
                  ("modules.auxiliary.tracer", false)]) /\
    count_events is_warning t
    = length (List.filter
                (fun m => negb (snd m)
                          && import_fails
                               (env_of (config_of (Some "apk") 3)
                                  (missing "modules.auxiliary.tracer")
                                  [] [] no_fault) (fst m))
                [("modules.auxiliary.sniffer", false);
                 ("modules.auxiliary.lib", true);
                 ("modules.auxiliary.tracer", false)]).
Proof.
  apply import_auxiliaries_best_effort.
  intros name e. cbn. unfold missing.
  destruct (String.eqb name "modules.auxiliary.tracer"); [|discriminate].
  now intros [= <-].
Defined.

(** X4: when the constructor of the first subclass of [Auxiliary]
    raises, whatever it raises, the start loop ends there with an
    [UnboundLocalError]: the handlers and the [finally] block read the
    local [aux], which nothing has bound yet.  No [start()] is invoked
    and the other subclasses are not constructed. *)
Theorem first_constructor_fault_is_fatal :
  forall (module : Auxiliary) (rest : list Auxiliary) (e : exn),
    aux_init module = Some e ->
    start_auxiliaries (module :: rest) (None, [])
    = Some ([EvAuxInit (aux_name module)],
            Raised (Exn UnboundLocalError
                      "local variable 'aux' referenced before assignment")).
Proof.
  intros module rest e H. cbn [start_auxiliaries].
  unfold start_auxiliary, call, try_except, try_finally. rewrite H.
  cbn [emit bind raise ret app].
  destruct (is_not_implemented e); [reflexivity|].
  destruct (is_Exception e); reflexivity.
Qed.

Lemma first_constructor_fault_is_fatal_witness :
  start_auxiliaries [unbuilt; sniffer] (None, [])
  = Some ([EvAuxInit (aux_name unbuilt)],
          Raised (Exn UnboundLocalError
                    "local variable 'aux' referenced before assignment")).
Proof.
  apply (first_constructor_fault_is_fatal unbuilt [sniffer]
           (Exn OtherException "no device")).
  reflexivity.
Defined.

(** One turn of the start loop when [aux] is bound and the faults of
    the constructor and of [start()] are [Exception]s. *)
Lemma start_auxiliary_bound module a0 aux_enabled :
  contained (aux_init module) = true ->
  contained (aux_start module) = true ->
  exists t,
    start_auxiliary module (Some a0, aux_enabled)
    = Some (t, Returned
                 (Some (match aux_init module with
                        | None => module
                        | Some _ => a0
                        end),
                  aux_enabled ++ [match aux_init module with
                                  | None => module
                                  | Some _ => a0
                                  end])).
Proof.
  intros Hinit Hstart. unfold start_auxiliary, call, contained in *.
  destruct (aux_init module) as [e|]; cbn.
  - rewrite Hinit. destruct (is_not_implemented e); cbn; eauto.
  - destruct (aux_start module) as [e|]; cbn; [|eauto].
    rewrite Hstart. destruct (is_not_implemented e); cbn; eauto.
Qed.

Lemma start_auxiliaries_bound modules :
  forall a0 aux_enabled,
    Forall (fun m => contained (aux_init m) = true /\
                     contained (aux_start m) = true) modules ->
    exists t,
      start_auxiliaries modules (Some a0, aux_enabled)
      = Some (t, Returned (aux_enabled ++ recorded a0 modules)).
Proof.
  induction modules as [|module rest IH]; intros a0 aux_enabled H;
    cbn [start_auxiliaries recorded].
  - exists []. now rewrite app_nil_r.
  - inversion H as [|? ? [Hinit Hstart] Hrest]; subst.
    destruct (start_auxiliary_bound module a0 aux_enabled Hinit Hstart)
      as (t1 & E1).
    rewrite E1. cbn [bind].
    destruct (IH (match aux_init module with
                  | None => module
                  | Some _ => a0
                  end)
                 (aux_enabled ++ [match aux_init module with
                                  | None => module
                                  | Some _ => a0
                                  end]) Hrest) as (t2 & E2).
    rewrite E2, <- app_assoc. eauto.
Qed.

(** X5: when the first constructor returns and every later fault of a
    constructor or of a [start()] is an [Exception], the start loop
    returns, and [aux_enabled] has one entry per subclass: the new
    instance when its constructor returned, and otherwise, once more,
    the instance constructed last before it. *)
Theorem start_loop_records_one_entry_per_subclass :
  forall (module : Auxiliary) (rest : list Auxiliary),
    aux_init module = None ->
    contained (aux_start module) = true ->
    Forall (fun m => contained (aux_init m) = true /\
                     contained (aux_start m) = true) rest ->
    exists t,
      start_auxiliaries (module :: rest) (None, [])
      = Some (t, Returned (module :: recorded module rest)) /\
      length (module :: recorded module rest) = length (module :: rest).
Proof.
  intros module rest Hinit Hstart Hrest. cbn [start_auxiliaries].
  destruct (start_auxiliary_recorded module None [] Hinit Hstart) as (t1 & E1).
  destruct (start_auxiliaries_bound rest module ([] ++ [module]) Hrest)
    as (t2 & E2).
  rewrite E1. cbn [bind]. rewrite E2.
  eexists. split; [reflexivity|].
  cbn [length]. f_equal. clear.
  revert module. induction rest as [|m rest IH]; intros module;
    [reflexivity|]. cbn [recorded length]. now rewrite IH.
Qed.

Lemma start_loop_records_one_entry_per_subclass_witness :
  exists t,
    start_auxiliaries [sniffer; unbuilt; broken] (None, [])
    = Some (t, Returned (sniffer :: recorded sniffer [unbuilt; broken])) /\
    length (sniffer :: recorded sniffer [unbuilt; broken])
    = length [sniffer; unbuilt; broken].
Proof.
  apply (start_loop_records_one_entry_per_subclass sniffer [unbuilt; broken]);
    [reflexivity | reflexivity | repeat constructor].
Defined.

Example constructor_fault_records_previous_module :
  recorded sniffer [unbuilt; broken] = [sniffer; broken].
Proof. reflexivity. Qed.

End AuxiliaryEdges.

(** * The polling loop: what bounds it and what does not *)

Section PollingEdges.
Import PyStr Analyzer Samples Observe.
Variables (w : Env) (pack : Package) (package_name : string).

(** One turn that polls has one call of [check()] and one pause,
    however it ends. *)
Lemma poll_check_and_sleep i t o :
  poll w pack package_name i = Some (t, o) ->
  count_events is_check t = 1%nat /\ count_events is_sleep t = 1%nat.
Proof.
  unfold poll, check, sleep, call, try_except, try_finally.
  destruct (package_check pack i) as [[|]|e]; cbn.
  - destruct (sleep_fault w i); cbn; intros [= <- <-]; now split.
  - destruct (sleep_fault w i); cbn; intros [= <- <-]; now split.
  - destruct (is_Exception e); cbn;
      destruct (sleep_fault w i); cbn; intros [= <- <-]; now split.
Qed.

(** X6: a timeout that the counter has already reached or passed (a
    timeout of zero, a negative one) is never met: when [check()] keeps
    returning true and the pauses are quiet, the loop does not come
    back, whatever the fuel. *)
Theorem passed_timeout_never_ends :
  forall (fuel : nat) (i : Z),
    timeout (config w) <= i ->
    (forall j, i < j -> package_check pack j = Returned true) ->
    (forall j, i < j -> sleep_fault w j = None) ->
    polling fuel w pack package_name i = None.
Proof.
  induction fuel as [|fuel IH]; intros i Hi Hc Hs; [reflexivity|].
  cbn [polling].
  destruct (Z.eqb_spec (i + 1) (timeout (config w))) as [E|_]; [lia|].
  rewrite (bind_returned _ _ _ _
             (poll_alive w pack package_name (i + 1)
                (Hc (i + 1) ltac:(lia)) (Hs (i + 1) ltac:(lia)))).
  rewrite IH; [reflexivity|lia| |]; intros j Hj; [apply Hc|apply Hs]; lia.
Qed.

(** X7: whenever the loop comes back, by returning or by raising, its
    trace has as many pauses as calls of [check()]: the [finally]
    clause pauses after every call, also when [check()] raised or asked
    for the end, and the turn that meets the timeout has neither. *)
Theorem every_check_is_followed_by_a_pause :
  forall (fuel : nat) (i : Z) (t : list event) (o : outcome Z),
    polling fuel w pack package_name i = Some (t, o) ->
    count_events is_check t = count_events is_sleep t.
Proof.
  induction fuel as [|fuel IH]; intros i t o; cbn [polling]; [discriminate|].
  destruct (i + 1 =? timeout (config w)).
  - now intros [= <- <-].
  - intros H. apply bind_inv in H
      as [(e & H & _)|(t1 & s & t2 & H1 & H2 & ->)].
    + apply poll_check_and_sleep in H as [-> ->]. reflexivity.
    + apply poll_check_and_sleep in H1 as [C S].
      rewrite !count_events_app, C, S. f_equal.
      destruct s; [now injection H2 as <- <- | exact (IH _ _ _ H2)].
Qed.

(** X8: started below the timeout, the loop calls [check()] at most
    once per turn that precedes the timeout, whatever the package and
    the pauses do, and a counter it returns lies above the start and
    not above the timeout. *)
Theorem checks_are_bounded_by_the_timeout :
  forall (fuel : nat) (i : Z) (t : list event) (o : outcome Z),
    i < timeout (config w) ->
    polling fuel w pack package_name i = Some (t, o) ->
    (count_events is_check t <= Z.to_nat (timeout (config w) - i - 1))%nat /\
    (forall n, o = Returned n -> i < n <= timeout (config w)).
Proof.
  induction fuel as [|fuel IH]; intros i t o Hi; cbn [polling];
    [discriminate|].
  destruct (Z.eqb_spec (i + 1) (timeout (config w))) as [E|E].
  - intros [= <- <-]. split; [cbn; lia|]. intros n [= <-]. lia.
  - intros H. apply bind_inv in H
      as [(e & H & ->)|(t1 & s & t2 & H1 & H2 & ->)].
    + apply poll_check_and_sleep in H as [-> _].
      split; [lia | discriminate].
    + apply poll_check_and_sleep in H1 as [C _].
      rewrite count_events_app, C. destruct s.
      * injection H2 as <- <-. split; [cbn; lia|]. intros n [= <-]. lia.
      * destruct (IH (i + 1) t2 o ltac:(lia) H2) as [B R].
        split; [lia|]. intros n Hn. specialize (R n Hn). lia.
Qed.

End PollingEdges.

Section PollingEdgesWitnesses.
Import PyStr Analyzer Samples Observe.

Lemma passed_timeout_never_ends_witness :
  polling 50 zero_timeout_env (package_of None always_alive)
    "modules.packages.apk" 0 = None.
Proof.
  apply (passed_timeout_never_ends zero_timeout_env
           (package_of None always_alive) "modules.packages.apk" 50 0);
    [cbn; lia | reflexivity | reflexivity].
Defined.

Lemma every_check_is_followed_by_a_pause_witness :
  exists t o,
    polling 3 interrupted_env (package_of None always_alive)
      "modules.packages.apk" 0 = Some (t, o) /\
    count_events is_check t = count_events is_sleep t.
Proof.
  eexists _, _. split; [vm_compute; reflexivity|].
  refine (every_check_is_followed_by_a_pause interrupted_env
            (package_of None always_alive) "modules.packages.apk" 3 0 _ _ _).
  vm_compute. reflexivity.
Defined.

Lemma checks_are_bounded_by_the_timeout_witness :
  exists t o,
    polling 3 (quiet_env (package_of None (raising_at 1 (Exn ValueError ""))))
      (package_of None (raising_at 1 (Exn ValueError "")))
      "modules.packages.apk" 0 = Some (t, o) /\
    (count_events is_check t <= Z.to_nat (3 - 0 - 1))%nat.
Proof.
  eexists _, _. split; [vm_compute; reflexivity|].
  refine (proj1 (checks_are_bounded_by_the_timeout
                   (quiet_env (package_of None
                                 (raising_at 1 (Exn ValueError ""))))
                   (package_of None (raising_at 1 (Exn ValueError "")))
                   "modules.packages.apk" 3 0 _ _ _ _)).
  - cbn. lia.
  - vm_compute. reflexivity.
Defined.

End PollingEdgesWitnesses.

(** * Shutdown and report: the remaining paths *)

Section ShutdownEdges.
Import PyStr Analyzer Samples Observe.

Lemma stop_auxiliaries_app pre post t :
  stop_auxiliaries pre = Some (t, Returned tt) ->
  stop_auxiliaries (pre ++ post)
  = (Some (t, Returned tt) ;; stop_auxiliaries post).
Proof.
  revert t. induction pre as [|aux pre IH]; intros t; cbn [app stop_auxiliaries].
  - intros [= <-]. cbn. now destruct (stop_auxiliaries post) as [[? ?]|].
  - intros H. apply bind_inv in H
      as [(e & _ & [=])|(t1 & [] & t2 & H1 & H2 & ->)].
    rewrite H1. cbn [bind]. rewrite (IH t2 H2). cbn [bind].
    destruct (stop_auxiliaries post) as [[t3 o3]|]; [|reflexivity].
    now rewrite app_assoc.
Qed.

(** X9: the shutdown is abandoned at the first fault that is not an
    [Exception]: when [stop()] of one module raises such a fault after
    modules whose faults were contained, the loop raises it, having
    invoked [stop()] on the modules up to that one and on none after
    it; and when [finish()] raises such a fault, the shutdown raises it
    right after that call and no [stop()] is invoked at all. *)
Theorem shutdown_is_abandoned_on_base_exception :
  forall (pre : list Auxiliary) (aux : Auxiliary) (post : list Auxiliary)
         (e : exn),
    is_Exception e = false ->
    (Forall (fun a => contained (aux_stop a) = true) pre ->
     aux_stop aux = Some e ->
     exists t,
       stop_auxiliaries (pre ++ aux :: post) = Some (t, Raised e) /\
       stopped t = map aux_name pre ++ [aux_name aux]) /\
    (forall pack package_name,
        package_finish pack = Some e ->
        shutdown pack (pre ++ aux :: post) package_name
        = Some ([EvPackageFinish], Raised e)).
Proof.
  intros pre aux post e He.
  assert (is_not_implemented e = false) as Hni.
  { unfold is_Exception, is_not_implemented in *.
    now destruct (exn_class_of e). }
  split.
  - intros Hpre Hstop.
    destruct (stop_auxiliaries_contained pre Hpre) as (t & E & S).
    rewrite (stop_auxiliaries_app pre (aux :: post) t E).
    cbn [stop_auxiliaries]. unfold call, try_except. rewrite Hstop.
    cbn [emit bind raise app]. rewrite Hni, He. cbn [bind].
    eexists. split; [reflexivity|].
    rewrite stopped_app, S. reflexivity.
  - intros pack package_name Hfinish.
    unfold shutdown, finish_package, call, try_except. rewrite Hfinish.
    cbn [emit bind raise app]. now rewrite He.
Qed.

Lemma shutdown_is_abandoned_on_base_exception_witness :
  (exists t,
      stop_auxiliaries ([broken] ++ exiting :: [sniffer])
      = Some (t, Raised (Exn SystemExit "")) /\
      stopped t = map aux_name [broken] ++ [aux_name exiting]) /\
  shutdown
    {| package_start := fun _ => None; package_check := always_alive;
       package_finish := Some (Exn SystemExit "") |}
    ([broken] ++ exiting :: [sniffer]) "modules.packages.apk"
  = Some ([EvPackageFinish], Raised (Exn SystemExit "")).
Proof.
  split.
  - apply (proj1 (shutdown_is_abandoned_on_base_exception
                    [broken] exiting [sniffer] (Exn SystemExit "") eq_refl));
      [repeat constructor | reflexivity].
  - apply (proj2 (shutdown_is_abandoned_on_base_exception
                    [broken] exiting [sniffer] (Exn SystemExit "") eq_refl)).
    reflexivity.
Defined.

(** What a run that returns has done. *)
Lemma run_returned fuel w t b :
  run fuel w = Some (t, Returned b) ->
  b = true /\
  count_events is_package_start t = 1%nat /\
  count_events is_finish t = 1%nat /\
  count_events is_complete t = 0%nat.
Proof.
  intros H. unfold run in H.
  apply bind_inv in H as [(e & _ & [=])|(t0 & r & t' & H0 & H & ->)].
  destruct r as [[[pack auxs] package_name] tgt].
  apply bind_inv in H as [(e & _ & [=])|(ts & [] & t'' & Hs & H & ->)].
  apply bind_inv in H as [(e & _ & [=])|(t1 & n & t2 & H1 & H2 & ->)].
  assert (ts = [EvPackageStart tgt]) as ->.
  { destruct (package_start pack tgt) as [e|] eqn:E.
    - destruct (start_package_raises pack package_name tgt e E)
        as (e' & E' & _). congruence.
    - rewrite (start_package_returns pack package_name tgt E) in Hs.
      congruence. }
  destruct (shutdown_shape pack auxs package_name) as (t3 & o & E3 & F3).
  rewrite E3 in H2. injection H2 as <- ->.
  assert (b = true) as ->.
  { unfold shutdown in E3.
    apply bind_inv in E3 as [(e & _ & [=])|(? & [] & ? & _ & E3 & _)].
    apply bind_inv in E3 as [(e & _ & [=])|(? & [] & ? & _ & E3 & _)].
    apply bind_inv in E3 as [(e & _ & [=])|(? & [] & ? & _ & E3 & _)].
    now injection E3. }
  assert (forall p : event -> bool,
             (forall ev, p ev = true ->
                         is_package_start ev = true \/ is_finish ev = true
                         \/ is_complete ev = true) ->
             count_events p t0 = 0%nat /\ count_events p t1 = 0%nat /\
             (p EvPackageFinish = false ->
              count_events p (EvPackageFinish :: t3) = 0%nat)) as Hquiet.
  { intros p Hp.
    assert (forall ev, is_package_start ev = false -> is_finish ev = false ->
                       is_complete ev = false -> negb (p ev) = true) as Hn.
    { intros ev A B C. destruct (p ev) eqn:E; [|reflexivity].
      destruct (Hp ev E) as [?|[?|?]]; congruence. }
    split; [|split].
    - apply count_events_none.
      eapply (emits_only_setup (fun ev => negb (p ev)));
        [intros; now apply Hn .. | exact H0].
    - apply count_events_none.
      eapply (emits_only_polling (fun ev => negb (p ev)));
        [intros; now apply Hn .. | exact H1].
    - intros Hf. apply count_events_none.
      eapply (emits_only_shutdown (fun ev => negb (p ev)));
        [intros; now apply Hn | now rewrite Hf |intros; now apply Hn
        | exact E3]. }
  split; [reflexivity|].
  change (EvPackageFinish :: t3) with ([EvPackageFinish] ++ t3).
  split; [|split].
  - destruct (Hquiet is_package_start ltac:(auto)) as (A & B & C).
    specialize (C eq_refl).
    change (EvPackageFinish :: t3) with ([EvPackageFinish] ++ t3) in C.
    rewrite !count_events_app in *. rewrite A, B. cbn. cbn in C. lia.
  - destruct (Hquiet is_finish ltac:(auto)) as (A & B & _).
    rewrite !count_events_app, A, B, F3. reflexivity.
  - destruct (Hquiet is_complete ltac:(auto)) as (A & B & C).
    specialize (C eq_refl).
    change (EvPackageFinish :: t3) with ([EvPackageFinish] ++ t3) in C.
    rewrite !count_events_app in *. rewrite A, B. cbn. cbn in C. lia.
Qed.

(** X10: the agent is told of a success only by a run that returned:
    whenever the trace of the main program holds a call of
    [server.complete] with a true flag, its message is empty, its path
    is the results path, and the run behind it has invoked [start] and
    [finish()] of the package exactly once each. *)
Theorem success_is_reported_only_after_a_full_run :
  forall (fuel : nat) (w : Env) (t : list event) (pending : option exn)
         (error path : string),
    main fuel w = Some (t, pending) ->
    In (EvComplete true error path) t ->
    error = "" /\ path = root w /\
    count_events is_package_start t = 1%nat /\
    count_events is_finish t = 1%nat /\
    exists t0, run fuel w = Some (t0, Returned true).
Proof.
  intros fuel w t pending error path. unfold main.
  destruct (run fuel w) as [[t0 o]|] eqn:R; [|discriminate].
  destruct (report w o) as [[[t1 success] err] pend] eqn:E.
  intros [= <- _] Hin.
  assert (forallb (fun ev => negb (is_complete ev)) t0 = true) as H0.
  { apply (emits_only_run (fun ev => negb (is_complete ev)) fuel w)
      with (o := o); [|exact R]. now intros ev ->. }
  assert (forall l : list event,
             forallb (fun ev => negb (is_complete ev)) l = true ->
             ~ In (EvComplete true error path) l) as Hnot.
  { intros l Hl Hi. rewrite forallb_forall in Hl.
    specialize (Hl _ (proj1 (list_elem_of_In _ _) (proj2 (list_elem_of_In _ _) Hi))).
    discriminate. }
  apply in_app_or in Hin as [Hin|Hin]; [now elim (Hnot t0 H0)|].
  apply in_app_or in Hin as [Hin|Hin].
  - exfalso. unfold report, critical in E. destruct o as [b|e].
    + injection E as <- _ _ _. destruct Hin.
    + destruct (exn_class_of e), (is_Exception e), (log_handlers w);
        injection E as <- _ _ _; cbn in Hin; intuition discriminate.
  - destruct Hin as [Hin|[]]. injection Hin as -> -> ->.
    destruct o as [b|e].
    + destruct (run_returned fuel w t0 b R) as (-> & S & F & _).
      cbn in E. inversion E; subst.
      rewrite !count_events_app, S, F. cbn. eauto 6.
    + exfalso. unfold report in E.
      destruct (exn_class_of e), (is_Exception e); discriminate.
Qed.

Lemma success_is_reported_only_after_a_full_run_witness :
  exists t,
    main 3 (quiet_env (package_of None (done_at 1))) = Some (t, None) /\
    count_events is_package_start t = 1%nat /\
    count_events is_finish t = 1%nat.
Proof.
  eexists. split; [vm_compute; reflexivity|].
  refine ((fun H => conj (proj1 (proj2 (proj2 H)))
                         (proj1 (proj2 (proj2 (proj2 H)))))
            (success_is_reported_only_after_a_full_run 3
               (quiet_env (package_of None (done_at 1))) _ None
               "" "/data/local/tmp" _ _)).
  - vm_compute. reflexivity.
  - vm_compute. repeat (first [left; reflexivity | right]).
Defined.

End ShutdownEdges.

(** * The option parser: overriding, counting, separators *)

Section OptionParserMore.
Import PyStr Analyzer Samples Observe.

(** The pieces of a split hold no separator, and no more of any other
    character than the whole. *)
Lemma split_pieces (c d : ascii) (s : string) :
  Forall (fun piece => count c piece = O /\
                       (count d piece <= count d s)%nat)
         (split c s).
Proof.
  unfold split. induction s as [|x s IH]; cbn [split_on count].
  - repeat constructor.
  - destruct (Ascii.eqb c x) eqn:E.
    + constructor; [split; [reflexivity | cbn; lia]|].
      eapply Forall_impl; [exact IH|]. cbn. intros piece [? ?]. split; lia.
    + destruct (split_on_cons (Ascii.eqb c) s) as (p & ps & Es).
      rewrite Es in *. inversion IH as [|? ? [Hp1 Hp2] Hps]; subst.
      constructor.
      * cbn [count]. rewrite E. split; [exact Hp1|].
        destruct (Ascii.eqb d x); cbn; lia.
      * eapply Forall_impl; [exact Hps|]. cbn. intros piece [? ?].
        split; [assumption|]. destruct (Ascii.eqb d x); cbn; lia.
Qed.

Lemma unpack_pair_one_separator (field : string) :
  count "="%char field = 1%nat ->
  exists key value,
    unpack_pair (split "="%char (strip field)) = Returned (key, value) /\
    count "="%char key = O /\ count "="%char value = O /\
    (count ","%char key <= count ","%char field)%nat /\
    (count ","%char value <= count ","%char field)%nat.
Proof.
  intros H.
  pose proof (split_length "="%char (strip field)) as L.
  pose proof (split_pieces "="%char ","%char (strip field)) as P.
  rewrite !count_strip in * by reflexivity. rewrite H in L.
  destruct (split "="%char (strip field)) as [|a [|b [|c l]]];
    try discriminate.
  inversion P as [|? ? [A1 A2] P']; subst.
  inversion P' as [|? ? [B1 B2] _]; subst.
  exists a, b. repeat split; assumption.
Qed.

(** What one field does to the dictionary and to the log. *)
Lemma parse_fields_malformed field rest opts :
  malformed field = true ->
  exists msg,
    parse_fields (field :: rest) opts
    = (log Warning msg ;; parse_fields rest opts).
Proof.
  unfold malformed. intros M. apply negb_true_iff, Nat.eqb_neq in M.
  destruct (unpack_pair_malformed field M) as (e & E).
  cbn [parse_fields]. rewrite E. eauto.
Qed.

Lemma parse_fields_well_formed field rest opts :
  malformed field = false ->
  exists key value,
    parse_fields (field :: rest) opts
    = parse_fields rest (<[strip key := strip value]> opts) /\
    count "="%char key = O /\ count "="%char value = O /\
    (count ","%char key <= count ","%char field)%nat /\
    (count ","%char value <= count ","%char field)%nat.
Proof.
  unfold malformed. intros M. apply negb_false_iff, Nat.eqb_eq in M.
  destruct (unpack_pair_one_separator field M) as (k & v & E & H).
  exists k, v. split; [|exact H]. cbn [parse_fields]. now rewrite E.
Qed.

(** X11: the parser logs exactly one warning per field whose number of
    [=] is not one, and the dictionary grows by at most one entry per
    other field. *)
Theorem warnings_count_malformed_fields :
  forall (fields : list string) (opts : gmap string string),
    exists t opts',
      parse_fields fields opts = Some (t, Returned opts') /\
      length t = length (List.filter malformed fields) /\
      forallb is_warning t = true /\
      (size opts' <= size opts
                     + length (List.filter (fun f => negb (malformed f))
                                 fields))%nat.
Proof.
  induction fields as [|field rest IH]; intros opts.
  - exists [], opts. cbn. repeat split; lia.
  - cbn [List.filter]. destruct (malformed field) eqn:M; cbn [negb].
    + destruct (parse_fields_malformed field rest opts M) as (msg & ->).
      destruct (IH opts) as (t & opts' & E & L & W & S).
      cbn [bind ret log emit]. rewrite E. cbn [app].
      eexists _, _. split; [reflexivity|]. cbn. repeat split; auto; lia.
    + destruct (parse_fields_well_formed field rest opts M)
        as (k & v & -> & _).
      destruct (IH (<[strip k := strip v]> opts))
        as (t & opts' & E & L & W & S).
      exists t, opts'. repeat split; auto.
      rewrite map_size_insert in S. cbn [length].
      destruct (opts !! strip k); cbn in S; lia.
Qed.

Lemma warnings_count_malformed_fields_example :
  List.filter malformed ["a=1"; " b = 2 "; "bad"; "c=d=e"; ""]
  = ["bad"; "c=d=e"; ""].
Proof. reflexivity. Qed.

(** X12: a later field overrides the earlier ones: whatever fields come
    before, a last field [key=value] leaves the trimmed value at the
    trimmed key, on top of the dictionary the earlier fields gave, and
    adds nothing to the log. *)
Theorem last_field_wins :
  forall (fields : list string) (key value : string)
         (opts : gmap string string),
    count "="%char key = O -> count "="%char value = O ->
    exists t opts1,
      parse_fields fields opts = Some (t, Returned opts1) /\
      parse_fields (fields ++ [key +:+ "=" +:+ value]) opts
      = Some (t, Returned (<[strip key := strip value]> opts1)) /\
      <[strip key := strip value]> opts1 !! strip key = Some (strip value).
Proof.
  intros fields key value opts Hk Hv. revert opts.
  induction fields as [|field rest IH]; intros opts.
  - exists [], opts. split; [reflexivity|]. split; [|apply lookup_insert_eq].
    cbn [app parse_fields].
    rewrite (unpack_pair_well_formed key value Hk Hv).
    now rewrite strip_lstrip, strip_rstrip.
  - cbn [app parse_fields].
    destruct (unpack_pair (split "="%char (strip field))) as [[k v]|e].
    + apply IH.
    + destruct (IH opts) as (t & opts1 & E1 & E2 & L).
      rewrite E1, E2. cbn [bind log emit app].
      eexists _, _. split; [reflexivity|]. split; [reflexivity|exact L].
Qed.

Lemma last_field_wins_witness :
  exists t opts1,
    parse_fields ["a=1"; "bad"] ∅ = Some (t, Returned opts1) /\
    parse_fields (["a=1"; "bad"] ++ [" a " +:+ "=" +:+ "2"]) ∅
    = Some (t, Returned (<[strip " a " := strip "2"]> opts1)) /\
    <[strip " a " := strip "2"]> opts1 !! strip " a " = Some (strip "2").
Proof.
  apply (last_field_wins ["a=1"; "bad"] " a " "2" ∅); reflexivity.
Defined.

Lemma parse_fields_plain (fields : list string) :
  forall opts : gmap string string,
    Forall (fun f => count ","%char f = O) fields ->
    map_Forall (fun k v => plain k /\ plain v) opts ->
    forall t opts',
      parse_fields fields opts = Some (t, Returned opts') ->
      map_Forall (fun k v => plain k /\ plain v) opts'.
Proof.
  induction fields as [|field rest IH]; intros opts Hf Ho t opts'.
  - now intros [= _ <-].
  - inversion Hf as [|? ? Hfield Hrest]; subst.
    destruct (malformed field) eqn:M.
    + destruct (parse_fields_malformed field rest opts M) as (msg & ->).
      intros H.
      apply bind_inv in H as [(? & [=] & _)|(? & [] & t2 & _ & E & _)].
      exact (IH opts Hrest Ho _ _ E).
    + destruct (parse_fields_well_formed field rest opts M)
        as (k & v & -> & K1 & V1 & K2 & V2).
      apply IH; [exact Hrest|].
      apply map_Forall_insert_2; [|exact Ho].
      unfold plain. rewrite !count_strip by reflexivity.
      repeat split; lia.
Qed.

(** X13: no key and no value of the dictionary returned by
    [get_options] contains an [=] or a comma. *)
Theorem options_hold_no_separator :
  forall (raw : option string) (t : list event) (opts : gmap string string),
    get_options raw = Some (t, Returned opts) ->
    map_Forall (fun k v => plain k /\ plain v) opts.
Proof.
  intros raw t opts.
  pose proof (map_Forall_empty (fun k v : string => plain k /\ plain v)
                (M := gmap string)) as Hempty.
  destruct raw as [[|c s]|]; cbn [get_options];
    try (intros [= _ <-]; exact Hempty).
  apply parse_fields_plain; [|exact Hempty].
  eapply Forall_impl; [apply (split_pieces ","%char ","%char)|].
  cbn. tauto.
Qed.

Lemma options_hold_no_separator_witness :
  map_Forall (fun k v => plain k /\ plain v)
    ({[ "a" := "1"; "b" := "2" ]} : gmap string string).
Proof.
  apply (options_hold_no_separator (Some "a=1, b = 2 ,bad")
           [EvLog Warning
              "Failed parsing option (bad): need more than 1 value to unpack"]).
  vm_compute. reflexivity.
Defined.

End OptionParserMore.

(** * [VirusTotalAPI.normalize]: the words it returns are stable *)

Section NormalizeMore.
Import PyStr VirusTotal Observe.

Lemma all_chars_lstrip p s : all_chars p s = true -> all_chars p (lstrip s) = true.
Proof.
  induction s as [|c s IH]; cbn [lstrip all_chars]; [reflexivity|].
  intros H. destruct (isspace c); [|exact H].
  apply andb_true_iff in H as [_ H]. now apply IH.
Qed.

Lemma all_chars_rstrip p s : all_chars p s = true -> all_chars p (rstrip s) = true.
Proof.
  induction s as [|c s IH]; [reflexivity|].
  rewrite rstrip_cons. cbn [all_chars]. intros H.
  apply andb_true_iff in H as [Hc H].
  destruct (isspace c && String.eqb (rstrip s) ""); [reflexivity|].
  cbn [all_chars]. now rewrite Hc, IH.
Qed.

Lemma all_chars_strip p s : all_chars p s = true -> all_chars p (strip s) = true.
Proof. intros H. now apply all_chars_rstrip, all_chars_lstrip. Qed.

(** The pieces of a split hold no separator. *)
Lemma split_on_pieces sep s :
  Forall (fun piece => all_chars (fun c => negb (sep c)) piece = true)
         (split_on sep s).
Proof.
  induction s as [|c s IH]; cbn [split_on]; [repeat constructor|].
  destruct (sep c) eqn:E; [now constructor|].
  destruct (split_on_cons sep s) as (p & ps & Es). rewrite Es in *.
  inversion IH; subst. constructor; [|assumption].
  cbn [all_chars]. now rewrite E.
Qed.

(** A string without separator is its own single piece. *)
Lemma split_on_whole sep s :
  all_chars (fun c => negb (sep c)) s = true -> split_on sep s = [s].
Proof.
  induction s as [|c s IH]; cbn [split_on all_chars]; [reflexivity|].
  intros H. apply andb_true_iff in H as [Hc H].
  apply negb_true_iff in Hc. now rewrite Hc, (IH H).
Qed.

(** What the loop keeps: stripped pieces that pass the three tests. *)
Lemma normalize_words_stable (words : list string) :
  Forall (fun piece => all_chars (fun c => negb (is_separator c)) piece = true)
         words ->
  Forall (fun word =>
            strip word = word /\
            all_chars (fun c => negb (is_separator c)) word = true /\
            normalize_words [word] = [word])
         (normalize_words words).
Proof.
  induction 1 as [|w words Hw Hwords IH]; cbn [normalize_words];
    [constructor|].
  destruct (String.length (strip w) <? 4)%nat eqn:Hlen; [exact IH|].
  destruct (blacklisted (strip w)) eqn:Hbl; [exact IH|].
  destruct (re_match_hex (strip w)) eqn:Hhex; [exact IH|].
  constructor; [|exact IH].
  split; [apply strip_idem|]. split; [now apply all_chars_strip|].
  cbn [normalize_words]. now rewrite strip_idem, Hlen, Hbl, Hhex.
Qed.

(** X14: every word returned by [normalize] carries no white space at
    its ends and none of the characters the pattern splits at, and it
    is stable: normalising the word itself returns just that word. *)
Theorem normalized_words_are_stable :
  forall variant : option string,
    Forall (fun word =>
              strip word = word /\
              all_chars (fun c => negb (is_separator c)) word = true /\
              normalize (Some word) = [word])
           (normalize variant).
Proof.
  intros [[|c v]|]; cbn [normalize]; try constructor.
  eapply Forall_impl; [apply normalize_words_stable, split_on_pieces|].
  intros word (Hs & Hc & Hn). cbv beta. repeat split; try assumption.
  destruct word as [|d word]; [discriminate Hn|].
  cbn [normalize]. now rewrite (split_on_whole _ _ Hc).
Qed.

Example normalize_twice :
  normalize (Some "Trojan.Win32.Zbot-abcdef12 [ Kryptik ]/x")
  = ["Zbot"; "Kryptik"] /\
  normalize (Some "Zbot") = ["Zbot"].
Proof. split; reflexivity. Qed.

Lemma normalize_split v :
  normalize (Some v) = normalize_words (split_on is_separator v).
Proof. now destruct v. Qed.

(** X15: a piece that [normalize] discards leaves no trace: a piece
    shorter than four characters once stripped, a blacklisted piece or
    a piece of hexadecimal digits, put in front of a name with one of
    the separators, gives the list of the name alone. *)
Theorem discarded_piece_changes_nothing :
  forall (piece : string) (sep : ascii) (v : string),
    is_separator sep = true ->
    all_chars (fun c => negb (is_separator c)) piece = true ->
    ((String.length (strip piece) <? 4)%nat
     || blacklisted (strip piece) || re_match_hex (strip piece)) = true ->
    normalize (Some (piece +:+ String sep v)) = normalize (Some v).
Proof.
  intros piece sep v Hsep Hpiece Hdrop.
  assert (split_on is_separator (piece +:+ String sep v)
          = piece :: split_on is_separator v) as E.
  { clear Hdrop. induction piece as [|c piece IH]; cbn [append split_on].
    - now rewrite Hsep.
    - cbn [all_chars] in Hpiece. apply andb_true_iff in Hpiece as [Hc Hp].
      apply negb_true_iff in Hc. now rewrite Hc, (IH Hp). }
  rewrite !normalize_split, E. cbn [normalize_words].
  destruct (String.length (strip piece) <? 4)%nat; [reflexivity|].
  destruct (blacklisted (strip piece)); [reflexivity|].
  cbn in Hdrop. now rewrite Hdrop.
Qed.

Lemma discarded_piece_changes_nothing_witness :
  normalize (Some ("Trojan" +:+ String "."%char "Zbot.Gen"))
  = normalize (Some "Zbot.Gen").
Proof.
  apply (discarded_piece_changes_nothing "Trojan" "."%char "Zbot.Gen");
    reflexivity.
Defined.

End NormalizeMore.

(** * [normalize] on [unicode] objects *)

Section UnicodeFacts.
Import PyStr VirusTotal Unicode.

(** [rstrip] one code unit at a time. *)
Lemma unicode_rstrip_cons (c : N) (s : text) :
  rstrip (c :: s) =
  if isspace c && match rstrip s with [] => true | _ => false end
  then [] else c :: rstrip s.
Proof.
  cbn [rstrip]. destruct (rstrip s) as [|d r].
  - now destruct (isspace c).
  - now rewrite andb_false_r.
Qed.

Lemma unicode_lstrip_idem (s : text) : lstrip (lstrip s) = lstrip s.
Proof.
  induction s as [|c s IH]; cbn [lstrip]; [reflexivity|].
  destruct (isspace c) eqn:E; [exact IH|]. cbn [lstrip]. now rewrite E.
Qed.

Lemma unicode_rstrip_idem (s : text) : rstrip (rstrip s) = rstrip s.
Proof.
  induction s as [|c s IH]; [reflexivity|].
  rewrite unicode_rstrip_cons.
  destruct (isspace c && match rstrip s with [] => true | _ => false end)
    eqn:E; [reflexivity|].
  rewrite unicode_rstrip_cons, IH, E. reflexivity.
Qed.

Lemma unicode_lstrip_rstrip (s : text) :
  lstrip (rstrip s) = rstrip (lstrip s).
Proof.
  induction s as [|c s IH]; [reflexivity|].
  rewrite unicode_rstrip_cons. cbn [lstrip].
  destruct (isspace c) eqn:E; cbn [andb].
  - destruct (rstrip s) as [|d r] eqn:R.
    + rewrite <- IH. reflexivity.
    + cbn [lstrip]. rewrite E. exact IH.
  - cbn [lstrip]. rewrite E. rewrite unicode_rstrip_cons, E. reflexivity.
Qed.

Lemma unicode_strip_idem (s : text) : strip (strip s) = strip s.
Proof.
  unfold strip.
  now rewrite unicode_lstrip_rstrip, unicode_rstrip_idem, unicode_lstrip_idem.
Qed.

(** Stripping removes code units and adds none. *)
Lemma unicode_forallb_lstrip (p : N -> bool) (s : text) :
  forallb p s = true -> forallb p (lstrip s) = true.
Proof.
  induction s as [|c s IH]; cbn [lstrip forallb]; [reflexivity|].
  intros H. destruct (isspace c); [|exact H].
  apply andb_true_iff in H as [_ H]. now apply IH.
Qed.

Lemma unicode_forallb_rstrip (p : N -> bool) (s : text) :
  forallb p s = true -> forallb p (rstrip s) = true.
Proof.
  induction s as [|c s IH]; [reflexivity|].
  rewrite unicode_rstrip_cons. cbn [forallb]. intros H.
  apply andb_true_iff in H as [Hc H].
  destruct (isspace c && _); [reflexivity|].
  cbn [forallb]. rewrite Hc. now apply IH.
Qed.

Lemma unicode_forallb_strip (p : N -> bool) (s : text) :
  forallb p s = true -> forallb p (strip s) = true.
Proof.
  intros H. now apply unicode_forallb_rstrip, unicode_forallb_lstrip.
Qed.

(** No piece of a split holds a separator. *)
Lemma unicode_split_on_pieces (sep : N -> bool) (s : text) :
  Forall (fun w => forallb (fun c => negb (sep c)) w = true)
    (split_on sep s).
Proof.
  induction s as [|c s IH]; cbn [split_on].
  - now repeat constructor.
  - destruct (sep c) eqn:E; [now constructor|].
    destruct (split_on sep s) as [|w ws]; inversion IH; subst;
      constructor; auto; cbn [forallb]; now rewrite E.
Qed.

Lemma unicode_not_blacklisted (tolower : N -> N) (word : text) :
  blacklisted tolower word = false ->
  Forall (fun entry : string => lower tolower word <> unicode entry)
    VARIANT_BLACKLIST.
Proof.
  unfold blacklisted. generalize VARIANT_BLACKLIST as l.
  induction l as [|b l IH]; intros H; constructor;
    cbn [existsb] in H; apply orb_false_iff in H as [H1 H2].
  - now apply bool_decide_eq_false in H1.
  - now apply IH.
Qed.

Lemma unicode_hex_match_all (word : text) :
  forallb is_hex word = true -> hex_match_from true word = true.
Proof.
  induction word as [|c word IH]; cbn [forallb hex_match_from];
    [reflexivity|].
  intros H. apply andb_true_iff in H as [Hc Hw].
  rewrite Hc. now apply IH.
Qed.

Lemma unicode_not_hex_match (word : text) :
  re_match_hex word = false -> all_hex word = false.
Proof.
  intros H. destruct (all_hex word) eqn:E; [|reflexivity].
  destruct word as [|c word]; [discriminate|].
  unfold all_hex in E. cbn [forallb] in E.
  apply andb_true_iff in E as [Hc Hw].
  unfold re_match_hex in H. cbn [hex_match_from] in H. rewrite Hc in H.
  now rewrite unicode_hex_match_all in H.
Qed.

(** What [normalize] keeps of separator-free pieces. *)
Lemma unicode_normalize_words_kept (tolower : N -> N) (words : list text) :
  Forall (fun w => forallb (fun c => negb (is_separator c)) w = true) words ->
  Forall (fun word =>
            strip word = word /\
            forallb (fun c => negb (is_separator c)) word = true /\
            (4 <= length word)%nat /\
            Forall (fun entry : string =>
                      lower tolower word <> unicode entry)
              VARIANT_BLACKLIST /\
            all_hex word = false)
    (normalize_words tolower words).
Proof.
  induction words as [|w words IH]; intros Hsep; cbn [normalize_words];
    [constructor|].
  inversion Hsep as [|? ? Hw Hrest]; subst.
  destruct (length (strip w) <? 4)%nat eqn:Hlen; [now apply IH|].
  destruct (blacklisted tolower (strip w)) eqn:Hbl; [now apply IH|].
  destruct (re_match_hex (strip w)) eqn:Hhex; [now apply IH|].
  constructor; [|now apply IH].
  apply Nat.ltb_ge in Hlen.
  repeat split;
    auto using unicode_strip_idem, unicode_forallb_strip,
      unicode_not_blacklisted, unicode_not_hex_match.
Qed.

Lemma unicode_normalize_kept (tolower : N -> N) (variant : option text) :
  Forall (fun word =>
            strip word = word /\
            forallb (fun c => negb (is_separator c)) word = true /\
            (4 <= length word)%nat /\
            Forall (fun entry : string =>
                      lower tolower word <> unicode entry)
              VARIANT_BLACKLIST /\
            all_hex word = false)
    (normalize tolower variant).
Proof.
  destruct variant as [[|c v]|]; cbn [normalize]; try constructor.
  apply unicode_normalize_words_kept, unicode_split_on_pieces.
Qed.

(** On a [unicode] object the unit separator is white space, which it
    is not on a [str]: the second piece is stripped to three
    characters and dropped. *)
Example normalize_unit_separator :
  normalize latin1_tolower
    (Some (unicode "Zbot." ++ [0x1F%N] ++ unicode "abc"))
  = [unicode "Zbot"] /\
  VirusTotal.normalize (Some ("Zbot." +:+ String "031"%char "abc"))
  = ["Zbot"; String "031"%char "abc"].
Proof. split; vm_compute; reflexivity. Qed.

End UnicodeFacts.

(** * [VirusTotalAPI]: what a report holds *)

Section Reports.
Import PyStr VirusTotal Unicode Report.

Lemma as_strings_stored words : as_strings (map JStr words) = Ok words.
Proof.
  induction words as [|w words IH]; cbn [map as_strings]; [reflexivity|].
  now rewrite IH.
Qed.

(** What the first loop stores is read back by the second. *)
Lemma read_normalized_stored fields words :
  read_normalized (JObj (<["normalized" := JList (map JStr words)]> fields))
  = Ok words.
Proof.
  unfold read_normalized. rewrite lookup_insert_eq. apply as_strings_stored.
Qed.

Lemma replace_leaves_none a b s :
  a <> b -> count a (replace a b s) = O.
Proof.
  intros Hab. induction s as [|c s IH]; cbn [replace count]; [reflexivity|].
  rewrite IH. destruct (Ascii.eqb_spec c a) as [->|Hc].
  - destruct (Ascii.eqb_spec a b); [contradiction | reflexivity].
  - destruct (Ascii.eqb_spec a c); [congruence | reflexivity].
Qed.

Lemma embedded_cons net entry entries key signature :
  embedded net entries key signature ->
  embedded net (entry :: entries) key signature.
Proof.
  intros (engine & fields & variant & words & H & ?).
  exists engine, fields, variant, words. split; [now right | assumption].
Qed.

(** The first loop: every entry of the dictionary it returns was there
    before or is the stored form of an entry of the list, and every
    engine of the list has its key in it. *)
Lemma embed_scans_sound net entries :
  forall scans0 scans,
    embed_scans net entries scans0 = Ok scans ->
    (forall key signature,
        scans !! key = Some signature ->
        scans0 !! key = Some signature \/
        embedded net entries key signature) /\
    (forall key, is_Some (scans0 !! key) -> is_Some (scans !! key)) /\
    (forall engine signature,
        In (engine, signature) entries ->
        is_Some (scans !! replace "."%char "_"%char engine)).
Proof.
  induction entries as [|[engine signature] rest IH]; intros scans0 scans;
    cbn [embed_scans].
  - intros [= <-]. repeat split; auto. intros ? ? [].
  - destruct signature as [| | | | |fields]; try discriminate.
    destruct (fields !! "result") as [variant|] eqn:Hres; [|discriminate].
    destruct (normalize_value net variant) as [words|] eqn:Hn;
      [|discriminate].
    cbn [and_then]. intros H.
    destruct (IH _ _ H) as (S & K & E). repeat split.
    + intros key sig Hk. destruct (S key sig Hk) as [H0|H0].
      * destruct (decide (replace "."%char "_"%char engine = key)) as [<-|Hne].
        -- rewrite lookup_insert_eq in H0. injection H0 as <-. right.
           exists engine, fields, variant, words.
           repeat split; auto using read_normalized_stored. now left.
        -- rewrite lookup_insert_ne in H0 by exact Hne. now left.
      * right. now apply embedded_cons.
    + intros key Hk. apply K.
      destruct (decide (replace "."%char "_"%char engine = key)) as [<-|Hne].
      * rewrite lookup_insert_eq. eauto.
      * now rewrite lookup_insert_ne.
    + intros engine' sig' [[= <- <-]|Hin]; [|now apply (E engine' sig')].
      apply K. rewrite lookup_insert_eq. eauto.
Qed.

(** X16: the dictionary that the first loop of [_get_report] builds
    from the engines of the answer has no dot in any key, holds a key
    for every engine, and holds under each key the signature of an
    engine of that key with its fields as they came and, under
    ["normalized"], the words that [normalize] gives for the [unicode]
    text of its ["result"]; the second loop reads those very words
    back. *)
Theorem scans_are_embedded :
  forall (net : Net) (entries : list (string * json))
         (scans : gmap string json),
    embed_scans net entries ∅ = Ok scans ->
    (forall key signature,
        scans !! key = Some signature ->
        count "."%char key = O /\
        exists engine fields variant words,
          In (engine, JObj fields) entries /\
          key = replace "."%char "_"%char engine /\
          fields !! "result" = Some variant /\
          normalize_value net variant = Ok words /\
          signature
          = JObj (<["normalized" := JList (map JStr words)]> fields) /\
          read_normalized signature = Ok words) /\
    (forall engine signature,
        In (engine, signature) entries ->
        is_Some (scans !! replace "."%char "_"%char engine)).
Proof.
  intros net entries scans H.
  destruct (embed_scans_sound net entries ∅ scans H) as (S & _ & E).
  split; [|exact E].
  intros key signature Hk.
  destruct (S key signature Hk) as [H0|H0];
    [rewrite lookup_empty in H0; discriminate|].
  destruct H0 as (engine & fields & variant & words
                  & Hin & -> & Hr & Hn & -> & Hread).
  split; [now apply replace_leaves_none|].
  exists engine, fields, variant, words. repeat split; assumption.
Qed.

Lemma scans_are_embedded_witness :
  count "."%char "McAfee_GW" = O /\
  exists engine fields variant words,
    In (engine, JObj fields) spaced_entries /\
    "McAfee_GW" = replace "."%char "_"%char engine /\
    fields !! "result" = Some variant /\
    normalize_value (net_of (Response 200 (Json sample_answer))) variant
    = Ok words /\
    spaced_signature
    = JObj (<["normalized" := JList (map JStr words)]> fields) /\
    read_normalized spaced_signature = Ok words.
Proof.
  assert (embed_scans (net_of (Response 200 (Json sample_answer)))
            spaced_entries ∅ = Ok spaced_scans) as H
    by (vm_compute; reflexivity).
  apply (proj1 (scans_are_embedded _ spaced_entries spaced_scans H)
           "McAfee_GW" spaced_signature).
  vm_compute. reflexivity.
Defined.

(** The unit separator after the dot is white space for [unicode]:
    the engine is stored with the one word that is left. *)
Example spaced_result_is_stripped :
  embed_scans (net_of (Response 200 (Json sample_answer))) spaced_entries ∅
  = Ok {[ "McAfee_GW" :=
            JObj {[ "detected" := JBool true;
                    "result" := JStr spaced_result;
                    "normalized" := JList [JStr "Zbot"] ]} ]}.
Proof. vm_compute. reflexivity. Qed.

(** The inner loop keeps [norm_lower] the lower-case image of the list
    found so far and free of repetitions, adds only words of the
    signature, and leaves the lower-case form of each of them in
    [norm_lower]. *)
Lemma merge_words_spec net words :
  forall found norm_lower found' norm_lower',
    norm_lower = map (lower (tolower net)) found ->
    NoDup norm_lower ->
    merge_words net words (found, norm_lower) = (found', norm_lower') ->
    norm_lower' = map (lower (tolower net)) found' /\
    NoDup norm_lower' /\
    (exists extra, found' = found ++ extra /\
                   forall w, In w extra -> In w words) /\
    (forall w, In w words -> In (lower (tolower net) w) norm_lower').
Proof.
  induction words as [|word words IH];
    intros found low found' low' Hlow Hnd; cbn [merge_words].
  - intros [= <- <-]. repeat split; auto.
    + exists []. split; [now rewrite app_nil_r | intros ? []].
    + intros ? [].
  - destruct (bool_decide (lower (tolower net) word ∈ low)) eqn:E; intros H.
    + apply bool_decide_eq_true, list_elem_of_In in E.
      destruct (IH _ _ _ _ Hlow Hnd H) as (A & B & (extra & C & D) & F).
      repeat split; auto.
      * exists extra. split; [exact C|]. intros w Hw. right. now apply D.
      * intros w [<-|Hw]; [|now apply F].
        rewrite A, C, map_app. apply in_or_app. left.
        now rewrite <- Hlow.
    + apply bool_decide_eq_false in E.
      assert (~ In (lower (tolower net) word) low) as Hnot.
      { intros Hin. now apply list_elem_of_In in Hin. }
      assert (NoDup (low ++ [lower (tolower net) word])) as Hnd'.
      { apply NoDup_app. repeat split; [exact Hnd| |apply NoDup_singleton].
        intros x Hx Hx'. apply list_elem_of_In in Hx.
        apply list_elem_of_singleton in Hx'. now subst. }
      assert (low ++ [lower (tolower net) word]
              = map (lower (tolower net)) (found ++ [word])) as Hlow'
        by (now rewrite map_app, Hlow).
      destruct (IH _ _ _ _ Hlow' Hnd' H) as (A & B & (extra & C & D) & F).
      repeat split; auto.
      * exists (word :: extra). split.
        -- now rewrite C, <- app_assoc.
        -- intros w [<-|Hw]; [now left | right; now apply D].
      * intros w [<-|Hw]; [|now apply F].
        rewrite A, C, !map_app. apply in_or_app. left.
        apply in_or_app. right. now left.
Qed.

Lemma merge_signatures_spec net signatures :
  forall found norm_lower found' norm_lower',
    norm_lower = map (lower (tolower net)) found ->
    NoDup norm_lower ->
    merge_signatures net signatures (found, norm_lower)
    = Ok (found', norm_lower') ->
    norm_lower' = map (lower (tolower net)) found' /\
    NoDup norm_lower' /\
    (exists extra,
        found' = found ++ extra /\
        forall w, In w extra ->
                  exists signature words,
                    In signature signatures /\
                    read_normalized signature = Ok words /\ In w words) /\
    (forall signature words w,
        In signature signatures ->
        read_normalized signature = Ok words -> In w words ->
        In (lower (tolower net) w) norm_lower').
Proof.
  induction signatures as [|signature rest IH];
    intros found low found' low' Hlow Hnd; cbn [merge_signatures].
  - intros [= <- <-]. repeat split; auto.
    + exists []. split; [now rewrite app_nil_r | intros ? []].
    + intros ? ? ? [].
  - destruct (read_normalized signature) as [words|] eqn:R; [|discriminate].
    cbn [and_then].
    destruct (merge_words net words (found, low)) as [found1 low1] eqn:M.
    destruct (merge_words_spec net words _ _ _ _ Hlow Hnd M)
      as (A1 & B1 & (extra1 & C1 & D1) & F1).
    intros H.
    destruct (IH _ _ _ _ A1 B1 H) as (A & B & (extra & C & D) & F).
    repeat split; auto.
    + exists (extra1 ++ extra). split; [now rewrite C, C1, app_assoc|].
      intros w Hw. apply in_app_or in Hw as [Hw|Hw].
      * exists signature, words. repeat split; auto. now left.
      * destruct (D w Hw) as (sg & ws & H1 & H2 & H3).
        exists sg, ws. repeat split; auto. now right.
    + intros sg ws w [<-|Hin] Hr Hw; [|now apply (F sg ws w)].
      rewrite R in Hr. injection Hr as <-.
      rewrite A, C, map_app. apply in_or_app. left.
      rewrite <- A1. now apply F1.
Qed.

(** X17: the second loop of [_get_report] leaves in
    [results["normalized"]] no two words that agree up to case, the
    case being folded as [unicode.lower] folds it; every word it
    leaves is a word of one of the signatures, and every word of every
    signature agrees up to case with one it leaves. *)
Theorem normalized_has_no_case_duplicates :
  forall (net : Net) (signatures : list json) (found norm_lower : list text),
    merge_signatures net signatures ([], []) = Ok (found, norm_lower) ->
    norm_lower = map (lower (tolower net)) found /\
    NoDup (map (lower (tolower net)) found) /\
    (forall w, In w found ->
               exists signature words,
                 In signature signatures /\
                 read_normalized signature = Ok words /\ In w words) /\
    (forall signature words w,
        In signature signatures ->
        read_normalized signature = Ok words -> In w words ->
        exists w', In w' found /\ same_word net w' w).
Proof.
  intros net signatures found low H.
  destruct (merge_signatures_spec net signatures [] [] found low eq_refl
              (NoDup_nil_2 (A := text)) H) as (A & B & (extra & C & D) & F).
  cbn [app] in C. subst extra.
  split; [exact A|]. split; [now rewrite <- A|]. split; [exact D|].
  intros signature words w Hin Hr Hw.
  specialize (F signature words w Hin Hr Hw). rewrite A in F.
  apply in_map_iff in F as (w' & E & Hw'). exists w'. now split.
Qed.

Lemma normalized_has_no_case_duplicates_witness :
  NoDup (map (lower latin1_tolower) [accented_lower; unicode "Kryptik"]).
Proof.
  refine (proj1 (proj2 (normalized_has_no_case_duplicates
            (net_of (Response 200 (Json sample_answer)))
            accented_signatures
            [accented_lower; unicode "Kryptik"]
            [accented_lower; unicode "kryptik"] _))).
  vm_compute. reflexivity.
Defined.

(** Two words that differ in the case of a letter out of ASCII are one
    word for the loop. *)
Example accented_words_are_merged :
  merge_signatures (net_of (Response 200 (Json sample_answer)))
    accented_signatures ([], [])
  = Ok ([accented_lower; unicode "Kryptik"],
        [accented_lower; unicode "kryptik"]) /\
  accented_upper <> accented_lower.
Proof. split; [vm_compute; reflexivity | discriminate]. Qed.

Lemma values_of_items (net : Net) (scans : gmap string json) signature :
  items net scans ≡ₚ map_to_list scans ->
  In signature (map snd (items net scans)) <->
  exists key, scans !! key = Some signature.
Proof.
  intros P. rewrite in_map_iff. split.
  - intros ([key sig] & <- & Hin). exists key.
    apply list_elem_of_In in Hin. rewrite P in Hin.
    now apply elem_of_map_to_list in Hin.
  - intros (key & Hk). exists (key, signature). split; [reflexivity|].
    apply list_elem_of_In. rewrite P. now apply elem_of_map_to_list.
Qed.

Lemma normalize_value_informative net variant words :
  normalize_value net variant = Ok words -> Forall (informative net) words.
Proof.
  unfold normalize_value.
  destruct (negb (truthy variant)); [intros [= <-]; constructor|].
  destruct variant as [| | |s| |]; try discriminate.
  intros H.
  assert (words = normalize (tolower net) (Some s)) as -> by congruence.
  apply unicode_normalize_kept.
Qed.

(** X18: a full report of a scanned resource, whatever the order in
    which the dictionaries are walked and whatever the lower-case
    mapping of the interpreter: the list under ["normalized"] has no
    two words that agree up to case, holds only words found under
    ["normalized"] in the signatures of ["scans"] and, up to case, all
    of them; each of its words is stripped as [unicode.strip] strips,
    holds no separator, has at least four code units, is not
    blacklisted and is not a run of hexadecimal digits; and no key of
    ["scans"] has a dot. *)
Theorem report_normalized_words :
  forall (net : Net) (self : VirusTotalAPI) (url resource : string)
         (results : gmap string json),
    (forall m, items net m ≡ₚ map_to_list m) ->
    _get_report net self url resource false = Ok results ->
    results = not_scanned \/
    exists found scans,
      results !! "normalized" = Some (JList (map JStr found)) /\
      results !! "scans" = Some (JObj scans) /\
      NoDup (map (lower (tolower net)) found) /\
      (forall w, In w found -> words_of_scans scans w) /\
      (forall w, words_of_scans scans w ->
                 exists w', In w' found /\ same_word net w' w) /\
      Forall (informative net) found /\
      (forall key, is_Some (scans !! key) -> count "."%char key = O).
Proof.
  intros net self url resource results Hitems. unfold _get_report.
  destruct (_request_json _ _ _ _ _) as [response|]; [|discriminate].
  cbn [and_then].
  destruct (as_dict response) as [r|]; [|discriminate]. cbn [and_then].
  destruct (negb (truthy (get r "response_code" JNull))).
  { destruct (scan self); [discriminate|]. intros [= <-]. now left. }
  cbn [negb].
  destruct (as_dict (get r "scans" (JObj ∅))) as [entries|]; [|discriminate].
  cbn [and_then].
  destruct (embed_scans net (items net entries) ∅) as [scans|] eqn:E;
    [|discriminate].
  cbn [and_then].
  destruct (merge_signatures net (map snd (items net scans)) ([], []))
    as [[found low]|] eqn:M; [|discriminate].
  cbn [and_then fst]. intros [= <-]. right.
  destruct (embed_scans_sound _ _ _ _ E) as (S & _ & _).
  destruct (merge_signatures_spec _ _ [] [] found low eq_refl
              (NoDup_nil_2 (A := text)) M) as (A & B & (extra & C & D) & F).
  cbn [app] in C. subst extra.
  assert (forall key signature,
             scans !! key = Some signature ->
             count "."%char key = O /\
             exists fields variant words,
               normalize_value net variant = Ok words /\
               signature
               = JObj (<["normalized" := JList (map JStr words)]> fields))
    as Hscans.
  { intros key signature Hk. destruct (S key signature Hk) as [H0|H0];
      [rewrite lookup_empty in H0; discriminate|].
    destruct H0 as (engine & fields & variant & words
                    & _ & -> & _ & Hn & -> & _).
    split; [now apply replace_leaves_none | eauto]. }
  exists found, scans. split; [apply lookup_insert_eq|].
  split; [rewrite lookup_insert_ne by discriminate; apply lookup_insert_eq|].
  split; [now rewrite <- A|]. split; [|split; [|split]].
  - intros w Hw. destruct (D w Hw) as (sig & words & Hin & Hr & Hin').
    apply (values_of_items net scans sig (Hitems scans)) in Hin as (key & Hk).
    exists key, sig, words. auto.
  - intros w (key & sig & words & Hk & Hr & Hw).
    assert (In sig (map snd (items net scans))) as Hin
      by (apply (values_of_items net scans sig (Hitems scans)); eauto).
    specialize (F sig words w Hin Hr Hw). rewrite A in F.
    apply in_map_iff in F as (w' & Ew & Hw'). exists w'. now split.
  - apply List.Forall_forall. intros w Hw.
    destruct (D w Hw) as (sig & words & Hin & Hr & Hin').
    apply (values_of_items net scans sig (Hitems scans)) in Hin as (key & Hk).
    destruct (Hscans key sig Hk) as (_ & fields & variant & words' & Hn & ->).
    rewrite read_normalized_stored in Hr. injection Hr as ->.
    pose proof (normalize_value_informative net variant words Hn) as Hall.
    rewrite List.Forall_forall in Hall. now apply Hall.
  - intros key [sig Hk]. now destruct (Hscans key sig Hk).
Qed.

Lemma report_normalized_words_witness :
  exists results,
    _get_report (net_of (Response 200 (Json sample_answer))) (reporter false)
      URL_REPORT "http://example.org/" false = Ok results /\
    (results = not_scanned \/
     exists found scans,
       results !! "normalized" = Some (JList (map JStr found)) /\
       results !! "scans" = Some (JObj scans) /\
       NoDup (map (lower latin1_tolower) found) /\
       (forall w, In w found -> words_of_scans scans w) /\
       (forall w, words_of_scans scans w ->
                  exists w',
                    In w' found /\
                    same_word (net_of (Response 200 (Json sample_answer)))
                      w' w) /\
       Forall (informative (net_of (Response 200 (Json sample_answer))))
         found /\
       (forall key, is_Some (scans !! key) -> count "."%char key = O)).
Proof.
  eexists. split; [vm_compute; reflexivity|].
  refine (report_normalized_words
            (net_of (Response 200 (Json sample_answer))) (reporter false)
            URL_REPORT "http://example.org/" _ (fun m => reflexivity _) _).
  vm_compute. reflexivity.
Defined.

(** X19: a resource counts as not scanned whenever the service answers
    with a status other than 200, or with a dictionary whose
    ["response_code"] is missing or false: [_get_report] then raises
    [VirusTotalResourceNotScanned] when [self.scan] is set, and returns
    the one-entry summary with the error text otherwise, with or
    without [summary]. *)
Theorem unscanned_resource :
  forall (net : Net) (self : VirusTotalAPI) (url resource : string)
         (summary : bool) (status_code : Z) (content : body),
    HAVE_REQUESTS net = true ->
    post net (report_request self url resource)
    = Response status_code content ->
    (status_code <> 200 \/
     exists r, content = Json (JObj r) /\
               truthy (get r "response_code" JNull) = false) ->
    _get_report net self url resource summary
    = if scan self then Fail ResourceNotScanned else Ok not_scanned.
Proof.
  intros net self url resource summary status_code content Hreq Hpost Hcase.
  unfold _get_report, _request_json. rewrite Hreq. cbn [negb].
  unfold report_request in Hpost. rewrite Hpost.
  destruct (Z.eqb_spec status_code 200) as [->|Hne].
  - destruct Hcase as [?|(r & -> & Ht)]; [contradiction|].
    cbn [and_then as_dict]. now rewrite Ht.
  - reflexivity.
Qed.

Lemma unscanned_resource_witness :
  _get_report (net_of (Response 204 (NotJson ""))) (reporter false)
    URL_REPORT "http://example.org/" true
  = (if scan (reporter false) then Fail ResourceNotScanned
     else Ok not_scanned) /\
  _get_report
    (net_of (Response 200 (Json (JObj {[ "response_code" := JNum 0 ]}))))
    (reporter true) URL_REPORT "http://example.org/" false
  = (if scan (reporter true) then Fail ResourceNotScanned
     else Ok not_scanned).
Proof.
  split.
  - apply (unscanned_resource (net_of (Response 204 (NotJson "")))
             (reporter false) URL_REPORT "http://example.org/" true
             204 (NotJson "") eq_refl eq_refl).
    left. discriminate.
  - apply (unscanned_resource
             (net_of (Response 200
                        (Json (JObj {[ "response_code" := JNum 0 ]}))))
             (reporter true) URL_REPORT "http://example.org/" false
             200 (Json (JObj {[ "response_code" := JNum 0 ]}))
             eq_refl eq_refl).
    right. eexists. split; reflexivity.
Defined.

(** X20: a report keeps the answer of the service: when the answer is
    a dictionary with a true ["response_code"], every entry of it is in
    the report under its key, except that a full report puts its own
    values under ["scans"] and ["normalized"]; the computed summary is
    under ["summary"] only when the answer has no such key; and the
    report has no other keys. *)
Theorem report_keeps_the_answer :
  forall (net : Net) (self : VirusTotalAPI) (url resource : string)
         (summary : bool) (r results : gmap string json),
    _request_json net self url
      {[ "resource" := resource; "apikey" := apikey self ]} None
    = Ok (JObj r) ->
    truthy (get r "response_code" JNull) = true ->
    _get_report net self url resource summary = Ok results ->
    (forall key value,
        r !! key = Some value ->
        summary = true \/ (key <> "scans" /\ key <> "normalized") ->
        results !! key = Some value) /\
    (r !! "summary" = None -> results !! "summary" = Some (summary_of r)) /\
    (forall key,
        is_Some (results !! key) ->
        is_Some (r !! key) \/ key = "summary" \/
        (summary = false /\ (key = "scans" \/ key = "normalized"))).
Proof.
  intros net self url resource summary r results Hreq Ht.
  unfold _get_report. rewrite Hreq. cbn [and_then as_dict]. rewrite Ht.
  cbn [negb]. fold (summary_of r).
  assert (forall key value,
             r !! key = Some value ->
             (r ∪ {[ "summary" := summary_of r ]}) !! key = Some value)
    as Hkeep by (intros; now apply lookup_union_Some_l).
  assert (r !! "summary" = None ->
          (r ∪ {[ "summary" := summary_of r ]}) !! "summary"
          = Some (summary_of r)) as Hsum.
  { intros Hn. rewrite lookup_union_r by exact Hn.
    apply lookup_singleton_eq. }
  assert (forall key,
             is_Some ((r ∪ {[ "summary" := summary_of r ]}) !! key) ->
             is_Some (r !! key) \/ key = "summary") as Honly.
  { intros key [v Hv]. apply lookup_union_Some_raw in Hv as [Hv|[_ Hv]];
      [left; eauto|].
    right. destruct (decide (key = "summary")) as [->|Hne]; [reflexivity|].
    rewrite lookup_singleton_ne in Hv by congruence. discriminate. }
  destruct summary.
  - intros [= <-]. repeat split; auto.
    intros key Hk. destruct (Honly key Hk); auto.
  - destruct (as_dict (get r "scans" (JObj ∅))) as [entries|]; [|discriminate].
    cbn [and_then].
    destruct (embed_scans net (items net entries) ∅) as [scans|];
      [|discriminate].
    cbn [and_then].
    destruct (merge_signatures _ _ _) as [merged|]; [|discriminate].
    cbn [and_then]. intros [= <-]. repeat split.
    + intros key value Hk [?|[H1 H2]]; [discriminate|].
      rewrite !lookup_insert_ne by congruence. now apply Hkeep.
    + intros Hn. rewrite !lookup_insert_ne by discriminate. now apply Hsum.
    + intros key Hk.
      destruct (decide (key = "normalized")) as [->|H1]; [now auto|].
      destruct (decide (key = "scans")) as [->|H2]; [now auto|].
      rewrite !lookup_insert_ne in Hk by congruence.
      destruct (Honly key Hk); auto.
Qed.

Lemma report_keeps_the_answer_witness :
  exists results,
    _get_report (net_of (Response 200 (Json sample_answer))) (reporter false)
      URL_REPORT "http://example.org/" true = Ok results /\
    results !! "permalink" = Some (JStr "https://www.virustotal.com/x") /\
    results !! "summary" = Some (summary_of sample_fields).
Proof.
  eexists.
  assert (_request_json (net_of (Response 200 (Json sample_answer)))
            (reporter false) URL_REPORT
            {[ "resource" := "http://example.org/";
               "apikey" := apikey (reporter false) ]} None
          = Ok (JObj sample_fields)) as Hreq by reflexivity.
  assert (truthy (get sample_fields "response_code" JNull) = true) as Ht
    by (vm_compute; reflexivity).
  split; [vm_compute; reflexivity|].
  split.
  - refine (proj1 (report_keeps_the_answer _ _ _ _ true _ _ Hreq Ht _)
              "permalink" (JStr "https://www.virustotal.com/x") _ _).
    + vm_compute. reflexivity.
    + vm_compute. reflexivity.
    + now left.
  - refine (proj1 (proj2 (report_keeps_the_answer _ _ _ _ true _ _
                            Hreq Ht _)) _).
    + vm_compute. reflexivity.
    + vm_compute. reflexivity.
Defined.

(** X21: a submission that the service answers with a status other
    than 200 is not an error for [url_scan] and [file_scan]: both
    return the summary whose ["permalink"] is [None]; and [file_scan]
    fails with the fault of [open], whatever the network would do,
    when the file cannot be opened. *)
Theorem refused_submission_has_no_permalink :
  forall (net : Net) (self : VirusTotalAPI) (target : string)
         (status_code : Z) (content : body),
    HAVE_REQUESTS net = true ->
    status_code <> 200 ->
    (post net (url_scan_request self target) = Response status_code content ->
     url_scan net self target
     = Ok {[ "summary" := JObj {[ "permalink" := JNull ]} ]}) /\
    (post net (file_scan_request self target) = Response status_code content ->
     open_rb net target = None ->
     file_scan net self target
     = Ok {[ "summary" := JObj {[ "permalink" := JNull ]} ]}) /\
    (forall e, open_rb net target = Some e -> file_scan net self target = Fail e).
Proof.
  intros net self target status_code content Hreq Hne.
  apply Z.eqb_neq in Hne. repeat split.
  - intros Hpost. unfold url_scan, _request_json. rewrite Hreq. cbn [negb].
    unfold url_scan_request in Hpost. rewrite Hpost, Hne. reflexivity.
  - intros Hpost Hopen. unfold file_scan, _request_json.
    rewrite Hopen, Hreq. cbn [negb].
    unfold file_scan_request in Hpost. rewrite Hpost, Hne. reflexivity.
  - intros e Hopen. unfold file_scan. now rewrite Hopen.
Qed.

Lemma refused_submission_has_no_permalink_witness :
  url_scan (net_of (Response 403 (NotJson "Forbidden"))) (reporter false)
    "http://example.org/"
  = Ok {[ "summary" := JObj {[ "permalink" := JNull ]} ]} /\
  file_scan (net_of (Response 403 (NotJson "Forbidden"))) (reporter false)
    "/tmp/sample"
  = Ok {[ "summary" := JObj {[ "permalink" := JNull ]} ]} /\
  file_scan (net_without_file (Response 403 (NotJson "Forbidden")))
    (reporter false) "/tmp/sample"
  = Fail (IOError "No such file or directory").
Proof.
  split; [|split].
  - apply (proj1 (refused_submission_has_no_permalink
                    (net_of (Response 403 (NotJson "Forbidden")))
                    (reporter false) "http://example.org/" 403
                    (NotJson "Forbidden") eq_refl ltac:(discriminate))).
    reflexivity.
  - apply (proj1 (proj2 (refused_submission_has_no_permalink
                           (net_of (Response 403 (NotJson "Forbidden")))
                           (reporter false) "/tmp/sample" 403
                           (NotJson "Forbidden") eq_refl
                           ltac:(discriminate))));
      reflexivity.
  - apply (proj2 (proj2 (refused_submission_has_no_permalink
                           (net_without_file
                              (Response 403 (NotJson "Forbidden")))
                           (reporter false) "/tmp/sample" 403
                           (NotJson "Forbidden") eq_refl
                           ltac:(discriminate)))).
    reflexivity.
Defined.

End Reports.

(** * The two exits of the loop and the interrupted run, on samples *)

Section LoopExitsWitnesses.
Import PyStr Analyzer Samples Observe.

Lemma polling_returned_witness :
  exists t,
    polling 3 (quiet_env (package_of None (done_at 2)))
      (package_of None (done_at 2)) "modules.packages.apk" 0
    = Some (t, Returned 2) /\
    ((2 = timeout (config (quiet_env (package_of None (done_at 2)))) /\
      exists t',
        t = t' ++ [EvLog Info "Analysis timeout hit, terminating analysis"]) \/
     package_check (package_of None (done_at 2)) 2 = Returned false).
Proof.
  eexists. split; [vm_compute; reflexivity|].
  refine (polling_returned 3 (quiet_env (package_of None (done_at 2)))
            (package_of None (done_at 2)) "modules.packages.apk" 0 _ 2 _).
  vm_compute. reflexivity.
Defined.

Lemma run_polling_raises_witness :
  exists t0 t1,
    run 3 interrupted_env
    = Some (t0 ++ [EvPackageStart "/data/local/tmp/sample.apk"] ++ t1,
            Raised (Exn KeyboardInterrupt "")) /\
    count_events is_finish
      (t0 ++ [EvPackageStart "/data/local/tmp/sample.apk"] ++ t1) = 0%nat.
Proof.
  eexists _, _.
  refine (run_polling_raises 3 interrupted_env _
            (package_of None always_alive) [sniffer] "modules.packages.apk"
            "/data/local/tmp/sample.apk" _ (Exn KeyboardInterrupt "")
            _ eq_refl _).
  - vm_compute. reflexivity.
  - vm_compute. reflexivity.
Defined.

End LoopExitsWitnesses.

(** * The order of the phases of a run *)

Section PhaseOrder.
Import PyStr Analyzer Samples Observe.

Lemma forallb_weaken {A} (p q : A -> bool) (l : list A) :
  (forall x, p x = true -> q x = true) ->
  forallb p l = true -> forallb q l = true.
Proof.
  intros Hpq. rewrite !forallb_forall. intros H x Hx. apply Hpq, H, Hx.
Qed.

Lemma prepare_silent w t o : prepare w = Some (t, o) -> t = [].
Proof. unfold prepare. destruct (prepare_fault w); now intros [= <- <-]. Qed.

(** The target that [setup] yields is the one [prepare] stored. *)
Lemma setup_target w t pack auxs package_name tgt :
  setup w = Some (t, Returned (pack, auxs, package_name, tgt)) ->
  prepare w = Some ([], Returned tgt).
Proof.
  unfold setup. intros H.
  apply bind_inv in H as [(e & _ & [=]) | (t0 & tgt0 & t' & Hp & H & _)].
  rewrite (prepare_silent _ _ _ Hp) in Hp. rewrite Hp.
  repeat (apply bind_inv in H as [(? & _ & [=]) | (? & ? & ? & _ & H & _)]).
  now inversion H.
Qed.

Lemma started_on_app t1 t2 :
  started_on (t1 ++ t2) = started_on t1 ++ started_on t2.
Proof.
  induction t1 as [|[] t1 IH]; cbn [started_on app]; try exact IH.
  - reflexivity.
  - now rewrite IH.
Qed.

Lemma started_on_none t :
  forallb (fun ev => negb (is_package_start ev)) t = true ->
  started_on t = [].
Proof.
  induction t as [|[] t IH]; cbn [forallb started_on]; try exact IH;
    [reflexivity | discriminate].
Qed.

(** [pack.start] is the only thing lines 169-180 do. *)
Lemma start_package_trace pack package_name tgt t o :
  start_package pack package_name tgt = Some (t, o) ->
  t = [EvPackageStart tgt].
Proof.
  unfold start_package, call, try_except, is_Exception.
  destruct (package_start pack tgt) as [[[] msg]|];
    cbn; now intros [= <- <-].
Qed.

(** X24: the set-up of a run comes before the analysis.  The trace of
    a run that comes back splits in two: a first part with no call into
    the package from [start] on, no pause and no [stop()], and a second
    part with no import, no constructor and no start of an auxiliary
    module.  [pack.start] is invoked at most once, and then on the
    target that [prepare] stored. *)
Theorem setup_precedes_the_analysis :
  forall (fuel : nat) (w : Env) (t : list event) (o : outcome bool),
    run fuel w = Some (t, o) ->
    exists t1 t2 : list event,
      t = t1 ++ t2 /\
      forallb (fun ev => negb (is_analysis_event ev)) t1 = true /\
      forallb (fun ev => negb (is_setup_event ev)) t2 = true /\
      (started_on t = [] \/
       exists tgt, started_on t = [tgt] /\
                   prepare w = Some ([], Returned tgt)).
Proof.
  intros fuel w t o H. unfold run in H.
  assert (forall t1 o1, setup w = Some (t1, o1) ->
            forallb (fun ev => negb (is_analysis_event ev)) t1 = true) as Hs.
  { intros t1 o1. now apply emits_only_setup. }
  apply bind_inv in H as [(e & H & _) | (t1 & [[[pack auxs] pn] tgt] & t2 & H1 & H & ->)].
  - exists t, []. rewrite app_nil_r. repeat split; [now apply (Hs _ _ H)|].
    left. apply started_on_none.
    eapply forallb_weaken; [|apply (Hs _ _ H)]. now intros [].
  - exists t1, t2. split; [reflexivity|]. split; [now apply (Hs _ _ H1)|].
    assert (started_on t1 = []) as E1.
    { apply started_on_none.
      eapply forallb_weaken; [|apply (Hs _ _ H1)]. now intros []. }
    rewrite started_on_app, E1. cbn [app].
    assert (forall t3 (o3 : outcome bool),
              (polling fuel w pack pn 0 ;; shutdown pack auxs pn)
              = Some (t3, o3) ->
              forallb (fun ev => negb (is_setup_event ev)
                                 && negb (is_package_start ev)) t3 = true)
      as Hrest.
    { intros t3 o3.
      apply (emits_only_bind (fun ev => negb (is_setup_event ev)
                                 && negb (is_package_start ev)));
        [now apply emits_only_polling|].
      intros _. now apply emits_only_shutdown. }
    apply bind_inv in H as [(e & H & _) | (t3 & [] & t4 & H3 & H & ->)].
    + rewrite (start_package_trace _ _ _ _ _ H). split; [reflexivity|].
      right. exists tgt. split; [reflexivity|].
      now apply setup_target in H1.
    + rewrite (start_package_trace _ _ _ _ _ H3).
      specialize (Hrest _ _ H).
      split.
      * cbn [app forallb is_setup_event negb andb].
        eapply forallb_weaken; [|exact Hrest].
        intros ev Hev. now apply andb_true_iff in Hev.
      * right. exists tgt. split; [|now apply setup_target in H1].
        cbn [app started_on]. f_equal. apply started_on_none.
        eapply forallb_weaken; [|exact Hrest].
        intros ev Hev. now apply andb_true_iff in Hev.
Qed.

Lemma setup_precedes_the_analysis_witness :
  exists (t : list event) (o : outcome bool),
    run 3 (quiet_env (package_of None (done_at 2))) = Some (t, o) /\
    exists t1 t2 : list event,
      t = t1 ++ t2 /\
      forallb (fun ev => negb (is_analysis_event ev)) t1 = true /\
      forallb (fun ev => negb (is_setup_event ev)) t2 = true /\
      (started_on t = [] \/
       exists tgt,
         started_on t = [tgt] /\
         prepare (quiet_env (package_of None (done_at 2)))
         = Some ([], Returned tgt)).
Proof.
  eexists _, _. split; [vm_compute; reflexivity|].
  apply (setup_precedes_the_analysis 3
           (quiet_env (package_of None (done_at 2))) _ (Returned true)).
  vm_compute. reflexivity.
Defined.

End PhaseOrder.

(** * The selection for a URL and the constructor of the package *)

Section SetupEdges.
Import PyStr Analyzer Samples Observe.

Lemma select_package_url w :
  falsy (package (config w)) = true ->
  category (config w) <> "file" ->
  select_package w
  = Some ([EvLog Info
             "No analysis package specified, trying to detect it automagically";
           EvLog Info ("Automatically selected analysis package "
                       +:+ dq +:+ "default_browser" +:+ dq)],
          Returned "default_browser").
Proof.
  intros Hpkg Hcat. unfold select_package.
  apply String.eqb_neq in Hcat. rewrite Hcat.
  destruct (package (config w)) as [[|c p]|]; try discriminate; reflexivity.
Qed.

Lemma setup_url w t o :
  prepare_fault w = None ->
  falsy (package (config w)) = true ->
  category (config w) <> "file" ->
  setup w = Some (t, o) ->
  exists t' : list event,
    t = [EvLog Info ("Starting analyzer from: " +:+ cwd w);
         EvLog Info ("Storing results at: " +:+ root w);
         EvLog Info ("Target is: " +:+ target (config w));
         EvLog Info
           "No analysis package specified, trying to detect it automagically";
         EvLog Info ("Automatically selected analysis package "
                     +:+ dq +:+ "default_browser" +:+ dq);
         EvImport "modules.packages.default_browser"] ++ t'.
Proof.
  intros Hprep Hpkg Hcat. unfold setup, prepare. rewrite Hprep.
  rewrite (proj2 (String.eqb_neq _ _) Hcat).
  cbn [bind ret log emit app].
  rewrite (select_package_url w Hpkg Hcat).
  cbn [bind ret log emit app].
  change ("modules.packages." +:+ "default_browser")
    with "modules.packages.default_browser".
  unfold import_package, import, call, try_except.
  destruct (import_module w "modules.packages.default_browser")
    as [[cls msg]|].
  - cbn [bind ret log emit app raise exn_class_of].
    destruct cls; cbn [bind ret log emit app raise];
      intros [= <- <-]; now exists [].
  - cbn [bind ret log emit app raise].
    match goal with
    | |- context [bind (select_package_class w ?n) ?k] =>
        destruct (bind (select_package_class w n) k) as [[t' o']|];
        [|discriminate]
    end.
    intros [= <- <-]. now exists t'.
Qed.

(** X25: an analysis of something that is not a file, with no package
    named at submission, selects ["default_browser"] without asking
    [choose_package]: whatever happens later, the run begins with the
    greeting (the target being [config.target] as it stands), the two
    lines of the selection and the import of
    [modules.packages.default_browser]. *)
Theorem url_analysis_defaults_to_the_browser :
  forall (fuel : nat) (w : Env) (t : list event) (o : outcome bool),
    prepare_fault w = None ->
    falsy (package (config w)) = true ->
    category (config w) <> "file" ->
    run fuel w = Some (t, o) ->
    exists t' : list event,
      t = [EvLog Info ("Starting analyzer from: " +:+ cwd w);
           EvLog Info ("Storing results at: " +:+ root w);
           EvLog Info ("Target is: " +:+ target (config w));
           EvLog Info
             "No analysis package specified, trying to detect it automagically";
           EvLog Info ("Automatically selected analysis package "
                       +:+ dq +:+ "default_browser" +:+ dq);
           EvImport "modules.packages.default_browser"] ++ t'.
Proof.
  intros fuel w t o Hprep Hpkg Hcat H. unfold run in H.
  apply bind_inv in H as [(e & H & _) | (t1 & a & t2 & H1 & _ & ->)].
  - exact (setup_url w t _ Hprep Hpkg Hcat H).
  - destruct (setup_url w t1 _ Hprep Hpkg Hcat H1) as [t' ->].
    exists (t' ++ t2). now rewrite app_assoc.
Qed.

Lemma url_analysis_defaults_to_the_browser_witness :
  exists (t : list event) (o : outcome bool),
    run 3 url_env = Some (t, o) /\
    exists t' : list event,
      t = [EvLog Info "Starting analyzer from: /data/local/tmp/analyzer";
           EvLog Info "Storing results at: /data/local/tmp";
           EvLog Info "Target is: http://example.org/";
           EvLog Info
             "No analysis package specified, trying to detect it automagically";
           EvLog Info ("Automatically selected analysis package "
                       +:+ dq +:+ "default_browser" +:+ dq);
           EvImport "modules.packages.default_browser"] ++ t'.
Proof.
  eexists _, _. split; [vm_compute; reflexivity|].
  apply (url_analysis_defaults_to_the_browser 3 url_env _ (Returned true)
           eq_refl eq_refl); [discriminate|].
  vm_compute. reflexivity.
Defined.

Lemma constructed_with_app t1 t2 :
  constructed_with (t1 ++ t2) = constructed_with t1 ++ constructed_with t2.
Proof.
  induction t1 as [|[] t1 IH]; cbn [constructed_with app]; try exact IH.
  - reflexivity.
  - now rewrite IH.
Qed.

(** What the handler of [__main__] does with an [Exception]. *)
Lemma run_exception fuel w t e :
  run fuel w = Some (t, Raised e) ->
  is_Exception e = true ->
  main fuel w
  = Some (t ++ [critical w (exn_msg e);
                EvComplete false (exn_msg e) (root w)],
          complete_fault w).
Proof.
  intros H He. unfold main. rewrite H. unfold report, is_Exception in *.
  destruct (exn_class_of e); try discriminate;
    now destruct (complete_fault w).
Qed.

(** X26: an [Exception] raised by the constructor of the package is
    reported as it is: the main program hands its text to
    [server.complete] with a false flag, after the options were parsed
    and handed to the constructor once; nothing but the module of the
    package was imported, and no auxiliary module was touched. *)
Theorem package_constructor_fault_is_reported :
  forall (fuel : nat) (w : Env) (t_sel t_opts : list event) (name : string)
         (package_class : gmap string string -> outcome Package)
         (rest : list (gmap string string -> outcome Package))
         (opts : gmap string string) (e : exn),
    prepare_fault w = None ->
    select_package w = Some (t_sel, Returned name) ->
    import_module w ("modules.packages." +:+ name) = None ->
    package_subclasses w = package_class :: rest ->
    get_options (options (config w)) = Some (t_opts, Returned opts) ->
    package_class opts = Raised e ->
    is_Exception e = true ->
    exists t : list event,
      main fuel w
      = Some (t ++ [critical w (exn_msg e);
                    EvComplete false (exn_msg e) (root w)],
              complete_fault w) /\
      constructed_with t = [opts] /\
      imported t = ["modules.packages." +:+ name] /\
      forallb (fun ev => match ev with
                         | EvLog _ _ | EvImport _ | EvPackageInit _ => true
                         | _ => false
                         end) t = true.
Proof.
  intros fuel w t_sel t_opts name package_class rest opts e
    Hprep Hsel Himp Hsub Hopts Hcls He.
  set (logs := fun ev => match ev with EvLog _ _ => true | _ => false end).
  assert (forallb logs t_sel = true) as Hsel_log.
  { eapply (emits_only_select_package logs); [reflexivity | exact Hsel]. }
  assert (forallb logs t_opts = true) as Hopts_log.
  { eapply (emits_only_get_options logs); [reflexivity | exact Hopts]. }
  assert (forall t : list event,
             forallb logs t = true ->
             imported t = [] /\ constructed_with t = [] /\
             forallb (fun ev => match ev with
                                | EvLog _ _ | EvImport _ | EvPackageInit _
                                  => true
                                | _ => false
                                end) t = true) as Hlogs.
  { induction t as [|ev t IH]; [now repeat split|].
    cbn [forallb]. intros H. apply andb_true_iff in H as [H1 H2].
    destruct ev; try discriminate. cbn [imported constructed_with forallb].
    now apply IH. }
  assert (setup w
          = Some ([EvLog Info ("Starting analyzer from: " +:+ cwd w);
                   EvLog Info ("Storing results at: " +:+ root w);
                   EvLog Info ("Target is: "
                               +:+ (if (category (config w) =? "file")%string
                                    then path_join "/data/local/tmp"
                                           (file_name (config w))
                                    else target (config w)))]
                  ++ t_sel ++ [EvImport ("modules.packages." +:+ name)]
                  ++ t_opts ++ [EvPackageInit opts],
                  Raised e)) as Hsetup.
  { unfold setup, prepare. rewrite Hprep.
    cbn [bind ret log emit app]. rewrite Hsel.
    cbn [bind ret log emit app].
    unfold import_package, import, call, try_except. rewrite Himp.
    cbn [bind ret log emit app raise].
    unfold select_package_class. rewrite Hsub.
    cbn [bind ret log emit app raise].
    unfold new_package. rewrite Hopts.
    cbn [bind ret log emit app raise]. rewrite Hcls.
    cbn [bind ret log emit app raise].
    reflexivity. }
  eexists. split.
  - apply run_exception; [|exact He].
    unfold run. rewrite Hsetup. reflexivity.
  - destruct (Hlogs _ Hsel_log) as (I1 & C1 & F1).
    destruct (Hlogs _ Hopts_log) as (I2 & C2 & F2).
    cbn [app imported constructed_with forallb andb].
    rewrite !imported_app, !constructed_with_app, !forallb_app.
    cbn [app imported constructed_with forallb andb].
    rewrite !imported_app, !constructed_with_app, !forallb_app.
    cbn [app imported constructed_with forallb andb].
    rewrite I1, I2, C1, C2, F1, F2. repeat split.
Qed.

Lemma package_constructor_fault_is_reported_witness :
  exists t : list event,
    main 3 refusing_env
    = Some (t ++ [EvLog Critical "unknown option";
                  EvComplete false "unknown option" "/data/local/tmp"],
            None) /\
    constructed_with t = [{[ "a" := "1"; "b" := "2" ]}] /\
    imported t = ["modules.packages.apk"] /\
    forallb (fun ev => match ev with
                       | EvLog _ _ | EvImport _ | EvPackageInit _ => true
                       | _ => false
                       end) t = true.
Proof.
  refine (package_constructor_fault_is_reported 3 refusing_env [] _ "apk"
            _ [] {[ "a" := "1"; "b" := "2" ]}
            (Exn OtherException "unknown option")
            eq_refl eq_refl eq_refl eq_refl _ eq_refl eq_refl).
  vm_compute. reflexivity.
Defined.

End SetupEdges.
